(** * A shallow embedding of the reconciliation engine of gunins/preact-test

    The bundle [src/unnamed/part_000] contains the Preact core (scheduler,
    [Component.prototype.setState], [diff], [diffChildren], [_catchError]) and
    the hooks runtime ([useReducer], [options.unmount]).  The engine is
    single-threaded JavaScript that mutates objects shared by reference, so
    the embedding keeps an explicit store of heap objects addressed by
    reference, and runs every function of the source as a state transformer
    over that store that either returns, throws a JavaScript value, or
    diverges. *)

From Stdlib Require Import ZArith String Ascii List Bool Lia.
From stdpp Require Import base option list sorting gmap strings fin_maps.

Open Scope string_scope.
Open Scope list_scope.

(** ** JavaScript values *)

(** References into the heaps of the store. *)
Abbreviation oid := nat (only parsing).   (* plain objects: props, state, context *)
Abbreviation fid := nat (only parsing).   (* functions and classes *)
Abbreviation vid := nat (only parsing).   (* virtual nodes *)
Abbreviation cid := nat (only parsing).   (* component instances *)
Abbreviation aid := nat (only parsing).   (* arrays *)
Abbreviation did := nat (only parsing).   (* host (DOM) nodes *)

Inductive jsval :=
| VUndef
| VNull
| VBool (b : bool)
| VNum (n : Z)
| VNaN
| VStr (s : string)
| VObj (o : oid)
| VFun (f : fid)
| VVNode (v : vid)
| VComp (c : cid)
| VArr (a : aid)
| VDom (d : did)
| VError (msg : string).

#[global] Instance jsval_eq_dec : EqDecision jsval.
Proof. solve_decision. Defined.

(** [x === y]: identity of references and of primitives; [NaN] is not
    identical to itself. *)
Definition strict_eq (x y : jsval) : bool :=
  match x, y with
  | VNaN, _ | _, VNaN => false
  | _, _ => bool_decide (x = y)
  end.

(** [x !== y] *)
Definition strict_neq (x y : jsval) : bool := negb (strict_eq x y).

(** [x == null] *)
Definition is_nullish (x : jsval) : bool :=
  match x with
  | VUndef | VNull => true
  | _ => false
  end.

(** The value of [x] in a condition ([if (x)], [x && ...], [!x]). *)
Definition truthy (x : jsval) : bool :=
  match x with
  | VUndef | VNull | VNaN => false
  | VBool b => b
  | VNum n => negb (n =? 0)%Z
  | VStr s => negb (String.eqb s "")
  | _ => true
  end.

(** The [TypeError] raised by a property access on [undefined] or [null]. *)
Definition TypeError : jsval := VError "TypeError".

(** Outcome of running a piece of JavaScript. *)
Inductive res (A : Type) :=
| Ret (a : A)
| Throw (e : jsval)
| Diverge.
Arguments Ret {A} a.
Arguments Throw {A} e.
Arguments Diverge {A}.

(** ** Virtual nodes *)

(** [vnode.type]: [null] for a text node, a tag name, or a component. *)
Inductive vtype :=
| TyText
| TyTag (tag : string)
| TyFun (f : fid).

#[global] Instance vtype_eq_dec : EqDecision vtype.
Proof. solve_decision. Defined.

(** [vnode.key]: its documented type is [string | number | null]; a node
    built by [createElement] without a key holds [undefined]. *)
Inductive jskey :=
| KUndef
| KNull
| KNum (n : Z)
| KStr (s : string).

#[global] Instance jskey_eq_dec : EqDecision jskey.
Proof. solve_decision. Defined.

(** A host node slot such as [vnode._dom]: [undefined], [null] or a node. *)
Inductive domv :=
| DUndef
| DNull
| DNode (d : did).

#[global] Instance domv_eq_dec : EqDecision domv.
Proof. solve_decision. Defined.

Module VNode.
Record t := mk {
  type : vtype;
  props : jsval;
  key : jskey;
  ref : jsval;
  _children : jsval;
  _parent : option vid;
  _depth : nat;
  _dom : domv;
  _nextDom : domv;
  _component : option cid;
  constructor : jsval;
  _original : jsval
}.
End VNode.

(** ** Component instances and hook cells *)

(** The functions held by [c._renderCallbacks]. *)
Inductive callback :=
| CbDidMount (f : fid)                        (* c.componentDidMount, as read at line 922 *)
| CbDidUpdate (oldProps oldState : jsval) (snapshot : nat)
                                              (* the closure of line 968; [snapshot]
                                                 addresses its captured variable *)
| CbFn (f : fid).                             (* the callback given to setState / forceUpdate *)

(** The reducer captured by the setter of a state cell: [invokeOrReturn]
    for [useState], the caller's function for [useReducer]. *)
Inductive reducer :=
| RInvokeOrReturn
| RUser (f : fid).

Module Hook.
(** [_value] of a cell. *)
Inductive value :=
| Unset                                       (* a fresh cell, {} *)
| State (v : jsval) (r : reducer)             (* [value, setter] *)
| Memo (v : jsval)                            (* cached value *)
| Effect (f : fid).                           (* effect body *)

Record t := mk {
  _component : option cid;
  _value : value;
  _args : option (list jsval);
  _factory : option fid;
  _cleanup : option fid
}.
End Hook.

Record hooks := mk_hooks {
  _list : list Hook.t;
  _pendingEffects : list nat       (* cells of [_list], by position *)
}.

Module Comp.
Record t := mk {
  constructor : fid;
  props : jsval;
  state : jsval;
  _nextState : jsval;
  context : jsval;
  _globalContext : jsval;
  _vnode : option vid;
  _dirty : bool;
  _force : bool;
  _renderCallbacks : list callback;
  _pendingError : option cid;
  _processingException : option cid;
  _parentDom : option did;
  base : domv;
  __hooks : option hooks
}.
End Comp.

(** ** The store *)

Record store := mk_store {
  vnodes : list VNode.t;
  components : list Comp.t;
  objects : list (gmap string jsval);
  arrays : list (list jsval);
  snapshots : list jsval;            (* captured [snapshot] variables *)
  (* module-level variables of the scheduler *)
  rerenderQueue : list cid;
  rerenderCount : nat;
  prevDebounce : option fid;
  debounceRendering : option fid;    (* options.debounceRendering *)
  scheduled : list (option fid);     (* calls [(prevDebounce || defer)(process)]:
                                        the strategy each was handed to *)
  commitQueue : list cid;            (* the array created by renderComponent *)
  (* module-level variables of the hooks runtime *)
  currentComponent : option cid;
  currentIndex : nat;
  afterPaintEffects : list cid;
  prevRaf : option fid;
  requestAnimationFrame : option fid; (* options.requestAnimationFrame *)
  paintScheduled : list (option fid)  (* calls [(prevRaf || afterNextFrame)(flush)] *)
}.

(** An object whose fields have not been assigned: every field reads as
    [undefined]. *)
Definition blank_vnode : VNode.t :=
  VNode.mk TyText VUndef KUndef VUndef VUndef None 0 DUndef DUndef None VUndef VUndef.

Definition blank_comp : Comp.t :=
  Comp.mk 0 VUndef VUndef VUndef VUndef VUndef None false false [] None None None DUndef None.

Definition blank_cell : Hook.t := Hook.mk None Hook.Unset None None None.

(** *** Field updates *)

Definition set_vnodes (x : list VNode.t) (s : store) : store :=
  mk_store x (components s) (objects s) (arrays s) (snapshots s) (rerenderQueue s)
    (rerenderCount s) (prevDebounce s) (debounceRendering s) (scheduled s) (commitQueue s)
    (currentComponent s) (currentIndex s) (afterPaintEffects s) (prevRaf s)
    (requestAnimationFrame s) (paintScheduled s).

Definition set_components (x : list Comp.t) (s : store) : store :=
  mk_store (vnodes s) x (objects s) (arrays s) (snapshots s) (rerenderQueue s)
    (rerenderCount s) (prevDebounce s) (debounceRendering s) (scheduled s) (commitQueue s)
    (currentComponent s) (currentIndex s) (afterPaintEffects s) (prevRaf s)
    (requestAnimationFrame s) (paintScheduled s).

Definition set_objects (x : list (gmap string jsval)) (s : store) : store :=
  mk_store (vnodes s) (components s) x (arrays s) (snapshots s) (rerenderQueue s)
    (rerenderCount s) (prevDebounce s) (debounceRendering s) (scheduled s) (commitQueue s)
    (currentComponent s) (currentIndex s) (afterPaintEffects s) (prevRaf s)
    (requestAnimationFrame s) (paintScheduled s).

Definition set_arrays (x : list (list jsval)) (s : store) : store :=
  mk_store (vnodes s) (components s) (objects s) x (snapshots s) (rerenderQueue s)
    (rerenderCount s) (prevDebounce s) (debounceRendering s) (scheduled s) (commitQueue s)
    (currentComponent s) (currentIndex s) (afterPaintEffects s) (prevRaf s)
    (requestAnimationFrame s) (paintScheduled s).

Definition set_snapshots (x : list jsval) (s : store) : store :=
  mk_store (vnodes s) (components s) (objects s) (arrays s) x (rerenderQueue s)
    (rerenderCount s) (prevDebounce s) (debounceRendering s) (scheduled s) (commitQueue s)
    (currentComponent s) (currentIndex s) (afterPaintEffects s) (prevRaf s)
    (requestAnimationFrame s) (paintScheduled s).

Definition set_rerenderQueue (x : list cid) (s : store) : store :=
  mk_store (vnodes s) (components s) (objects s) (arrays s) (snapshots s) x
    (rerenderCount s) (prevDebounce s) (debounceRendering s) (scheduled s) (commitQueue s)
    (currentComponent s) (currentIndex s) (afterPaintEffects s) (prevRaf s)
    (requestAnimationFrame s) (paintScheduled s).

Definition set_rerenderCount (x : nat) (s : store) : store :=
  mk_store (vnodes s) (components s) (objects s) (arrays s) (snapshots s) (rerenderQueue s)
    x (prevDebounce s) (debounceRendering s) (scheduled s) (commitQueue s)
    (currentComponent s) (currentIndex s) (afterPaintEffects s) (prevRaf s)
    (requestAnimationFrame s) (paintScheduled s).

Definition set_prevDebounce (x : option fid) (s : store) : store :=
  mk_store (vnodes s) (components s) (objects s) (arrays s) (snapshots s) (rerenderQueue s)
    (rerenderCount s) x (debounceRendering s) (scheduled s) (commitQueue s)
    (currentComponent s) (currentIndex s) (afterPaintEffects s) (prevRaf s)
    (requestAnimationFrame s) (paintScheduled s).

Definition set_debounceRendering (x : option fid) (s : store) : store :=
  mk_store (vnodes s) (components s) (objects s) (arrays s) (snapshots s) (rerenderQueue s)
    (rerenderCount s) (prevDebounce s) x (scheduled s) (commitQueue s)
    (currentComponent s) (currentIndex s) (afterPaintEffects s) (prevRaf s)
    (requestAnimationFrame s) (paintScheduled s).

Definition set_scheduled (x : list (option fid)) (s : store) : store :=
  mk_store (vnodes s) (components s) (objects s) (arrays s) (snapshots s) (rerenderQueue s)
    (rerenderCount s) (prevDebounce s) (debounceRendering s) x (commitQueue s)
    (currentComponent s) (currentIndex s) (afterPaintEffects s) (prevRaf s)
    (requestAnimationFrame s) (paintScheduled s).

Definition set_commitQueue (x : list cid) (s : store) : store :=
  mk_store (vnodes s) (components s) (objects s) (arrays s) (snapshots s) (rerenderQueue s)
    (rerenderCount s) (prevDebounce s) (debounceRendering s) (scheduled s) x
    (currentComponent s) (currentIndex s) (afterPaintEffects s) (prevRaf s)
    (requestAnimationFrame s) (paintScheduled s).

Definition set_currentComponent (x : option cid) (s : store) : store :=
  mk_store (vnodes s) (components s) (objects s) (arrays s) (snapshots s) (rerenderQueue s)
    (rerenderCount s) (prevDebounce s) (debounceRendering s) (scheduled s) (commitQueue s)
    x (currentIndex s) (afterPaintEffects s) (prevRaf s)
    (requestAnimationFrame s) (paintScheduled s).

Definition set_currentIndex (x : nat) (s : store) : store :=
  mk_store (vnodes s) (components s) (objects s) (arrays s) (snapshots s) (rerenderQueue s)
    (rerenderCount s) (prevDebounce s) (debounceRendering s) (scheduled s) (commitQueue s)
    (currentComponent s) x (afterPaintEffects s) (prevRaf s)
    (requestAnimationFrame s) (paintScheduled s).

Definition set_afterPaintEffects (x : list cid) (s : store) : store :=
  mk_store (vnodes s) (components s) (objects s) (arrays s) (snapshots s) (rerenderQueue s)
    (rerenderCount s) (prevDebounce s) (debounceRendering s) (scheduled s) (commitQueue s)
    (currentComponent s) (currentIndex s) x (prevRaf s)
    (requestAnimationFrame s) (paintScheduled s).

Definition set_prevRaf (x : option fid) (s : store) : store :=
  mk_store (vnodes s) (components s) (objects s) (arrays s) (snapshots s) (rerenderQueue s)
    (rerenderCount s) (prevDebounce s) (debounceRendering s) (scheduled s) (commitQueue s)
    (currentComponent s) (currentIndex s) (afterPaintEffects s) x
    (requestAnimationFrame s) (paintScheduled s).

Definition set_paintScheduled (x : list (option fid)) (s : store) : store :=
  mk_store (vnodes s) (components s) (objects s) (arrays s) (snapshots s) (rerenderQueue s)
    (rerenderCount s) (prevDebounce s) (debounceRendering s) (scheduled s) (commitQueue s)
    (currentComponent s) (currentIndex s) (afterPaintEffects s) (prevRaf s)
    (requestAnimationFrame s) x.

Module CompSet.
Import Comp.
Definition props (x : jsval) (c : t) : t :=
  mk (constructor c) x (state c) (_nextState c) (context c) (_globalContext c) (_vnode c)
    (_dirty c) (_force c) (_renderCallbacks c) (_pendingError c) (_processingException c)
    (_parentDom c) (base c) (__hooks c).
Definition state (x : jsval) (c : t) : t :=
  mk (constructor c) (Comp.props c) x (_nextState c) (context c) (_globalContext c) (_vnode c)
    (_dirty c) (_force c) (_renderCallbacks c) (_pendingError c) (_processingException c)
    (_parentDom c) (base c) (__hooks c).
Definition _nextState (x : jsval) (c : t) : t :=
  mk (constructor c) (Comp.props c) (Comp.state c) x (context c) (_globalContext c) (_vnode c)
    (_dirty c) (_force c) (_renderCallbacks c) (_pendingError c) (_processingException c)
    (_parentDom c) (base c) (__hooks c).
Definition context (x : jsval) (c : t) : t :=
  mk (constructor c) (Comp.props c) (Comp.state c) (Comp._nextState c) x (_globalContext c)
    (_vnode c) (_dirty c) (_force c) (_renderCallbacks c) (_pendingError c)
    (_processingException c) (_parentDom c) (base c) (__hooks c).
Definition _globalContext (x : jsval) (c : t) : t :=
  mk (constructor c) (Comp.props c) (Comp.state c) (Comp._nextState c) (Comp.context c) x
    (_vnode c) (_dirty c) (_force c) (_renderCallbacks c) (_pendingError c)
    (_processingException c) (_parentDom c) (base c) (__hooks c).
Definition _vnode (x : option vid) (c : t) : t :=
  mk (constructor c) (Comp.props c) (Comp.state c) (Comp._nextState c) (Comp.context c)
    (Comp._globalContext c) x (_dirty c) (_force c) (_renderCallbacks c) (_pendingError c)
    (_processingException c) (_parentDom c) (base c) (__hooks c).
Definition _dirty (x : bool) (c : t) : t :=
  mk (constructor c) (Comp.props c) (Comp.state c) (Comp._nextState c) (Comp.context c)
    (Comp._globalContext c) (Comp._vnode c) x (_force c) (_renderCallbacks c) (_pendingError c)
    (_processingException c) (_parentDom c) (base c) (__hooks c).
Definition _force (x : bool) (c : t) : t :=
  mk (constructor c) (Comp.props c) (Comp.state c) (Comp._nextState c) (Comp.context c)
    (Comp._globalContext c) (Comp._vnode c) (Comp._dirty c) x (_renderCallbacks c)
    (_pendingError c) (_processingException c) (_parentDom c) (base c) (__hooks c).
Definition _renderCallbacks (x : list callback) (c : t) : t :=
  mk (constructor c) (Comp.props c) (Comp.state c) (Comp._nextState c) (Comp.context c)
    (Comp._globalContext c) (Comp._vnode c) (Comp._dirty c) (Comp._force c) x
    (_pendingError c) (_processingException c) (_parentDom c) (base c) (__hooks c).
Definition _pendingError (x : option cid) (c : t) : t :=
  mk (constructor c) (Comp.props c) (Comp.state c) (Comp._nextState c) (Comp.context c)
    (Comp._globalContext c) (Comp._vnode c) (Comp._dirty c) (Comp._force c)
    (Comp._renderCallbacks c) x (_processingException c) (_parentDom c) (base c) (__hooks c).
Definition _processingException (x : option cid) (c : t) : t :=
  mk (constructor c) (Comp.props c) (Comp.state c) (Comp._nextState c) (Comp.context c)
    (Comp._globalContext c) (Comp._vnode c) (Comp._dirty c) (Comp._force c)
    (Comp._renderCallbacks c) (Comp._pendingError c) x (_parentDom c) (base c) (__hooks c).
Definition _parentDom (x : option did) (c : t) : t :=
  mk (constructor c) (Comp.props c) (Comp.state c) (Comp._nextState c) (Comp.context c)
    (Comp._globalContext c) (Comp._vnode c) (Comp._dirty c) (Comp._force c)
    (Comp._renderCallbacks c) (Comp._pendingError c) (Comp._processingException c) x (base c)
    (__hooks c).
Definition base (x : domv) (c : t) : t :=
  mk (constructor c) (Comp.props c) (Comp.state c) (Comp._nextState c) (Comp.context c)
    (Comp._globalContext c) (Comp._vnode c) (Comp._dirty c) (Comp._force c)
    (Comp._renderCallbacks c) (Comp._pendingError c) (Comp._processingException c)
    (Comp._parentDom c) x (__hooks c).
Definition __hooks (x : option hooks) (c : t) : t :=
  mk (constructor c) (Comp.props c) (Comp.state c) (Comp._nextState c) (Comp.context c)
    (Comp._globalContext c) (Comp._vnode c) (Comp._dirty c) (Comp._force c)
    (Comp._renderCallbacks c) (Comp._pendingError c) (Comp._processingException c)
    (Comp._parentDom c) (Comp.base c) x.
Definition constructor (x : fid) (c : t) : t :=
  mk x (Comp.props c) (Comp.state c) (Comp._nextState c) (Comp.context c)
    (Comp._globalContext c) (Comp._vnode c) (Comp._dirty c) (Comp._force c)
    (Comp._renderCallbacks c) (Comp._pendingError c) (Comp._processingException c)
    (Comp._parentDom c) (Comp.base c) (Comp.__hooks c).
End CompSet.

Module VNodeSet.
Import VNode.
Definition _children (x : jsval) (v : t) : t :=
  mk (type v) (props v) (key v) (ref v) x (_parent v) (_depth v) (_dom v) (_nextDom v)
    (_component v) (constructor v) (_original v).
Definition _parent (x : option vid) (v : t) : t :=
  mk (type v) (props v) (key v) (ref v) (VNode._children v) x (_depth v) (_dom v) (_nextDom v)
    (_component v) (constructor v) (_original v).
Definition _depth (x : nat) (v : t) : t :=
  mk (type v) (props v) (key v) (ref v) (VNode._children v) (VNode._parent v) x (_dom v)
    (_nextDom v) (_component v) (constructor v) (_original v).
Definition _dom (x : domv) (v : t) : t :=
  mk (type v) (props v) (key v) (ref v) (VNode._children v) (VNode._parent v) (VNode._depth v)
    x (_nextDom v) (_component v) (constructor v) (_original v).
Definition _nextDom (x : domv) (v : t) : t :=
  mk (type v) (props v) (key v) (ref v) (VNode._children v) (VNode._parent v) (VNode._depth v)
    (VNode._dom v) x (_component v) (constructor v) (_original v).
Definition _component (x : option cid) (v : t) : t :=
  mk (type v) (props v) (key v) (ref v) (VNode._children v) (VNode._parent v) (VNode._depth v)
    (VNode._dom v) (VNode._nextDom v) x (constructor v) (_original v).
Definition _original (x : jsval) (v : t) : t :=
  mk (type v) (props v) (key v) (ref v) (VNode._children v) (VNode._parent v) (VNode._depth v)
    (VNode._dom v) (VNode._nextDom v) (VNode._component v) (constructor v) x.
End VNodeSet.

(** *** Heap access.  A reference held by the engine always addresses an
    allocated object; the default only makes the readers total. *)

Definition get_comp (s : store) (c : cid) : Comp.t := default blank_comp (components s !! c).
Definition get_vnode (s : store) (v : vid) : VNode.t := default blank_vnode (vnodes s !! v).
Definition get_object (s : store) (o : oid) : gmap string jsval := default ∅ (objects s !! o).
Definition get_array (s : store) (a : aid) : list jsval := default [] (arrays s !! a).

Definition upd_comp (c : cid) (f : Comp.t -> Comp.t) (s : store) : store :=
  set_components (alter f c (components s)) s.
Definition upd_vnode (v : vid) (f : VNode.t -> VNode.t) (s : store) : store :=
  set_vnodes (alter f v (vnodes s)) s.
Definition upd_object (o : oid) (f : gmap string jsval -> gmap string jsval) (s : store) : store :=
  set_objects (alter f o (objects s)) s.
Definition upd_array (a : aid) (f : list jsval -> list jsval) (s : store) : store :=
  set_arrays (alter f a (arrays s)) s.

Definition is_Some_b {A} (x : option A) : bool :=
  match x with
  | Some _ => true
  | None => false
  end.

(** Allocation: a new object gets the next free reference. *)
Definition alloc_object (m : gmap string jsval) (s : store) : oid * store :=
  (length (objects s), set_objects (objects s ++ [m]) s).
Definition alloc_vnode (v : VNode.t) (s : store) : vid * store :=
  (length (vnodes s), set_vnodes (vnodes s ++ [v]) s).
Definition alloc_comp (c : Comp.t) (s : store) : cid * store :=
  (length (components s), set_components (components s ++ [c]) s).
Definition alloc_array (l : list jsval) (s : store) : aid * store :=
  (length (arrays s), set_arrays (arrays s ++ [l]) s).
Definition alloc_snapshot (x : jsval) (s : store) : nat * store :=
  (length (snapshots s), set_snapshots (snapshots s ++ [x]) s).

(** ** Computations over the store *)

(** Code that issues no engine event: user code and the store-level part of
    the engine. *)
Definition U (A : Type) : Type := store -> res A * store.

Definition uret {A} (a : A) : U A := fun s => (Ret a, s).
Definition ubind {A B} (m : U A) (k : A -> U B) : U B := fun s =>
  match m s with
  | (Ret a, s') => k a s'
  | (Throw e, s') => (Throw e, s')
  | (Diverge, s') => (Diverge, s')
  end.
Definition uthrow {A} (e : jsval) : U A := fun s => (Throw e, s).
Definition uget : U store := fun s => (Ret s, s).
Definition umodify (f : store -> store) : U unit := fun s => (Ret tt, f s).
Definition ualloc {A} (f : store -> A * store) : U A := fun s =>
  let '(a, s') := f s in (Ret a, s').

Declare Scope u_scope.
Delimit Scope u_scope with U.
Notation "x <- m ;; k" := (ubind m (fun x => k))
  (at level 100, m at next level, right associativity) : u_scope.
Notation "m ;; k" := (ubind m (fun _ => k))
  (at level 100, right associativity) : u_scope.
Notation "'when' b 'then' m" := (if b then m else uret tt)
  (at level 100, b at next level, m at next level) : u_scope.

(** Code of the engine that calls into user code or into the host: it also
    yields the events it issued, in order. *)
Definition M (E A : Type) : Type := store -> res A * store * list E.

Definition mret {E A} (a : A) : M E A := fun s => (Ret a, s, []).
Definition mbind {E A B} (m : M E A) (k : A -> M E B) : M E B := fun s =>
  match m s with
  | (Ret a, s', ev) => let '(r, s'', ev') := k a s' in (r, s'', ev ++ ev')
  | (Throw e, s', ev) => (Throw e, s', ev)
  | (Diverge, s', ev) => (Diverge, s', ev)
  end.
Definition mthrow {E A} (e : jsval) : M E A := fun s => (Throw e, s, []).
Definition mdiverge {E A} : M E A := fun s => (Diverge, s, []).
Definition emit {E} (e : E) : M E unit := fun s => (Ret tt, s, [e]).
Definition lift {E A} (m : U A) : M E A := fun s => let '(r, s') := m s in (r, s', []).
Definition mget {E} : M E store := fun s => (Ret s, s, []).
Definition mmodify {E} (f : store -> store) : M E unit := fun s => (Ret tt, f s, []).

(** [try { m } catch (e) { h e }] *)
Definition try_catch {E A} (m : M E A) (h : jsval -> M E A) : M E A := fun s =>
  match m s with
  | (Throw e, s', ev) => let '(r, s'', ev') := h e s' in (r, s'', ev ++ ev')
  | other => other
  end.

(** Runs [m] as one step of an enclosing computation: the events of [m]
    become the payload of a single event of the caller. *)
Definition nest {E F A} (wrap : list E -> F) (m : M E A) : M F A := fun s =>
  let '(r, s', ev) := m s in (r, s', [wrap ev]).

Declare Scope m_scope.
Delimit Scope m_scope with M.
Notation "x <- m ;; k" := (mbind m (fun x => k))
  (at level 100, m at next level, right associativity) : m_scope.
Notation "m ;; k" := (mbind m (fun _ => k))
  (at level 100, right associativity) : m_scope.
Notation "'when' b 'then' m" := (if b then m else mret tt)
  (at level 100, b at next level, m at next level) : m_scope.

(** ** User code *)

(** What a component type declares.  Static members are read off the type
    ([newType.getDerivedStateFromProps]), instance members off the instance
    ([c.componentDidCatch]). *)
Record class_decl := mk_class {
  has_render : bool;            (* 'prototype' in newType && newType.prototype.render *)
  contextType : option (string * jsval);     (* its [_id] and [_defaultValue] *)
  getDerivedStateFromProps : option fid;
  getDerivedStateFromError : option fid;
  componentWillMount : option fid;
  componentDidMount : option fid;
  componentWillReceiveProps : option fid;
  shouldComponentUpdate : option fid;
  componentWillUpdate : option fid;
  componentDidUpdate : option fid;
  getSnapshotBeforeUpdate : option fid;
  getChildContext : option fid;
  componentDidCatch : option fid;
  componentWillUnmount : option fid;
  render : option fid;           (* None: the inherited [Component.prototype.render] *)
  sub : option fid               (* the [sub] method of a context provider *)
}.

(** The methods the engine invokes on an instance. *)
Inductive method :=
| Mconstructor
| Msub
| MgetDerivedStateFromProps
| MgetDerivedStateFromError
| McomponentWillMount
| McomponentDidMount
| McomponentWillReceiveProps
| MshouldComponentUpdate
| McomponentWillUpdate
| McomponentDidUpdate
| MgetSnapshotBeforeUpdate
| MgetChildContext
| McomponentDidCatch
| McomponentWillUnmount
| Mrender
| Mcallback.

#[global] Instance method_eq_dec : EqDecision method.
Proof. solve_decision. Defined.

(** A call of the host-tree adapter. *)
Record domop := mk_domop {
  op_name : string;
  op_node : did;
  op_args : list jsval
}.

(** What the engine did, as seen from outside. *)
Inductive event :=
| EvCall (c : cid) (m : method) (args : list jsval)
| EvCleanup (c : cid) (cell : nat)
| EvEffect (c : cid) (cell : nat)
| EvDiffChildren (newParentVNode : vid) (oldParentVNode : option vid) (ops : list domop)
| EvDiffElementNodes (newVNode : vid) (oldVNode : option vid) (ops : list domop).

(** [Fragment]: the function [props => props.children]. *)
Definition Fragment : fid := 0.

Section Engine.

(** The component types of the application, and the behaviour of its
    functions: [call f this args] runs the function [f]. *)
Variable classes : fid -> class_decl.
Variable call : fid -> jsval -> list jsval -> U jsval.

Definition class_of (s : store) (c : cid) : class_decl :=
  classes (Comp.constructor (get_comp s c)).

(** The enumerable own properties a [for (i in props)] loop visits.  The
    engine only enumerates plain objects (state, props, context); for
    [undefined], [null], numbers and booleans the loop body never runs. *)
Definition own_props (s : store) (props : jsval) : gmap string jsval :=
  match props with
  | VObj o => get_object s o
  | _ => ∅
  end.

(** [assign(obj, props)]: [for (let i in props) obj[i] = props[i]; return obj].
    The bundle runs in strict mode, so storing a property on a primitive
    throws like storing one on [undefined] or [null]. *)
Definition assign (obj props : jsval) : U jsval := fun s =>
  let p := own_props s props in
  if bool_decide (map_to_list p = []) then (Ret obj, s)
  else match obj with
       | VObj t => (Ret obj, upd_object t (fun m => p ∪ m) s)
       | VUndef | VNull | VBool _ | VNum _ | VNaN | VStr _ => (Throw TypeError, s)
       | _ => (Ret obj, s)
       end.

(** *** The scheduler (lines 329-373) *)

(** [(prevDebounce || defer)(process)]: the flush is handed to the batching
    strategy; [None] is the default [defer] (a resolved promise's [then], or
    [setTimeout]), which never runs its callback before the current call
    stack has unwound. *)
Definition schedule_flush (s : store) : store :=
  let s1 := set_prevDebounce (debounceRendering s) s in
  set_scheduled (scheduled s1 ++ [prevDebounce s1]) s1.

Definition enqueueRender (c : cid) : U unit := fun s =>
  (* !c._dirty && (c._dirty = true) && rerenderQueue.push(c) && !rerenderCount++ *)
  let '(first, s1) :=
    if Comp._dirty (get_comp s c) then (false, s)
    else
      let s' := upd_comp c (CompSet._dirty true) s in
      let s' := set_rerenderQueue (rerenderQueue s' ++ [c]) s' in
      (Nat.eqb (rerenderCount s') 0, set_rerenderCount (S (rerenderCount s')) s') in
  if first || negb (bool_decide (prevDebounce s1 = debounceRendering s1))
  then (Ret tt, schedule_flush s1)
  else (Ret tt, s1).

(** *** [Component.prototype.setState] and [forceUpdate] (lines 193-233) *)

Definition push_callback (c : cid) (callback : option fid) : U unit :=
  match callback with
  | Some cb =>
      umodify (fun s =>
        upd_comp c (CompSet._renderCallbacks (Comp._renderCallbacks (get_comp s c) ++ [CbFn cb])) s)
  | None => uret tt
  end.

Definition setState (c : cid) (update : jsval) (callback : option fid) : U unit :=
  (s0 <- uget ;;
   (* only clone state when copying to nextState the first time *)
   s <- (if strict_neq (Comp._nextState (get_comp s0 c)) (Comp.state (get_comp s0 c))
         then uret (Comp._nextState (get_comp s0 c))
         else (o <- ualloc (alloc_object ∅) ;;
               _ <- assign (VObj o) (Comp.state (get_comp s0 c)) ;;
               umodify (upd_comp c (CompSet._nextState (VObj o))) ;;
               uret (VObj o))) ;;
   update <- (match update with
              | VFun f => (s1 <- uget ;; call f VUndef [s; Comp.props (get_comp s1 c)])
              | _ => uret update
              end) ;;
   (if truthy update then (_ <- assign s update ;; uret tt) else uret tt) ;;
   (* Skip update if updater function returned null *)
   if is_nullish update then uret tt
   else
     (s2 <- uget ;;
      match Comp._vnode (get_comp s2 c) with
      | Some _ => (push_callback c callback ;; enqueueRender c)
      | None => uret tt
      end))%U.

Definition forceUpdate (c : cid) (callback : option fid) : U unit :=
  (s0 <- uget ;;
   match Comp._vnode (get_comp s0 c) with
   | Some _ =>
       (umodify (upd_comp c (CompSet._force true)) ;;
        push_callback c callback ;;
        enqueueRender c)
   | None => uret tt
   end)%U.

(** *** State cells of the hooks runtime (lines 1364-1428) *)

Definition get_cell (s : store) (c : cid) (i : nat) : Hook.t :=
  match Comp.__hooks (get_comp s c) with
  | Some h => default blank_cell (_list h !! i)
  | None => blank_cell
  end.

Definition upd_cell (c : cid) (i : nat) (f : Hook.t -> Hook.t) (s : store) : store :=
  upd_comp c (fun comp =>
    match Comp.__hooks comp with
    | Some h => CompSet.__hooks (Some (mk_hooks (alter f i (_list h)) (_pendingEffects h))) comp
    | None => comp
    end) s.

(** [invokeOrReturn(arg, f)] *)
Definition invokeOrReturn (arg f : jsval) : U jsval :=
  match f with
  | VFun g => call g VUndef [arg]
  | _ => uret f
  end.

Definition apply_reducer (r : reducer) (value action : jsval) : U jsval :=
  match r with
  | RInvokeOrReturn => invokeOrReturn value action
  | RUser f => call f VUndef [value; action]
  end.

(** [getHookState(index, type)].  [options._hook] is never assigned in this
    program.  The cell is returned by its position in the list of
    [currentComponent]. *)
Definition getHookState (index : nat) : U (cid * nat) := fun s =>
  match currentComponent s with
  | None => (Throw TypeError, s)
  | Some c =>
      let h := default (mk_hooks [] []) (Comp.__hooks (get_comp s c)) in
      let h := if Nat.leb (length (_list h)) index
               then mk_hooks (_list h ++ [blank_cell]) (_pendingEffects h) else h in
      (Ret (c, index), upd_comp c (CompSet.__hooks (Some h)) s)
  end.

(** The setter stored in [hookState._value[1]] (lines 1417-1423), for the
    cell at position [i] of component [c]. *)
Definition dispatch (c : cid) (i : nat) (action : jsval) : U unit :=
  (s0 <- uget ;;
   match Hook._value (get_cell s0 c i) with
   | Hook.State value r =>
       nextValue <- apply_reducer r value action ;;
       s1 <- uget ;;
       match Hook._value (get_cell s1 c i), Hook._component (get_cell s1 c i) with
       | Hook.State current r', Some owner =>
           if strict_neq current nextValue then
             (umodify (upd_cell c i (fun cell =>
                 Hook.mk (Hook._component cell) (Hook.State nextValue r') (Hook._args cell)
                   (Hook._factory cell) (Hook._cleanup cell))) ;;
              o <- ualloc (alloc_object ∅) ;;
              setState owner (VObj o) None)
           else uret tt
       | _, _ => uthrow TypeError
       end
   | _ => uthrow TypeError
   end)%U.

(** [useReducer(reducer, initialState, init)]; the result is
    [hookState._value], with the address of the cell: for a state cell, the
    array of its value and its setter.  The cell is marked with its
    component before the initial value is computed. *)
Definition useReducer (r : reducer) (initialState : jsval) (init : option fid)
  : U (Hook.value * (cid * nat)) :=
  (s0 <- uget ;;
   umodify (set_currentIndex (S (currentIndex s0))) ;;
   hookState <- getHookState (currentIndex s0) ;;
   let c := fst hookState in
   let i := snd hookState in
   s1 <- uget ;;
   match Comp.__hooks (get_comp s1 c) with
   | Some h =>
       (* hooks._list[index] is undefined beyond the end of the list *)
       if Nat.ltb i (length (_list h)) then
         ((match Hook._component (get_cell s1 c i) with
           | None =>
               (umodify (upd_cell c i (fun cell =>
                  Hook.mk (currentComponent s1) (Hook._value cell) (Hook._args cell)
                    (Hook._factory cell) (Hook._cleanup cell))) ;;
                v <- (match init with
                      | None => invokeOrReturn VUndef initialState
                      | Some f => call f VUndef [initialState]
                      end) ;;
                umodify (upd_cell c i (fun cell =>
                  Hook.mk (Hook._component cell) (Hook.State v r) (Hook._args cell)
                    (Hook._factory cell) (Hook._cleanup cell))))
           | Some _ => uret tt
           end) ;;
          s2 <- uget ;;
          uret (Hook._value (get_cell s2 c i), (c, i)))
       else uthrow TypeError
   | None => uthrow TypeError
   end)%U.

Definition useState (initialState : jsval) : U (Hook.value * (cid * nat)) :=
  useReducer RInvokeOrReturn initialState None.

(** *** Error recovery: [_catchError] (lines 38-69) *)

(** The engine invokes method [m] of instance [c], held by function [f]. *)
Definition ecall (c : cid) (m : method) (f : fid) (this : jsval) (args : list jsval)
  : M event jsval :=
  (emit (EvCall c m args) ;; lift (call f this args))%M.

(** How one iteration of the loop ends: by [return], or by going on to the
    next parent with the current values of [error] and [hasCaught]. *)
Inductive walk_step :=
| Handled
| Continue (error : jsval) (hasCaught : bool).

(** The [try { ... } catch (e) { error = e; }] of lines 44-64 for the
    instance [c].  [hasCaught] is assigned [true] before each handler is
    called, so it is [true] whenever the [catch] clause runs. *)
Definition try_boundary (c : cid) (error : jsval) (hasCaught : bool) : M event walk_step :=
  try_catch
    (s0 <- mget ;;
     hasCaught <- match getDerivedStateFromError (class_of s0 c) with
                  | Some f =>
                      (st <- ecall c MgetDerivedStateFromError f
                              (VFun (Comp.constructor (get_comp s0 c))) [error] ;;
                       lift (setState c st None) ;;
                       mret true)
                  | None => mret hasCaught
                  end ;;
     s1 <- mget ;;
     hasCaught <- match componentDidCatch (class_of s1 c) with
                  | Some f => (ecall c McomponentDidCatch f (VComp c) [error] ;; mret true)
                  | None => mret hasCaught
                  end ;;
     if (hasCaught : bool) then
       (mmodify (upd_comp c (CompSet._pendingError (Some c))) ;;
        lift (enqueueRender c) ;;
        mret Handled)
     else mret (Continue error hasCaught))%M
    (fun e => mret (Continue e true)).

(** [for (; (vnode = vnode._parent); ) { ... } throw error;] *)
Fixpoint catch_loop (fuel : nat) (error : jsval) (vnode : vid) (hasCaught : bool)
  : M event unit :=
  match fuel with
  | 0 => mdiverge
  | S fuel' =>
      (s <- mget ;;
       match VNode._parent (get_vnode s vnode) with
       | None => mthrow error
       | Some parent =>
           match VNode._component (get_vnode s parent) with
           | Some component =>
               if is_Some_b (Comp._processingException (get_comp s component))
               then catch_loop fuel' error parent hasCaught
               else
                 (step <- try_boundary component error hasCaught ;;
                  match step with
                  | Handled => mret tt
                  | Continue error' hasCaught' => catch_loop fuel' error' parent hasCaught'
                  end)
           | None => catch_loop fuel' error parent hasCaught
           end
       end)%M
  end.

(** [_catchError(error, vnode)]; [fuel] bounds the length of the parent
    chain that is walked. *)
Definition _catchError (fuel : nat) (error : jsval) (vnode : vid) : M event unit :=
  catch_loop fuel error vnode false.

(** [options._catchError(e, c._vnode)]: reading [_parent] of a missing vnode
    throws. *)
Definition catchError_at (fuel : nat) (e : jsval) (c : cid) : M event unit :=
  (s <- mget ;;
   match Comp._vnode (get_comp s c) with
   | Some v => _catchError fuel e v
   | None => mthrow TypeError
   end)%M.

(** *** The hooks runtime's [options] callbacks (lines 1302-1362, 1506-1527) *)

(** [invokeCleanup(hook)] for cell [i] of [c]. *)
Definition invokeCleanup (c : cid) (i : nat) : M event unit :=
  (s <- mget ;;
   match Hook._cleanup (get_cell s c i) with
   | Some f => (emit (EvCleanup c i) ;; lift (call f VUndef []) ;; mret tt)
   | None => mret tt
   end)%M.

(** [invokeEffect(hook)] *)
Definition invokeEffect (c : cid) (i : nat) : M event unit :=
  (s <- mget ;;
   match Hook._value (get_cell s c i) with
   | Hook.Effect f =>
       (emit (EvEffect c i) ;;
        result <- lift (call f VUndef []) ;;
        match result with
        | VFun g =>
            mmodify (upd_cell c i (fun cell =>
              Hook.mk (Hook._component cell) (Hook._value cell) (Hook._args cell)
                (Hook._factory cell) (Some g)))
        | _ => mret tt
        end)
   | _ => mthrow TypeError
   end)%M.

(** [cells.forEach(f)] *)
Fixpoint for_each {E} (cells : list nat) (f : nat -> M E unit) : M E unit :=
  match cells with
  | [] => mret tt
  | i :: rest => (f i ;; for_each rest f)%M
  end.

Definition flush_pending (c : cid) : M event unit :=
  (s <- mget ;;
   match Comp.__hooks (get_comp s c) with
   | Some h =>
       (for_each (_pendingEffects h) (invokeCleanup c) ;;
        for_each (_pendingEffects h) (invokeEffect c) ;;
        mmodify (upd_comp c (fun comp =>
          match Comp.__hooks comp with
          | Some h' => CompSet.__hooks (Some (mk_hooks (_list h') [])) comp
          | None => comp
          end)))
   | None => mret tt
   end)%M.

(** [options._render] *)
Definition options__render (vnode : vid) : M event unit :=
  (s <- mget ;;
   mmodify (set_currentComponent (VNode._component (get_vnode s vnode))) ;;
   mmodify (set_currentIndex 0) ;;
   match VNode._component (get_vnode s vnode) with
   | Some c => flush_pending c
   | None => mthrow TypeError
   end)%M.

(** [afterPaint(newQueueLength)] *)
Definition afterPaint (newQueueLength : nat) : U unit := fun s =>
  if Nat.eqb newQueueLength 1 || negb (bool_decide (prevRaf s = requestAnimationFrame s))
  then
    let s1 := set_prevRaf (requestAnimationFrame s) s in
    (Ret tt, set_paintScheduled (paintScheduled s1 ++ [prevRaf s1]) s1)
  else (Ret tt, s).

(** [options.diffed] *)
Definition options_diffed (vnode : vid) : U unit := fun s =>
  match VNode._component (get_vnode s vnode) with
  | None => (Ret tt, s)
  | Some c =>
      match Comp.__hooks (get_comp s c) with
      | Some h =>
          if Nat.eqb (length (_pendingEffects h)) 0 then (Ret tt, s)
          else
            let s1 := set_afterPaintEffects (afterPaintEffects s ++ [c]) s in
            afterPaint (length (afterPaintEffects s1)) s1
      | None => (Ret tt, s)
      end
  end.

(** [hooks._list.forEach(hook => hook._cleanup && hook._cleanup())]: the
    cells at positions [i], [i+1], ... [i+n-1], each read when its turn
    comes. *)
Fixpoint cleanup_cells (c : cid) (i n : nat) : M event unit :=
  match n with
  | 0 => mret tt
  | S n' => (invokeCleanup c i ;; cleanup_cells c (S i) n')%M
  end.

(** [options.unmount] *)
Definition options_unmount (fuel : nat) (vnode : vid) : M event unit :=
  (s <- mget ;;
   match VNode._component (get_vnode s vnode) with
   | None => mret tt
   | Some c =>
       match Comp.__hooks (get_comp s c) with
       | Some h =>
           try_catch (cleanup_cells c 0 (length (_list h)))
                     (fun e => catchError_at fuel e c)
       | None => mret tt
       end
   end)%M.

(** *** [diff] (lines 836-1050) *)

(** The reference-node argument [oldDom]: the sentinel [EMPTY_OBJ], or a
    host node slot. *)
Inductive olddom :=
| OldEmptyObj
| OldDom (d : domv).

(** [diffChildren] and [diffElementNodes] recurse into [diff] and drive the
    host-tree adapter; [diff] itself only sees their effect on the store
    and the adapter calls they issue. *)
Variable diffChildren :
  did -> vid -> option vid -> jsval -> bool -> option aid -> olddom -> bool ->
  store -> res unit * store * list domop.
Variable diffElementNodes :
  domv -> vid -> option vid -> jsval -> bool -> option aid -> bool ->
  store -> res domv * store * list domop.
(** [parentDom.ownerSVGElement !== undefined], a property of the host node. *)
Variable ownerSVGElement_defined : did -> bool.

(** The old vnode, or [EMPTY_OBJ], all of whose fields read [undefined]. *)
Definition old_vnode (s : store) (oldVNode : option vid) : VNode.t :=
  match oldVNode with
  | Some o => get_vnode s o
  | None => blank_vnode
  end.

(** [x == y] for operands that are object references, [null] or
    [undefined] (the only operands the engine compares loosely here). *)
Definition loose_eq (x y : jsval) : bool :=
  (is_nullish x && is_nullish y) || strict_eq x y.

Definition dom_is_null (d : domv) : bool :=
  match d with
  | DNode _ => false
  | _ => true
  end.

(** [a != b] on host node slots *)
Definition dom_loose_neq (a b : domv) : bool :=
  match a, b with
  | DNode x, DNode y => negb (Nat.eqb x y)
  | DNode _, _ | _, DNode _ => true
  | _, _ => false
  end.

(** [x[k]] *)
Definition get_member (x : jsval) (k : string) : U jsval := fun s =>
  match x with
  | VObj o => (Ret (default VUndef (get_object s o !! k)), s)
  | VComp c => (Ret (if String.eqb k "props" then Comp.props (get_comp s c) else VUndef), s)
  | VUndef | VNull => (Throw TypeError, s)
  | _ => (Ret VUndef, s)
  end.

(** Lines 863-869: the provider found for [newType.contextType], and the
    context handed to the component. *)
Definition component_context (newType : fid) (globalContext : jsval) : U (jsval * jsval) :=
  match contextType (classes newType) with
  | None => uret (VUndef, globalContext)
  | Some (id, defaultValue) =>
      (provider <- get_member globalContext id ;;
       if truthy provider then
         (p <- get_member provider "props" ;;
          v <- get_member p "value" ;;
          uret (provider, v))
       else uret (provider, defaultValue))%U
  end.

(** Lines 876-891: a new instance. *)
Definition instantiate (newVNode : vid) (newType : fid)
    (newProps componentContext globalContext provider : jsval) : M event cid :=
  (c <- lift (ualloc (alloc_comp
         (CompSet.context componentContext
            (CompSet.props newProps (CompSet.constructor newType blank_comp))))) ;;
   (if has_render (classes newType)
    then (ecall c Mconstructor newType (VComp c) [newProps; componentContext] ;; mret tt)
    else mret tt) ;;
   mmodify (upd_vnode newVNode (VNodeSet._component (Some c))) ;;
   (if truthy provider then
      match provider with
      | VComp p =>
          s <- mget ;;
          match sub (class_of s p) with
          | Some f => (ecall p Msub f provider [VComp c] ;; mret tt)
          | None => mthrow TypeError
          end
      | _ => mthrow TypeError
      end
    else mret tt) ;;
   mmodify (upd_comp c (CompSet.props newProps)) ;;
   s <- mget ;;
   (if truthy (Comp.state (get_comp s c)) then mret tt
    else (o <- lift (ualloc (alloc_object ∅)) ;;
          mmodify (upd_comp c (CompSet.state (VObj o))))) ;;
   mmodify (upd_comp c (CompSet.context componentContext)) ;;
   mmodify (upd_comp c (CompSet._globalContext globalContext)) ;;
   mmodify (upd_comp c (CompSet._dirty true)) ;;
   mmodify (upd_comp c (CompSet._renderCallbacks [])) ;;
   mret c)%M.

(** Lines 894-907: [getDerivedStateFromProps]. *)
Definition derive_state (c : cid) (newType : fid) (newProps : jsval) : M event unit :=
  (s <- mget ;;
   (if is_nullish (Comp._nextState (get_comp s c))
    then mmodify (upd_comp c (CompSet._nextState (Comp.state (get_comp s c))))
    else mret tt) ;;
   match getDerivedStateFromProps (classes newType) with
   | Some f =>
       (s1 <- mget ;;
        (if loose_eq (Comp._nextState (get_comp s1 c)) (Comp.state (get_comp s1 c))
         then (o <- lift (ualloc (alloc_object ∅)) ;;
               lift (assign (VObj o) (Comp._nextState (get_comp s1 c))) ;;
               mmodify (upd_comp c (CompSet._nextState (VObj o))))
         else mret tt) ;;
        s2 <- mget ;;
        let target := Comp._nextState (get_comp s2 c) in
        derived <- ecall c MgetDerivedStateFromProps f (VFun newType) [newProps; target] ;;
        lift (assign target derived) ;;
        mret tt)
   | None => mret tt
   end)%M.

Definition push_render_callback (c : cid) (cb : callback) : store -> store := fun s =>
  upd_comp c (CompSet._renderCallbacks (Comp._renderCallbacks (get_comp s c) ++ [cb])) s.

(** [if (c._renderCallbacks.length) commitQueue.push(c)] *)
Definition push_commit (c : cid) : store -> store := fun s =>
  match Comp._renderCallbacks (get_comp s c) with
  | [] => s
  | _ => set_commitQueue (commitQueue s ++ [c]) s
  end.

(** Lines 933-942: the bail-out test.  [shouldComponentUpdate] is only
    consulted when no forced update was requested and it is declared; the
    identity test of line 941 is only reached when it did not veto. *)
Definition should_bail (c : cid) (newVNode : vid) (oldVNode : option vid)
    (newProps componentContext : jsval) : M event bool :=
  (s <- mget ;;
   vetoed <- (if Comp._force (get_comp s c) then mret false
              else match shouldComponentUpdate (class_of s c) with
                   | Some f =>
                       (r <- ecall c MshouldComponentUpdate f (VComp c)
                               [newProps; Comp._nextState (get_comp s c); componentContext] ;;
                        mret (strict_eq r (VBool false)))
                   | None => mret false
                   end) ;;
   if (vetoed : bool) then mret true
   else
     (s1 <- mget ;;
      mret (strict_eq (VNode._original (get_vnode s1 newVNode))
                      (VNode._original (old_vnode s1 oldVNode))
            && negb (is_Some_b (Comp._processingException (get_comp s1 c))))))%M.

(** Lines 954-958: the children of the reused array are re-parented. *)
Fixpoint reparent (newVNode : vid) (children : list jsval) : U unit :=
  match children with
  | [] => uret tt
  | child :: rest =>
      match child with
      | VVNode ch => (umodify (upd_vnode ch (VNodeSet._parent (Some newVNode))) ;;
                      reparent newVNode rest)%U
      | _ => if truthy child then
               match child with
               | VBool _ | VNum _ | VStr _ => uthrow TypeError
               | _ => reparent newVNode rest
               end
             else reparent newVNode rest
      end
  end.

(** Lines 943-960: the bail-out. *)
Definition bail_out (c : cid) (newVNode : vid) (oldVNode : option vid) (newProps : jsval)
  : M event unit :=
  (mmodify (upd_comp c (CompSet.props newProps)) ;;
   mmodify (fun s => upd_comp c (CompSet.state (Comp._nextState (get_comp s c))) s) ;;
   s <- mget ;;
   (if strict_neq (VNode._original (get_vnode s newVNode)) (VNode._original (old_vnode s oldVNode))
    then mmodify (upd_comp c (CompSet._dirty false))
    else mret tt) ;;
   mmodify (upd_comp c (CompSet._vnode (Some newVNode))) ;;
   mmodify (fun s => upd_vnode newVNode (VNodeSet._dom (VNode._dom (old_vnode s oldVNode))) s) ;;
   mmodify (fun s =>
     upd_vnode newVNode (VNodeSet._children (VNode._children (old_vnode s oldVNode))) s) ;;
   mmodify (push_commit c) ;;
   s1 <- mget ;;
   match VNode._children (get_vnode s1 newVNode) with
   | VArr a => lift (reparent newVNode (get_array s1 a))
   | VUndef | VNull => mthrow TypeError
   | _ => mret tt
   end)%M.

(** Lines 933-961: the test, and the bail-out when it holds. *)
Definition try_bail (c : cid) (newVNode : vid) (oldVNode : option vid)
    (newProps componentContext : jsval) : M event bool :=
  (bail <- should_bail c newVNode oldVNode newProps componentContext ;;
   (if (bail : bool) then bail_out c newVNode oldVNode newProps else mret tt) ;;
   mret bail)%M.

(** Lines 925-972: the pre-render lifecycle of an instance that exists.
    The result is [None] after a bail-out ([break outer]); otherwise it
    holds the variable [snapshot] of the [componentDidUpdate] closure, if
    one was pushed. *)
Definition update_existing (c : cid) (newVNode : vid) (oldVNode : option vid)
    (newProps oldProps oldState componentContext : jsval) (no_gdsfp : bool)
  : M event (option (option nat)) :=
  (s1 <- mget ;;
   (match componentWillReceiveProps (class_of s1 c) with
    | Some f => if no_gdsfp && strict_neq newProps oldProps
                then (ecall c McomponentWillReceiveProps f (VComp c)
                        [newProps; componentContext] ;; mret tt)
                else mret tt
    | None => mret tt
    end) ;;
   bail <- try_bail c newVNode oldVNode newProps componentContext ;;
   if (bail : bool) then mret None
   else
     (s2 <- mget ;;
      (match componentWillUpdate (class_of s2 c) with
       | Some f => (ecall c McomponentWillUpdate f (VComp c)
                      [newProps; Comp._nextState (get_comp s2 c); componentContext] ;;
                    mret tt)
       | None => mret tt
       end) ;;
      s3 <- mget ;;
      match componentDidUpdate (class_of s3 c) with
      | Some _ =>
          (snap <- lift (ualloc (alloc_snapshot VUndef)) ;;
           mmodify (push_render_callback c (CbDidUpdate oldProps oldState snap)) ;;
           mret (Some (Some snap)))
      | None => mret (Some None)
      end))%M.

(** Lines 913-923: the pre-render lifecycle of a new instance. *)
Definition mount_new (c : cid) (no_gdsfp : bool) : M event (option (option nat)) :=
  (s1 <- mget ;;
   (match componentWillMount (class_of s1 c) with
    | Some f => if no_gdsfp then (ecall c McomponentWillMount f (VComp c) [] ;; mret tt)
                else mret tt
    | None => mret tt
    end) ;;
   s2 <- mget ;;
   (match componentDidMount (class_of s2 c) with
    | Some f => mmodify (push_render_callback c (CbDidMount f))
    | None => mret tt
    end) ;;
   mret (Some None))%M.

(** [c.render(c.props, c.state, c.context)]: the class's [render] method,
    the inherited [Fragment], or [doRender] for a function component. *)
Definition call_render (c : cid) : M event jsval :=
  (s <- mget ;;
   let comp := get_comp s c in
   emit (EvCall c Mrender [Comp.props comp; Comp.state comp; Comp.context comp]) ;;
   if has_render (class_of s c) then
     match render (class_of s c) with
     | Some f => lift (call f (VComp c) [Comp.props comp; Comp.state comp; Comp.context comp])
     | None => lift (get_member (Comp.props comp) "children")
     end
   else lift (call (Comp.constructor comp) (VComp c) [Comp.props comp; Comp.context comp]))%M.

(** Lines 985-991: the child list made of what [render] returned. *)
Definition render_children (tmp : jsval) : U jsval :=
  (s <- uget ;;
   let isTopLevelFragment :=
     match tmp with
     | VVNode v => bool_decide (VNode.type (get_vnode s v) = TyFun Fragment)
                   && match VNode.key (get_vnode s v) with
                      | KUndef | KNull => true
                      | _ => false
                      end
     | _ => false
     end in
   if isTopLevelFragment then
     match tmp with
     | VVNode v => get_member (VNode.props (get_vnode s v)) "children"
     | _ => uret VUndef
     end
   else
     match tmp with
     | VArr _ => uret tmp
     | _ => (a <- ualloc (alloc_array [tmp]) ;; uret (VArr a))
     end)%U.

(** Runs one of the two functions that drive the host: its adapter calls
    become one event of [diff]. *)
Definition host {A} (wrap : list domop -> event) (m : store -> res A * store * list domop)
  : M event A := nest wrap m.

(** Lines 857-1023: [newType] is a component. *)
Definition diff_component (parentDom : did) (newVNode : vid) (oldVNode : option vid)
    (globalContext : jsval) (isSvg : bool) (excessDomChildren : option aid)
    (oldDom : olddom) (isHydrating : bool) (newType : fid) : M event unit :=
  (s0 <- mget ;;
   let newProps := VNode.props (get_vnode s0 newVNode) in
   ctx <- lift (component_context newType globalContext) ;;
   let provider := fst ctx in
   let componentContext := snd ctx in
   (* Get component and set it to c *)
   inst <- match VNode._component (old_vnode s0 oldVNode) with
           | Some c =>
               (mmodify (upd_vnode newVNode (VNodeSet._component (Some c))) ;;
                s <- mget ;;
                let pending := Comp._pendingError (get_comp s c) in
                mmodify (upd_comp c (CompSet._processingException pending)) ;;
                mret (c, false, is_Some_b pending))
           | None =>
               (c <- instantiate newVNode newType newProps componentContext globalContext provider ;;
                mret (c, true, false))
           end ;;
   let c := fst (fst inst) in
   let isNew := snd (fst inst) in
   let clearProcessingException := snd inst in
   derive_state c newType newProps ;;
   s1 <- mget ;;
   let oldProps := Comp.props (get_comp s1 c) in
   let oldState := Comp.state (get_comp s1 c) in
   let no_gdsfp := negb (is_Some_b (getDerivedStateFromProps (classes newType))) in
   (* Invoke pre-render lifecycle methods *)
   go <- (if isNew then mount_new c no_gdsfp
          else update_existing c newVNode oldVNode newProps oldProps oldState
                 componentContext no_gdsfp) ;;
   match go with
   | None => mret tt                                   (* break outer *)
   | Some snap =>
       (mmodify (upd_comp c (CompSet.context componentContext)) ;;
        mmodify (upd_comp c (CompSet.props newProps)) ;;
        mmodify (fun s => upd_comp c (CompSet.state (Comp._nextState (get_comp s c))) s) ;;
        options__render newVNode ;;
        mmodify (upd_comp c (CompSet._dirty false)) ;;
        mmodify (upd_comp c (CompSet._vnode (Some newVNode))) ;;
        mmodify (upd_comp c (CompSet._parentDom (Some parentDom))) ;;
        tmp <- call_render c ;;
        children <- lift (render_children tmp) ;;
        mmodify (upd_vnode newVNode (VNodeSet._children children)) ;;
        s4 <- mget ;;
        globalContext' <-
          match getChildContext (class_of s4 c) with
          | Some f =>
              (o <- lift (ualloc (alloc_object ∅)) ;;
               lift (assign (VObj o) globalContext) ;;
               childContext <- ecall c MgetChildContext f (VComp c) [] ;;
               lift (assign (VObj o) childContext))
          | None => mret globalContext
          end ;;
        s5 <- mget ;;
        (match getSnapshotBeforeUpdate (class_of s5 c) with
         | Some f =>
             if isNew then mret tt
             else (v <- ecall c MgetSnapshotBeforeUpdate f (VComp c) [oldProps; oldState] ;;
                   match snap with
                   | Some cell => mmodify (fun s => set_snapshots (<[cell := v]> (snapshots s)) s)
                   | None => mret tt
                   end)
         | None => mret tt
         end) ;;
        host (EvDiffChildren newVNode oldVNode)
          (diffChildren parentDom newVNode oldVNode globalContext' isSvg excessDomChildren
             oldDom isHydrating) ;;
        mmodify (fun s => upd_comp c (CompSet.base (VNode._dom (get_vnode s newVNode))) s) ;;
        mmodify (push_commit c) ;;
        (if clearProcessingException
         then (mmodify (upd_comp c (CompSet._pendingError None)) ;;
               mmodify (upd_comp c (CompSet._processingException None)))
         else mret tt) ;;
        mmodify (upd_comp c (CompSet._force false)))
   end)%M.

(** [diff(parentDom, newVNode, oldVNode, globalContext, isSvg,
    excessDomChildren, commitQueue, oldDom, isHydrating)].  [commitQueue] is
    the array of the store; [options._diff] is never assigned in this
    program; [fuel] bounds the parent chain walked by [_catchError]. *)
Definition diff (fuel : nat) (parentDom : did) (newVNode : vid) (oldVNode : option vid)
    (globalContext : jsval) (isSvg : bool) (excessDomChildren : option aid)
    (oldDom : olddom) (isHydrating : bool) : M event domv :=
  (s0 <- mget ;;
   let newType := VNode.type (get_vnode s0 newVNode) in
   (* When passing through createElement it assigns the object constructor
      as undefined. This to prevent JSON-injection. *)
   if strict_neq (VNode.constructor (get_vnode s0 newVNode)) VUndef then mret DNull
   else
     (try_catch
        ((match newType with
          | TyFun f =>
              diff_component parentDom newVNode oldVNode globalContext isSvg
                excessDomChildren oldDom isHydrating f
          | _ =>
              if negb (is_Some_b excessDomChildren)
                 && strict_eq (VNode._original (get_vnode s0 newVNode))
                              (VNode._original (old_vnode s0 oldVNode))
              then
                (mmodify (fun s =>
                   upd_vnode newVNode (VNodeSet._children (VNode._children (old_vnode s oldVNode))) s) ;;
                 mmodify (fun s =>
                   upd_vnode newVNode (VNodeSet._dom (VNode._dom (old_vnode s oldVNode))) s))
              else
                (dom <- host (EvDiffElementNodes newVNode oldVNode)
                          (diffElementNodes (VNode._dom (old_vnode s0 oldVNode)) newVNode oldVNode
                             globalContext isSvg excessDomChildren isHydrating) ;;
                 mmodify (upd_vnode newVNode (VNodeSet._dom dom)))
          end) ;;
         lift (options_diffed newVNode))
        (fun e =>
           (mmodify (upd_vnode newVNode (VNodeSet._original VNull)) ;;
            _catchError fuel e newVNode)) ;;
      s1 <- mget ;;
      mret (VNode._dom (get_vnode s1 newVNode))))%M.

(** *** [commitRoot] (lines 1057-1071) *)

(** [cb.call(c)] *)
Definition run_callback (c : cid) (cb : callback) : M event unit :=
  match cb with
  | CbDidMount f => (ecall c McomponentDidMount f (VComp c) [] ;; mret tt)%M
  | CbDidUpdate oldProps oldState snap =>
      (s <- mget ;;
       let snapshot := default VUndef (snapshots s !! snap) in
       match componentDidUpdate (class_of s c) with
       | Some f => (ecall c McomponentDidUpdate f (VComp c) [oldProps; oldState; snapshot] ;;
                    mret tt)
       | None => mthrow TypeError
       end)%M
  | CbFn f => (ecall c Mcallback f (VComp c) [] ;; mret tt)%M
  end.

Fixpoint run_callbacks (c : cid) (cbs : list callback) : M event unit :=
  match cbs with
  | [] => mret tt
  | cb :: rest => (run_callback c cb ;; run_callbacks c rest)%M
  end.

(** The callback of [commitQueue.some] at line 1060. *)
Definition commit_component (fuel : nat) (c : cid) : M event unit :=
  try_catch
    (s <- mget ;;
     mmodify (upd_comp c (CompSet._renderCallbacks [])) ;;
     run_callbacks c (Comp._renderCallbacks (get_comp s c)))%M
    (fun e => catchError_at fuel e c).

Fixpoint commit_each (fuel : nat) (q : list cid) : M event unit :=
  match q with
  | [] => mret tt
  | c :: rest => (commit_component fuel c ;; commit_each fuel rest)%M
  end.

(** [commitRoot(commitQueue, root)].  [options._commit] (lines 1329-1346)
    runs the cleanups and effects of hook cells found among the render
    callbacks; this program registers no such cell (it has no layout
    effects), every render callback is a plain function, and for those
    [options._commit] changes nothing. *)
Definition commitRoot (fuel : nat) (root : vid) : M event unit :=
  (s <- mget ;; commit_each fuel (commitQueue s))%M.

(** *** [getDomSibling] and [updateParentDomPointers] (lines 251-327) *)

(** [children.indexOf(vnode) + 1] *)
Fixpoint index_after (children : list jsval) (vnode : vid) (i : nat) : nat :=
  match children with
  | [] => 0
  | x :: rest => if bool_decide (x = VVNode vnode) then S i else index_after rest vnode (S i)
  end.

(** The first child with a host node, among [children]. *)
Fixpoint first_dom (s : store) (children : list jsval) : option domv :=
  match children with
  | [] => None
  | VVNode sibling :: rest =>
      if dom_is_null (VNode._dom (get_vnode s sibling)) then first_dom s rest
      else Some (VNode._dom (get_vnode s sibling))
  | _ :: rest => first_dom s rest
  end.

Definition children_array (s : store) (vnode : vid) : res (list jsval) :=
  match VNode._children (get_vnode s vnode) with
  | VArr a => Ret (get_array s a)
  | VUndef | VNull => Throw TypeError
  | _ => Ret []
  end.

Fixpoint getDomSibling (fuel : nat) (vnode : vid) (childIndex : option nat) : U domv :=
  match fuel with
  | 0 => fun s => (Diverge, s)
  | S fuel' => fun s =>
      match childIndex with
      | None =>
          match VNode._parent (get_vnode s vnode) with
          | Some parent =>
              match children_array s parent with
              | Ret children =>
                  getDomSibling fuel' parent (Some (index_after children vnode 0)) s
              | Throw e => (Throw e, s)
              | Diverge => (Diverge, s)
              end
          | None => (Ret DNull, s)
          end
      | Some i =>
          match children_array s vnode with
          | Ret children =>
              match first_dom s (drop i children) with
              | Some d => (Ret d, s)
              | None =>
                  match VNode.type (get_vnode s vnode) with
                  | TyFun _ => getDomSibling fuel' vnode None s
                  | _ => (Ret DNull, s)
                  end
              end
          | Throw e => (Throw e, s)
          | Diverge => (Diverge, s)
          end
      end
  end.

Fixpoint updateParentDomPointers (fuel : nat) (vnode : vid) : U unit :=
  match fuel with
  | 0 => fun s => (Diverge, s)
  | S fuel' => fun s =>
      match VNode._parent (get_vnode s vnode) with
      | Some parent =>
          match VNode._component (get_vnode s parent) with
          | Some c =>
              match children_array s parent with
              | Ret children =>
                  let d := default DNull (first_dom s children) in
                  let s1 := upd_comp c (CompSet.base d) (upd_vnode parent (VNodeSet._dom d) s) in
                  updateParentDomPointers fuel' parent s1
              | Throw e =>
                  (Throw e, upd_comp c (CompSet.base DNull) (upd_vnode parent (VNodeSet._dom DNull) s))
              | Diverge => (Diverge, s)
              end
          | None => (Ret tt, s)
          end
      | None => (Ret tt, s)
      end
  end.

(** *** [renderComponent] (lines 283-309) *)

Definition renderComponent (fuel : nat) (component : cid) : M event unit :=
  (s0 <- mget ;;
   match Comp._vnode (get_comp s0 component) with
   | None => mthrow TypeError
   | Some vnode =>
       let oldDom := VNode._dom (get_vnode s0 vnode) in
       match Comp._parentDom (get_comp s0 component) with
       | None => mret tt
       | Some parentDom =>
           (mmodify (set_commitQueue []) ;;
            (* const oldVNode = assign({}, vnode); oldVNode._original = oldVNode; *)
            oldVNode <- lift (ualloc (fun s =>
                          alloc_vnode (VNodeSet._original (VVNode (length (vnodes s)))
                                         (get_vnode s vnode)) s)) ;;
            sibling <- (if dom_is_null oldDom then lift (getDomSibling fuel vnode None)
                        else mret oldDom) ;;
            newDom <- diff fuel parentDom vnode (Some oldVNode)
                        (Comp._globalContext (get_comp s0 component))
                        (ownerSVGElement_defined parentDom) None (OldDom sibling) false ;;
            commitRoot fuel vnode ;;
            if dom_loose_neq newDom oldDom then lift (updateParentDomPointers fuel vnode)
            else mret tt)
       end
   end)%M.

(** *** [process] (lines 375-387) *)

Definition depth_of (s : store) (c : cid) : nat :=
  match Comp._vnode (get_comp s c) with
  | Some v => VNode._depth (get_vnode s v)
  | None => 0
  end.

(** [queue.sort((a, b) => a._vnode._depth - b._vnode._depth)]: a stable
    sort by ascending depth. *)
Fixpoint insert_by_depth (s : store) (c : cid) (sorted : list cid) : list cid :=
  match sorted with
  | [] => [c]
  | x :: rest =>
      if Nat.leb (depth_of s c) (depth_of s x) then c :: x :: rest
      else x :: insert_by_depth s c rest
  end.

Definition sort_by_depth (s : store) (queue : list cid) : list cid :=
  foldr (insert_by_depth s) [] queue.

(** The comparator reads [a._vnode._depth]; it is called as soon as the
    queue holds two entries. *)
Definition comparator_throws (s : store) (queue : list cid) : bool :=
  Nat.leb 2 (length queue)
  && negb (forallb (fun c => is_Some_b (Comp._vnode (get_comp s c))) queue).

(** [queue.some(c => { if (c._dirty) renderComponent(c); })]: what each
    call of [renderComponent] did is kept with the component it rendered. *)
Fixpoint render_queue (fuel : nat) (queue : list cid) : M (cid * list event) unit :=
  match queue with
  | [] => mret tt
  | c :: rest =>
      (s <- mget ;;
       (if Comp._dirty (get_comp s c)
        then nest (fun ev => (c, ev)) (renderComponent fuel c)
        else mret tt) ;;
       render_queue fuel rest)%M
  end.

(** One pass of the loop body: sort, reset the shared queue, render. *)
Definition process_pass (fuel : nat) : M (cid * list event) unit :=
  (s <- mget ;;
   if comparator_throws s (rerenderQueue s) then mthrow TypeError
   else
     (let queue := sort_by_depth s (rerenderQueue s) in
      mmodify (set_rerenderQueue []) ;;
      render_queue fuel queue))%M.

(** [while ((rerenderCount = rerenderQueue.length)) { ... }]; [passes]
    bounds the number of passes, [fuel] the parent chains walked while
    rendering. *)
Fixpoint process (fuel passes : nat) : M (cid * list event) unit :=
  (s <- mget ;;
   mmodify (set_rerenderCount (length (rerenderQueue s))) ;;
   match rerenderQueue s with
   | [] => mret tt
   | _ :: _ =>
       match passes with
       | 0 => mdiverge
       | S passes' => (process_pass fuel ;; process fuel passes')
       end
   end)%M.

End Engine.

(** ** [diffChildren] (lines 408-618) and [toChildArray] (lines 629-659) *)

(** [createVNode(type, props, key, ref, original)]; [options.vnode] is
    never assigned in this program. *)
Definition createVNode (type : vtype) (props : jsval) (key : jskey) (ref original : jsval)
  : U vid := fun s =>
  let v := length (vnodes s) in
  let vnode :=
    VNode.mk type props key ref VNull None 0 DNull DUndef None VUndef
      (if is_nullish original then VVNode v else original) in
  (Ret v, set_vnodes (vnodes s ++ [vnode]) s).

(** The local variables of [diffChildren] that its callback updates. *)
Module Locals.
Record t := mk {
  i : nat;
  oldDom : domv;
  firstChildDom : domv;
  refs : list (jsval * jsval * vid)
}.
End Locals.

Section Children.

(** The numeric value of a string ([ToNumber]), when it is an integer. *)
Variable string_to_number : string -> option Z.

(** [a == b] on keys. *)
Definition key_loose_eq (a b : jskey) : bool :=
  match a, b with
  | (KUndef | KNull), (KUndef | KNull) => true
  | KNum m, KNum n => (m =? n)%Z
  | KStr x, KStr y => String.eqb x y
  | KNum m, KStr x | KStr x, KNum m =>
      match string_to_number x with
      | Some n => (m =? n)%Z
      | None => false
      end
  | _, _ => false
  end.

(** [key == null]: the node is unkeyed. *)
Definition unkeyed (k : jskey) : bool :=
  match k with
  | KUndef | KNull => true
  | _ => false
  end.

(** [oldVNode && childVNode.key == oldVNode.key && childVNode.type === oldVNode.type] *)
Definition matches (s : store) (childVNode : vid) (oldVNode : jsval) : bool :=
  match oldVNode with
  | VVNode o =>
      key_loose_eq (VNode.key (get_vnode s childVNode)) (VNode.key (get_vnode s o))
      && bool_decide (VNode.type (get_vnode s childVNode) = VNode.type (get_vnode s o))
  | _ => false
  end.

(** The loop of lines 465-478 over [oldChildren[j]], [j] counting up from
    the position of the head of [olds]. *)
Fixpoint scan_old (s : store) (childVNode : vid) (olds : list jsval) (j : nat)
  : option (nat * jsval) :=
  match olds with
  | [] => None
  | oldVNode :: rest =>
      if matches s childVNode oldVNode then Some (j, oldVNode)
      else scan_old s childVNode rest (S j)
  end.

(** [oldVNode || EMPTY_OBJ]: [None] stands for [EMPTY_OBJ]. *)
Definition or_empty (oldVNode : jsval) : option vid :=
  match oldVNode with
  | VVNode o => Some o
  | _ => None
  end.

(** [oldChildren[j] = undefined]: [oldChildren] is an array of the store,
    or the shared [EMPTY_ARR], which is never written. *)
Definition consume (oldChildren : option aid) (j : nat) (s : store) : store :=
  match oldChildren with
  | Some a => upd_array a (fun l => <[j := VUndef]> l) s
  | None => s
  end.

Definition old_children (s : store) (oldChildren : option aid) : list jsval :=
  match oldChildren with
  | Some a => get_array s a
  | None => []
  end.

(** Lines 453-481: the old vnode the [i]-th new child is diffed against. *)
Definition match_old (oldChildren : option aid) (oldChildrenLength i : nat) (childVNode : vid)
  : U (option vid) := fun s =>
  let oldVNode := default VUndef (old_children s oldChildren !! i) in
  if strict_eq oldVNode VNull || matches s childVNode oldVNode
  then (Ret (or_empty oldVNode), consume oldChildren i s)
  else
    match scan_old s childVNode (take oldChildrenLength (old_children s oldChildren)) 0 with
    | Some (j, found) => (Ret (or_empty found), consume oldChildren j s)
    | None => (Ret None, s)
    end.

(** What [diffChildren] did for one child, and at the end. *)
Inductive child_event :=
| EvDiff (index : nat) (childVNode : vid) (oldVNode : option vid) (ops : list domop)
| EvPlace (childVNode : vid) (ops : list domop)
| EvFinish (ops : list domop).

(** The recursive call of [diff] (lines 484-494), the ref bookkeeping and
    placement of the produced host node (lines 496-591), and the removals,
    unmounts and ref applications that end [diffChildren] (lines 598-617). *)
Variable diff_rec :
  did -> vid -> option vid -> jsval -> bool -> option aid -> domv -> bool ->
  store -> res domv * store * list domop.
Variable place_child :
  did -> vid -> vid -> option vid -> domv -> option aid -> nat -> Locals.t ->
  store -> res Locals.t * store * list domop.
Variable finish :
  did -> vid -> option aid -> option aid -> nat -> Locals.t ->
  store -> res unit * store * list domop.

(** The callback of lines 444-595. *)
Definition child_callback (parentDom : did) (newParentVNode : vid) (oldChildren : option aid)
    (oldChildrenLength : nat) (globalContext : jsval) (isSvg : bool)
    (excessDomChildren : option aid) (isHydrating : bool)
    (l : Locals.t) (childVNode : option vid) : M child_event Locals.t :=
  (l' <- match childVNode with
         | Some child =>
             (mmodify (upd_vnode child (VNodeSet._parent (Some newParentVNode))) ;;
              mmodify (fun s =>
                upd_vnode child (VNodeSet._depth (S (VNode._depth (get_vnode s newParentVNode)))) s) ;;
              oldVNode <- lift (match_old oldChildren oldChildrenLength (Locals.i l) child) ;;
              newDom <- nest (EvDiff (Locals.i l) child oldVNode)
                          (diff_rec parentDom child oldVNode globalContext isSvg
                             excessDomChildren (Locals.oldDom l) isHydrating) ;;
              nest (EvPlace child)
                (place_child parentDom newParentVNode child oldVNode newDom excessDomChildren
                   oldChildrenLength l))
         | None => mret l
         end ;;
   (* i++ *)
   mret (Locals.mk (S (Locals.i l')) (Locals.oldDom l') (Locals.firstChildDom l')
           (Locals.refs l')))%M.

(** [toChildArray(children, callback, flattened)], called with a callback
    (its only use in this program).  [l] holds the variables the callback
    closes over, [fuel] bounds the nesting of arrays. *)
Fixpoint toChildArray {E L} (fuel : nat) (children : jsval)
    (callback : L -> option vid -> M E L) (l : L) (flattened : list jsval)
  : M E (L * list jsval) :=
  match fuel with
  | 0 => mdiverge
  | S fuel' =>
      match children with
      | VUndef | VNull | VBool _ =>
          (l' <- callback l None ;; mret (l', flattened ++ [VNull]))%M
      | VArr a =>
          (s <- mget ;;
           (fix each (items : list jsval) (acc : L * list jsval) : M E (L * list jsval) :=
              match items with
              | [] => mret acc
              | x :: rest =>
                  (acc' <- toChildArray fuel' x callback (fst acc) (snd acc) ;; each rest acc')
              end) (get_array s a) (l, flattened))%M
      | VStr _ | VNum _ | VNaN =>
          (v <- lift (createVNode TyText children KNull VNull children) ;;
           l' <- callback l (Some v) ;;
           mret (l', flattened ++ [VVNode v]))%M
      | VVNode child =>
          (s <- mget ;;
           let c := get_vnode s child in
           if negb (dom_is_null (VNode._dom c)) || is_Some_b (VNode._component c) then
             (v <- lift (createVNode (VNode.type c) (VNode.props c) (VNode.key c) VNull
                           (VNode._original c)) ;;
              l' <- callback l (Some v) ;;
              mret (l', flattened ++ [VVNode v]))
           else
             (l' <- callback l (Some child) ;;
              mret (l', flattened ++ [VVNode child])))%M
      | _ => mret (l, flattened)
      end
  end.

(** [(oldParentVNode && oldParentVNode._children) || EMPTY_ARR] *)
Definition old_children_of (s : store) (oldParentVNode : option vid) : option aid :=
  match oldParentVNode with
  | Some o =>
      match VNode._children (get_vnode s o) with
      | VArr a => Some a
      | _ => None
      end
  | None => None
  end.

Definition dom_of_val (x : jsval) : domv :=
  match x with
  | VDom d => DNode d
  | VNull => DNull
  | _ => DUndef
  end.

(** Lines 431-439: the host node the first child is placed before. *)
Definition initial_oldDom (fuel : nat) (oldParentVNode : option vid)
    (excessDomChildren : option aid) (oldChildrenLength : nat) (oldDom : olddom) : U domv :=
  match oldDom with
  | OldDom d => uret d
  | OldEmptyObj =>
      match excessDomChildren with
      | Some e => fun s => (Ret (dom_of_val (default VUndef (get_array s e !! 0))), s)
      | None =>
          match oldChildrenLength, oldParentVNode with
          | S _, Some o => getDomSibling fuel o (Some 0)
          | _, _ => uret DNull
          end
      end
  end.

(** [diffChildren(parentDom, newParentVNode, oldParentVNode, globalContext,
    isSvg, excessDomChildren, commitQueue, oldDom, isHydrating)] *)
Definition diffChildren_body (fuel : nat) (parentDom : did) (newParentVNode : vid)
    (oldParentVNode : option vid) (globalContext : jsval) (isSvg : bool)
    (excessDomChildren : option aid) (oldDom : olddom) (isHydrating : bool)
  : M child_event unit :=
  (s0 <- mget ;;
   let oldChildren := old_children_of s0 oldParentVNode in
   let oldChildrenLength := length (old_children s0 oldChildren) in
   d <- lift (initial_oldDom fuel oldParentVNode excessDomChildren oldChildrenLength oldDom) ;;
   r <- toChildArray fuel (VNode._children (get_vnode s0 newParentVNode))
          (child_callback parentDom newParentVNode oldChildren oldChildrenLength globalContext
             isSvg excessDomChildren isHydrating)
          (Locals.mk 0 d DUndef []) [] ;;
   a <- lift (ualloc (alloc_array (snd r))) ;;
   mmodify (upd_vnode newParentVNode (VNodeSet._children (VArr a))) ;;
   nest EvFinish
     (finish parentDom newParentVNode oldChildren excessDomChildren oldChildrenLength (fst r)))%M.

End Children.

(** * More of the bundle *)

(** *** [useMemo] and [useCallback] (lines 1430-1453, 1529-1535) *)

(** [newArgs.some((arg, index) => arg !== oldArgs[index])], from position
    [index] on. *)
Fixpoint some_arg_differs (oldArgs : list jsval) (index : nat) (newArgs : list jsval) : bool :=
  match newArgs with
  | [] => false
  | arg :: rest =>
      strict_neq arg (default VUndef (oldArgs !! index))
      || some_arg_differs oldArgs (S index) rest
  end.

(** [argsChanged(oldArgs, newArgs)]: [!oldArgs || newArgs.some(...)];
    [None] is [undefined]. *)
Definition argsChanged (oldArgs newArgs : option (list jsval)) : res bool :=
  match oldArgs with
  | None => Ret true
  | Some old =>
      match newArgs with
      | Some new => Ret (some_arg_differs old 0 new)
      | None => Throw TypeError
      end
  end.

Section Memo.
Variable call : fid -> jsval -> list jsval -> U jsval.

(** [useMemo(factory, args)]; the result is [state._value]. *)
Definition useMemo (factory : fid) (args : option (list jsval)) : U Hook.value :=
  (s0 <- uget ;;
   umodify (set_currentIndex (S (currentIndex s0))) ;;
   hookState <- getHookState (currentIndex s0) ;;
   let c := fst hookState in
   let i := snd hookState in
   s1 <- uget ;;
   match Comp.__hooks (get_comp s1 c) with
   | Some h =>
       (* hooks._list[index] is undefined beyond the end of the list *)
       if Nat.ltb i (length (_list h)) then
         (changed <- (fun s => (argsChanged (Hook._args (get_cell s1 c i)) args, s)) ;;
          if (changed : bool) then
            (umodify (upd_cell c i (fun cell =>
               Hook.mk (Hook._component cell) (Hook._value cell) args (Hook._factory cell)
                 (Hook._cleanup cell))) ;;
             umodify (upd_cell c i (fun cell =>
               Hook.mk (Hook._component cell) (Hook._value cell) (Hook._args cell) (Some factory)
                 (Hook._cleanup cell))) ;;
             v <- call factory VUndef [] ;;
             umodify (upd_cell c i (fun cell =>
               Hook.mk (Hook._component cell) (Hook.Memo v) (Hook._args cell)
                 (Hook._factory cell) (Hook._cleanup cell))) ;;
             uret (Hook.Memo v))
          else uret (Hook._value (get_cell s1 c i)))
       else uthrow TypeError
   | None => uthrow TypeError
   end)%U.

(** The closure [() => callback] that [useCallback] hands to [useMemo]. *)
Variable callback_factory : jsval -> fid.

(** [useCallback(callback, args)] *)
Definition useCallback (callback : jsval) (args : option (list jsval)) : U Hook.value :=
  useMemo (callback_factory callback) args.

End Memo.

(** *** [createElement] (lines 92-126) *)

(** A value as a vnode key.  The documented type of a key is
    [string | number | null], and a key that is absent is [undefined];
    vnodes of this embedding hold no other key. *)
Definition key_of (v : jsval) : option jskey :=
  match v with
  | VUndef => Some KUndef
  | VNull => Some KNull
  | VNum n => Some (KNum n)
  | VStr k => Some (KStr k)
  | _ => None
  end.

(** [props && props.k] *)
Definition and_member (props : jsval) (k : string) : U jsval :=
  if truthy props then get_member props k else uret props.

(** [normalizedProps[i] === undefined] decides whether a default applies. *)
Definition with_default (given default_ : option jsval) : option jsval :=
  match given, default_ with
  | Some v, Some d => if strict_eq v VUndef then Some d else Some v
  | Some v, None => Some v
  | None, d => d
  end.

Section CreateElement.

(** [type.defaultProps], a static property of a component function. *)
Variable defaultProps : fid -> jsval.

(** [createElement(type, props, children, ...)]; [arguments] holds the
    arguments from [children] on (none when [createElement] is called with
    two arguments).  As everywhere in this embedding an object is the map
    of its own enumerable properties.  The result is [None] when
    [props.key] is outside the documented type of a key. *)
Definition createElement (type : vtype) (props : jsval) (arguments : list jsval)
  : U (option vid) :=
  (s0 <- uget ;;
   (* for (i in props) if (i !== 'key' && i !== 'ref') normalizedProps[i] = props[i]; *)
   let normalizedProps := delete "key" (delete "ref" (own_props s0 props)) in
   children <- match arguments with
               | [] => uret VUndef
               | [children] => uret children
               | _ => (a <- ualloc (alloc_array arguments) ;; uret (VArr a))
               end ;;
   let normalizedProps :=
     if is_nullish children then normalizedProps
     else <["children" := children]> normalizedProps in
   (* If a Component VNode, check for and apply defaultProps *)
   s1 <- uget ;;
   let normalizedProps :=
     match type with
     | TyFun f =>
         if is_nullish (defaultProps f) then normalizedProps
         else merge with_default normalizedProps (own_props s1 (defaultProps f))
     | _ => normalizedProps
     end in
   o <- ualloc (alloc_object normalizedProps) ;;
   key <- and_member props "key" ;;
   ref <- and_member props "ref" ;;
   match key_of key with
   | Some k => (v <- createVNode type (VObj o) k ref VNull ;; uret (Some v))
   | None => uret None
   end)%U.

End CreateElement.

(** ** Rendering to a string: helpers (lines 1560-1630) *)

(** [s.replace(/c/g, by)] for a single character [c] and a replacement
    without [$]. *)
Fixpoint replace_all (c : ascii) (by_ : string) (s : string) : string :=
  match s with
  | EmptyString => EmptyString
  | String x rest =>
      if Ascii.eqb x c then String.append by_ (replace_all c by_ rest)
      else String x (replace_all c by_ rest)
  end.

(** The double quote character. *)
Definition quote : ascii := "034"%char.

(** [encodeEntities(s)], for [s] a string (for which [String(s)] is [s]). *)
Definition encodeEntities (s : string) : string :=
  replace_all quote "&quot;"
    (replace_all ">" "&gt;"
       (replace_all "<" "&lt;"
          (replace_all "&" "&amp;" s))).

(** [getChildren(accumulator, children)]: [accumulator] is the content of
    the array that is filled; [fuel] bounds the nesting of arrays. *)
Fixpoint getChildren (fuel : nat) (s : store) (accumulator : list jsval) (children : jsval)
  : res (list jsval) :=
  match fuel with
  | 0 => Diverge
  | S fuel' =>
      match children with
      | VArr a =>
          (* children.reduce(getChildren, accumulator) *)
          fold_left (fun acc child =>
                       match acc with
                       | Ret accumulator' => getChildren fuel' s accumulator' child
                       | other => other
                       end)
                    (get_array s a) (Ret accumulator)
      | _ =>
          if negb (is_nullish children) && strict_neq children (VBool false)
          then Ret (accumulator ++ [children])
          else Ret accumulator
      end
  end.

(** *** [applyRef], [unmount] and [removeNode] (lines 26-29, 1222-1276) *)

(** What [unmount] does that is visible from outside: the calls of user
    code the engine makes, the refs it applies and the host nodes it hands
    to [removeNode]. *)
Inductive unmount_event :=
| UEngine (e : event)
| UApplyRef (ref value : jsval)
| URemoveNode (d : did).

(** Runs [m] with its events mapped into the events of the caller. *)
Definition relabel {E F A} (f : E -> F) (m : M E A) : M F A := fun s =>
  let '(r, s', ev) := m s in (r, s', map f ev).

(** [x === d] for a value [x] and a host node slot [d]. *)
Definition same_dom (x : jsval) (d : domv) : bool :=
  match x, d with
  | VDom a, DNode b => Nat.eqb a b
  | VNull, DNull => true
  | VUndef, DUndef => true
  | _, _ => false
  end.

Section Unmount.
Variable classes : fid -> class_decl.
Variable call : fid -> jsval -> list jsval -> U jsval.

(** [applyRef(ref, value, vnode)].  The documented type of a ref is
    [object | function]: a function is called, the [current] of a ref
    object is set; storing [current] on [undefined], [null] or a primitive
    throws, and on any other object it is not tracked. *)
Definition applyRef (fuel : nat) (ref value : jsval) (vnode : vid) : M unmount_event unit :=
  try_catch
    (emit (UApplyRef ref value) ;;
     match ref with
     | VFun f => (lift (call f VUndef [value]) ;; mret tt)
     | VObj o => mmodify (upd_object o (fun m => <["current" := value]> m))
     | VUndef | VNull | VBool _ | VNum _ | VNaN | VStr _ => mthrow TypeError
     | _ => mret tt
     end)%M
    (fun e => relabel UEngine (_catchError classes call fuel e vnode)).

(** [unmount(vnode, parentVNode, skipRemove)]; [fuel] bounds the depth of
    the tree below [vnode] and the parent chain [_catchError] walks.
    [_children] holds an array of vnodes and [null]s, or is [null] or
    [undefined]. *)
Fixpoint unmount (fuel : nat) (vnode parentVNode : vid) (skipRemove : bool)
  : M unmount_event unit :=
  match fuel with
  | 0 => mdiverge
  | S fuel' =>
      (relabel UEngine (options_unmount classes call fuel vnode) ;;
       s <- mget ;;
       let r := VNode.ref (get_vnode s vnode) in
       (if truthy r then
          (current <- lift (get_member r "current") ;;
           s0 <- mget ;;
           if negb (truthy current) || same_dom current (VNode._dom (get_vnode s0 vnode))
           then applyRef fuel r VNull parentVNode
           else mret tt)
        else mret tt) ;;
       s1 <- mget ;;
       let detach :=
         negb skipRemove && match VNode.type (get_vnode s1 vnode) with
                            | TyFun _ => false
                            | _ => true
                            end in
       let dom := if detach then VNode._dom (get_vnode s1 vnode) else DUndef in
       let skipRemove := if detach then negb (dom_is_null dom) else skipRemove in
       (* Must be set to undefined to properly clean up _nextDom *)
       mmodify (upd_vnode vnode (VNodeSet._nextDom DUndef)) ;;
       mmodify (upd_vnode vnode (VNodeSet._dom DUndef)) ;;
       s2 <- mget ;;
       (match VNode._component (get_vnode s2 vnode) with
        | Some c =>
            ((match componentWillUnmount (class_of classes s2 c) with
              | Some f =>
                  try_catch
                    (relabel UEngine (ecall call c McomponentWillUnmount f (VComp c) []) ;;
                     mret tt)
                    (fun e => relabel UEngine (_catchError classes call fuel e parentVNode))
              | None => mret tt
              end) ;;
             mmodify (upd_comp c (CompSet._parentDom None)) ;;
             mmodify (upd_comp c (CompSet.base DNull)))
        | None => mret tt
        end) ;;
       s3 <- mget ;;
       (match VNode._children (get_vnode s3 vnode) with
        | VArr a =>
            (fix each (children : list jsval) : M unmount_event unit :=
               match children with
               | [] => mret tt
               | child :: rest =>
                   ((match child with
                     | VVNode ch => unmount fuel' ch parentVNode skipRemove
                     | _ => if truthy child then
                              match child with
                              | VBool _ | VNum _ | VStr _ => mthrow TypeError
                              | _ => mret tt
                              end
                            else mret tt
                     end) ;;
                    each rest)
               end) (get_array s3 a)
        | _ => mret tt
        end) ;;
       match dom with
       | DNode d => emit (URemoveNode d)     (* removeNode(dom) *)
       | _ => mret tt
       end)%M
  end.

End Unmount.

(** * Notions used to state the properties of the engine *)

(** [c.setState({})], as the setter of a state cell calls it: the staged
    state is cloned if it is still the current state, nothing is merged, and
    the instance is enqueued when it is mounted. *)
Definition stage (c : cid) (s : store) : store :=
  if strict_neq (Comp._nextState (get_comp s c)) (Comp.state (get_comp s c)) then s
  else
    let (o, s1) := alloc_object ∅ s in
    upd_comp c (CompSet._nextState (VObj o))
      (snd (assign (VObj o) (Comp.state (get_comp s c)) s1)).

(** What [setState] appends to [_renderCallbacks] for its [callback]
    argument. *)
Definition callback_entry (cb : option fid) : list callback :=
  match cb with
  | Some f => [CbFn f]
  | None => []
  end.

(** The positions of the cells that hold a cleanup, in registration order;
    [i] is the position of the head of [cells]. *)
Fixpoint cells_with_cleanup (cells : list Hook.t) (i : nat) : list nat :=
  match cells with
  | [] => []
  | cell :: rest =>
      if is_Some_b (Hook._cleanup cell) then i :: cells_with_cleanup rest (S i)
      else cells_with_cleanup rest (S i)
  end.

(** The class declares [getDerivedStateFromError] or [componentDidCatch]. *)
Definition declares_handler (cl : class_decl) : bool :=
  is_Some_b (getDerivedStateFromError cl) || is_Some_b (componentDidCatch cl).

(** The first strict ancestor of [vnode] that is backed by an instance which
    is not processing an exception and whose class declares an error
    handler, with the fuel left for the walk above it; [Some None] when the
    parent chain ends without one, [None] when the fuel does not reach the
    end of the chain. *)
Fixpoint first_boundary (classes : fid -> class_decl) (s : store) (fuel : nat) (vnode : vid)
  : option (option (vid * cid * nat)) :=
  match fuel with
  | 0 => None
  | S fuel' =>
      match VNode._parent (get_vnode s vnode) with
      | None => Some None
      | Some parent =>
          match VNode._component (get_vnode s parent) with
          | Some c =>
              if is_Some_b (Comp._processingException (get_comp s c))
              then first_boundary classes s fuel' parent
              else if declares_handler (class_of classes s c) then Some (Some (parent, c, fuel'))
              else first_boundary classes s fuel' parent
          | None => first_boundary classes s fuel' parent
          end
      end
  end.

(** The order of the render queue after sorting: [a._vnode._depth] is at
    most [b._vnode._depth]. *)
Definition by_depth (s : store) (a b : cid) : Prop := depth_of s a <= depth_of s b.

(** The step of a pass for one queue entry. *)
Definition render_entry (classes : fid -> class_decl)
    (call : fid -> jsval -> list jsval -> U jsval)
    (diffChildren : did -> vid -> option vid -> jsval -> bool -> option aid -> olddom -> bool ->
                    store -> res unit * store * list domop)
    (diffElementNodes : domv -> vid -> option vid -> jsval -> bool -> option aid -> bool ->
                        store -> res domv * store * list domop)
    (ownerSVGElement_defined : did -> bool)
    (fuel : nat) (c : cid) : M (cid * list event) unit := fun s =>
  (if Comp._dirty (get_comp s c)
   then nest (fun ev => (c, ev))
          (renderComponent classes call diffChildren diffElementNodes ownerSVGElement_defined
             fuel c)
   else mret tt) s.

Section Matching.
Variable string_to_number : string -> option Z.

(** The new child and the old child have the same key ([==]) and the same
    type ([===]). *)
Definition same_key_and_type (s : store) (childVNode o : vid) : Prop :=
  key_loose_eq string_to_number (VNode.key (get_vnode s childVNode)) (VNode.key (get_vnode s o))
  = true
  /\ VNode.type (get_vnode s childVNode) = VNode.type (get_vnode s o).

(** The old slot at the child's own index does not take the child: it is
    neither the placeholder [null] nor a vnode of the same key and type. *)
Definition not_at_own_index (s : store) (olds : list jsval) (i : nat) (childVNode : vid)
  : Prop :=
  olds !! i <> Some VNull
  /\ forall o, olds !! i = Some (VVNode o) -> ~ same_key_and_type s childVNode o.

(** The matching rule in the words of the specification: [matched] is the
    old vnode the child is diffed against ([None]: a fresh mount, against
    [EMPTY_OBJ]) and [olds'] the old children left for the next child. *)
Inductive matched_as (s : store) (olds : list jsval) (n i : nat) (childVNode : vid)
  : option vid -> list jsval -> Prop :=
| match_placeholder :
    olds !! i = Some VNull ->
    matched_as s olds n i childVNode None (<[i := VUndef]> olds)
| match_same_index o :
    olds !! i = Some (VVNode o) ->
    same_key_and_type s childVNode o ->
    matched_as s olds n i childVNode (Some o) (<[i := VUndef]> olds)
| match_first_in_scan j o :
    not_at_own_index s olds i childVNode ->
    j < n ->
    olds !! j = Some (VVNode o) ->
    same_key_and_type s childVNode o ->
    (forall j' o', j' < j -> olds !! j' = Some (VVNode o') ->
                   ~ same_key_and_type s childVNode o') ->
    matched_as s olds n i childVNode (Some o) (<[j := VUndef]> olds)
| match_fresh_mount :
    not_at_own_index s olds i childVNode ->
    (forall j o, j < n -> olds !! j = Some (VVNode o) -> ~ same_key_and_type s childVNode o) ->
    matched_as s olds n i childVNode None olds.

End Matching.

(** The cell [useReducer] is about to initialise: the fresh cell appended
    by [getHookState], marked with its component. *)
Definition marked_cell (c : cid) : Hook.t := Hook.mk (Some c) Hook.Unset None None None.

(** The store in which the initial value of a new state cell is computed. *)
Definition before_init (c : cid) (s : store) : store :=
  let h := default (mk_hooks [] []) (Comp.__hooks (get_comp s c)) in
  upd_comp c (CompSet.__hooks (Some (mk_hooks (_list h ++ [marked_cell c]) (_pendingEffects h))))
    (set_currentIndex (S (currentIndex s)) s).

(** The store in which [useMemo] calls the factory: the index has moved on
    and the cell already holds the new arguments and the factory. *)
Definition before_factory (c : cid) (i : nat) (factory : fid) (args : option (list jsval))
    (s : store) : store :=
  upd_cell c i (fun cell =>
      Hook.mk (Hook._component cell) (Hook._value cell) (Hook._args cell) (Some factory)
        (Hook._cleanup cell))
    (upd_cell c i (fun cell =>
         Hook.mk (Hook._component cell) (Hook._value cell) args (Hook._factory cell)
           (Hook._cleanup cell))
       (set_currentIndex (S i) s)).

(** One pass over the string does what the four replacements do. *)
Definition entity (x : ascii) : string :=
  if Ascii.eqb x "&" then "&amp;"
  else if Ascii.eqb x "<" then "&lt;"
  else if Ascii.eqb x ">" then "&gt;"
  else if Ascii.eqb x quote then "&quot;"
  else String x EmptyString.

Fixpoint encode_each (s : string) : string :=
  match s with
  | EmptyString => EmptyString
  | String x rest => String.append (entity x) (encode_each rest)
  end.

(** The characters of a string. *)
Fixpoint chars (s : string) : list ascii :=
  match s with
  | EmptyString => []
  | String x rest => x :: chars rest
  end.

Definition markup (x : ascii) : bool :=
  Ascii.eqb x "<" || Ascii.eqb x ">" || Ascii.eqb x quote.

(** What [getChildren] keeps: everything but arrays (which it opens),
    [null], [undefined] and [false]. *)
Definition kept (x : jsval) : bool :=
  match x with
  | VArr _ | VUndef | VNull | VBool false => false
  | _ => true
  end.

Definition reduce_getChildren (fuel : nat) (s : store) (items : list jsval)
    (start : res (list jsval)) : res (list jsval) :=
  fold_left (fun acc child =>
               match acc with
               | Ret accumulator' => getChildren fuel s accumulator' child
               | other => other
               end) items start.

Definition prepend (acc : list jsval) (r : res (list jsval)) : res (list jsval) :=
  match r with
  | Ret l => Ret (acc ++ l)
  | other => other
  end.

Definition emits_only {E A} (P : E -> Prop) (m : M E A) : Prop :=
  forall s, Forall P (snd (m s)).

Definition not_removal (e : unmount_event) : Prop :=
  match e with
  | URemoveNode _ => False
  | _ => True
  end.

(** The methods [diff] may call on a component: [declares] tells whether
    the class declares [getDerivedStateFromProps], [update] whether the old
    vnode already has an instance. *)
Definition diff_may_call (declares update : bool) (m : method) : bool :=
  match m with
  | Mconstructor | Msub => negb update
  | MgetDerivedStateFromProps => declares
  | McomponentWillMount => negb update && negb declares
  | McomponentWillReceiveProps => update && negb declares
  | MshouldComponentUpdate | McomponentWillUpdate | MgetSnapshotBeforeUpdate => update
  | Mrender | MgetChildContext | MgetDerivedStateFromError | McomponentDidCatch => true
  | McomponentDidMount | McomponentDidUpdate | McomponentWillUnmount | Mcallback => false
  end.

Definition calls_within (allowed : method -> bool) (e : event) : Prop :=
  match e with
  | EvCall _ m _ => allowed m = true
  | _ => True
  end.

(** What [commitRoot] may call: the [componentDidMount], [componentDidUpdate]
    and [setState] callbacks of the instances of [queue], and the handlers
    of error boundaries. *)
Definition commit_may_call (queue : list cid) (e : event) : Prop :=
  match e with
  | EvCall c m _ =>
      match m with
      | McomponentDidMount | McomponentDidUpdate | Mcallback => In c queue
      | MgetDerivedStateFromError | McomponentDidCatch => True
      | _ => False
      end
  | _ => True
  end.

(** What [unmount] may do: call [componentWillUnmount], the cleanups of
    hook cells and the handlers of error boundaries, apply a ref with
    [null], and remove host nodes. *)
Definition unmount_may_do (e : unmount_event) : Prop :=
  match e with
  | UEngine (EvCall _ m _) =>
      match m with
      | McomponentWillUnmount | MgetDerivedStateFromError | McomponentDidCatch => True
      | _ => False
      end
  | UEngine (EvCleanup _ _) => True
  | UEngine _ => False
  | UApplyRef _ value => value = VNull
  | URemoveNode _ => True
  end.

(** * A concrete application *)

Definition no_call : fid -> jsval -> list jsval -> U jsval := fun _ _ _ => uret VUndef.

Definition plain_class : class_decl :=
  mk_class true None None None None None None None None None None None None None (Some 8) None.

(** Component types: 1 declares [componentDidCatch], 2 declares nothing,
    3 declares [componentDidUpdate], 4 declares [shouldComponentUpdate],
    9 renders one child of type 3. *)
Definition ex_classes (f : fid) : class_decl :=
  match f with
  | 1 => mk_class true None None None None None None None None None None None (Some 5) None
           (Some 8) None
  | 3 => mk_class true None None None None None None None None (Some 7) None None None None
           (Some 8) None
  | 4 => mk_class true None None None None None None (Some 6) None None None None None None
           (Some 8) None
  | 9 => mk_class true None None None None None None None None None None None None None
           (Some 10) None
  | _ => plain_class
  end.

(** [this.state.n] *)
Definition state_n (s : store) (c : cid) : Z :=
  match Comp.state (get_comp s c) with
  | VObj o => match get_object s o !! "n" with
              | Some (VNum k) => k
              | _ => 0%Z
              end
  | _ => 0%Z
  end.

(** Functions: 5 throws (a failing [componentDidCatch]), 6 returns [false],
    7 is [componentDidUpdate() { if (this.state.n < 3) this.setState({n:
    this.state.n + 1}) }], 8 renders nothing, 10 renders one child of type
    3, 11 throws (a failing cleanup); every other function returns
    [undefined]. *)
Definition ex_call (f : fid) (this : jsval) (args : list jsval) : U jsval :=
  match f with
  | 5 => uthrow (VError "E2")
  | 6 => uret (VBool false)
  | 7 => match this with
         | VComp c => fun s =>
             if (state_n s c <? 3)%Z then
               let '(o, s1) := alloc_object {["n" := VNum (state_n s c + 1)]} s in
               let '(r, s2) := setState no_call c (VObj o) None s1 in
               (match r with
                | Ret _ => Ret VUndef
                | Throw e => Throw e
                | Diverge => Diverge
                end, s2)
             else (Ret VUndef, s)
         | _ => uret VUndef
         end
  | 8 => uret VNull
  | 10 => fun s =>
            let '(r, s1) := createVNode (TyFun 3) VUndef KUndef VUndef VNull s in
            (match r with
             | Ret v => Ret (VVNode v)
             | Throw e => Throw e
             | Diverge => Diverge
             end, s1)
  | 11 => uthrow (VError "cleanup failed")
  | _ => uret VUndef
  end.

Definition ex_string_to_number : string -> option Z := fun _ => None.

Definition ex_diffElementNodes : domv -> vid -> option vid -> jsval -> bool -> option aid -> bool ->
  store -> res domv * store * list domop :=
  fun dom _ _ _ _ _ _ s => (Ret dom, s, []).

(** The children of this application produce no host node, so nothing is
    placed, and ending [diffChildren] comes down to
    [newParentVNode._dom = firstChildDom]. *)
Definition ex_place : did -> vid -> vid -> option vid -> domv -> option aid -> nat -> Locals.t ->
  store -> res Locals.t * store * list domop :=
  fun _ _ _ _ _ _ _ l s => (Ret l, s, []).

Definition ex_finish : did -> vid -> option aid -> option aid -> nat -> Locals.t ->
  store -> res unit * store * list domop :=
  fun _ newParentVNode _ _ _ l s =>
    (Ret tt, upd_vnode newParentVNode (VNodeSet._dom (Locals.firstChildDom l)) s, []).

Definition as_host {A} (m : M child_event A) : store -> res A * store * list domop :=
  fun s => let '(r, s', _) := m s in (r, s', []).

Definition as_host_diff (m : M event domv) : store -> res domv * store * list domop :=
  fun s => let '(r, s', _) := m s in (r, s', []).

Definition olddom_of (d : domv) : olddom := OldDom d.

(** [diffChildren] below a component whose children are not components. *)
Definition ex_diffChildren_leaf (parentDom : did) (newParentVNode : vid)
    (oldParentVNode : option vid) (globalContext : jsval) (isSvg : bool)
    (excessDomChildren : option aid) (oldDom : olddom) (isHydrating : bool)
  : store -> res unit * store * list domop :=
  as_host (diffChildren_body ex_string_to_number
             (fun _ _ _ _ _ _ _ _ s => (Ret DNull, s, [])) ex_place ex_finish 5
             parentDom newParentVNode oldParentVNode globalContext isSvg excessDomChildren
             oldDom isHydrating).

(** [diffChildren] one level up: its children are diffed by [diff]. *)
Definition ex_diffChildren (parentDom : did) (newParentVNode : vid)
    (oldParentVNode : option vid) (globalContext : jsval) (isSvg : bool)
    (excessDomChildren : option aid) (oldDom : olddom) (isHydrating : bool)
  : store -> res unit * store * list domop :=
  as_host (diffChildren_body ex_string_to_number
             (fun parentDom' child old ctx svg excess dom hydrating =>
                as_host_diff (diff ex_classes ex_call ex_diffChildren_leaf ex_diffElementNodes 5
                                parentDom' child old ctx svg excess (olddom_of dom) hydrating))
             ex_place ex_finish 5
             parentDom newParentVNode oldParentVNode globalContext isSvg excessDomChildren
             oldDom isHydrating).

Definition ex_svg : did -> bool := fun _ => false.

Definition empty_store : store :=
  mk_store [] [] [] [] [] [] 0 None None [] [] None 0 [] None None [].

(** ** The scheduler: a dirty instance and a changed strategy *)

Definition dirty_comp : Comp.t :=
  Comp.mk 2 VUndef VUndef VUndef VUndef VUndef (Some 0) true false [] None None (Some 0) DNull None.

Definition ex_rescheduled : store :=
  set_debounceRendering (Some 12)
    (set_rerenderCount 1 (set_rerenderQueue [0] (set_components [dirty_comp] empty_store))).

(** ** [setState] on an instance that [diff] has not seen yet *)

Definition ex_constructed : store :=
  set_objects [{["count" := VNum 0]}; {["count" := VNum 1]}]
    (set_components
       [Comp.mk 2 VUndef (VObj 0) VUndef VUndef VUndef None false false [] None None None
          DUndef None] empty_store).

(** ** Error recovery past a failing handler *)

(** The vnodes 0 <- 1 <- 2 <- 3 form a parent chain; vnode 1 is backed by
    instance 0 (type 2: no error handler), vnode 2 by instance 1 (type 1:
    its [componentDidCatch] throws). *)
Definition ex_chain : store :=
  set_vnodes
    [VNode.mk (TyTag "div") VUndef KUndef VUndef VNull None 0 DNull DUndef None VUndef (VVNode 0);
     VNode.mk (TyFun 2) VUndef KUndef VUndef VNull (Some 0) 1 DNull DUndef (Some 0) VUndef (VVNode 1);
     VNode.mk (TyFun 1) VUndef KUndef VUndef VNull (Some 1) 2 DNull DUndef (Some 1) VUndef (VVNode 2);
     VNode.mk (TyTag "p") VUndef KUndef VUndef VNull (Some 2) 3 DNull DUndef None VUndef (VVNode 3)]
    (set_components
       [Comp.mk 2 VUndef VUndef VUndef VUndef VUndef (Some 1) false false [] None None (Some 0)
          DNull None;
        Comp.mk 1 VUndef VUndef VUndef VUndef VUndef (Some 2) false false [] None None (Some 0)
          DNull None] empty_store).

(** ** Cleanups on unmount *)

Definition cell_with_cleanup (f : fid) : Hook.t :=
  Hook.mk (Some 0) (Hook.Effect 12) (Some []) None (Some f).

Definition ex_hooked (cleanups : list fid) : store :=
  set_vnodes
    [VNode.mk (TyFun 2) VUndef KUndef VUndef VNull None 0 DNull DUndef (Some 0) VUndef (VVNode 0)]
    (set_components
       [Comp.mk 2 VUndef VUndef VUndef VUndef VUndef (Some 0) false false [] None None (Some 0)
          DNull (Some (mk_hooks (map cell_with_cleanup cleanups) []))] empty_store).

(** ** Two passes of the render queue *)

(** A mounted tree: instance 0 (type 9, vnode 0) renders instance 1 (type 3,
    vnode 1), which renders nothing. *)
Definition ex_mounted : store :=
  set_arrays [[VVNode 1]; [VNull]]
    (set_objects [∅; {["n" := VNum 0]}; ∅; ∅]
       (set_vnodes
          [VNode.mk (TyFun 9) VUndef KUndef VUndef (VArr 0) None 0 DNull DUndef (Some 0) VUndef
             (VVNode 0);
           VNode.mk (TyFun 3) VUndef KUndef VUndef (VArr 1) (Some 0) 1 DNull DUndef (Some 1) VUndef
             (VVNode 1)]
          (set_components
             [Comp.mk 9 VUndef (VObj 0) (VObj 0) VUndef VUndef (Some 0) false false [] None None
                (Some 0) DNull None;
              Comp.mk 3 VUndef (VObj 1) (VObj 1) VUndef VUndef (Some 1) false false [] None None
                (Some 0) DNull None] empty_store))).

(** An event handler calls [setState({})] on both instances. *)
Definition ex_after_handler : store :=
  snd (setState ex_call 1 (VObj 3) None (snd (setState ex_call 0 (VObj 2) None ex_mounted))).

Definition ex_pass (s : store) : res unit * store * list (cid * list event) :=
  process_pass ex_classes ex_call ex_diffChildren ex_diffElementNodes ex_svg 10 s.

Definition ex_after_first_pass : store :=
  set_rerenderCount (length (rerenderQueue (snd (fst (ex_pass ex_after_handler)))))
    (snd (fst (ex_pass ex_after_handler))).

(** ** Single vnodes and instances *)

(** An object that is not a vnode: its [constructor] is [Object]. *)
Definition ex_foreign : store :=
  set_vnodes
    [VNode.mk (TyTag "div") VUndef KUndef VUndef VNull None 0 DNull DUndef None (VFun 0) VUndef]
    empty_store.

(** A mounted [div] (vnode 0) and the copy of it that [diffChildren] makes
    when the same vnode is rendered again (vnode 1, with the [_original] of
    vnode 0). *)
Definition ex_reused : store :=
  set_arrays [[]]
    (set_vnodes
       [VNode.mk (TyTag "div") VUndef KUndef VUndef (VArr 0) None 0 (DNode 7) DUndef None VUndef
          (VVNode 0);
        VNode.mk (TyTag "div") VUndef KUndef VUndef VNull None 0 DNull DUndef None VUndef
          (VVNode 0)] empty_store).

(** Instance 0 (type 4) is mounted at vnode 0; vnode 1 is the new vnode of
    the same type it is diffed with; its [shouldComponentUpdate] returns
    [false]. *)
Definition ex_vetoing : store :=
  set_arrays [[]]
    (set_objects [∅; ∅]
       (set_vnodes
          [VNode.mk (TyFun 4) (VObj 0) KUndef VUndef (VArr 0) None 0 (DNode 7) DUndef (Some 0)
             VUndef (VVNode 0);
           VNode.mk (TyFun 4) (VObj 0) KUndef VUndef VNull None 0 DNull DUndef None VUndef
             (VVNode 1)]
          (set_components
             [Comp.mk 4 (VObj 0) (VObj 1) (VObj 1) VUndef VUndef (Some 0) false false [] None None
                (Some 0) (DNode 7) None] empty_store))).

(** Instance 0 is mounted and holds one state cell with the value 5. *)
Definition ex_counter : store :=
  set_objects [∅]
    (set_vnodes
       [VNode.mk (TyFun 2) VUndef KUndef VUndef VNull None 0 DNull DUndef (Some 0) VUndef
          (VVNode 0)]
       (set_components
          [Comp.mk 2 VUndef (VObj 0) (VObj 0) VUndef VUndef (Some 0) false false [] None None
             (Some 0) DNull
             (Some (mk_hooks [Hook.mk (Some 0) (Hook.State (VNum 5) RInvokeOrReturn) None None
                                None] []))] empty_store)).

(** Instance 0 is mounted; its staged state is still its state [{count: 0}]
    (object 0); object 1 is the partial state [{count: 1}]. *)
Definition ex_staged : store :=
  set_objects [{["count" := VNum 0]}; {["count" := VNum 1]}]
    (set_vnodes
       [VNode.mk (TyFun 2) VUndef KUndef VUndef VNull None 0 DNull DUndef (Some 0) VUndef
          (VVNode 0)]
       (set_components
          [Comp.mk 2 VUndef (VObj 0) (VObj 0) VUndef VUndef (Some 0) false false [] None None
             (Some 0) DNull None] empty_store)).

(** ** Hooks, elements and trees *)

(** Instance 0 of [ex_counter] is being rendered, at its first hook. *)
Definition ex_rendering : store := set_currentComponent (Some 0) ex_counter.

(** Instance 0 of [ex_staged] is being rendered for the first time: it has
    no hook yet. *)
Definition ex_first_render : store := set_currentComponent (Some 0) ex_staged.

(** Instance 0 is being rendered; its first cell memoises 7 for the
    argument list [[1]]. *)
Definition ex_memo : store :=
  set_currentComponent (Some 0)
    (set_components
       [Comp.mk 2 VUndef VUndef VUndef VUndef VUndef (Some 0) false false [] None None (Some 0)
          DNull
          (Some (mk_hooks [Hook.mk None (Hook.Memo (VNum 7)) (Some [VNum 1]) (Some 12) None] []))]
       empty_store).

(** The closure [useCallback] makes for the callback 7 is function 13. *)
Definition ex_factory : jsval -> fid := fun _ => 13.

Definition hook_call (f : fid) (this : jsval) (args : list jsval) : U jsval :=
  match f with
  | 13 => uret (VFun 7)
  | _ => ex_call f this args
  end.

(** Component type 2 declares the default props of object 1. *)
Definition ex_defaultProps (f : fid) : jsval :=
  match f with
  | 2 => VObj 1
  | _ => VUndef
  end.

(** Object 0 is the props [{className: "a", key: "k", ref: f3, title:
    undefined, size: null}], object 1 the defaults [{title: "t", size: 1}]. *)
Definition ex_props : store :=
  set_objects
    [{["className" := VStr "a"]} ∪ {["key" := VStr "k"]} ∪ {["ref" := VFun 3]}
       ∪ {["title" := VUndef]} ∪ {["size" := VNull]};
     {["title" := VStr "t"]} ∪ {["size" := VNum 1]}]
    empty_store.

(** Array 0 is [["a", [1, false], null, true]]. *)
Definition ex_nested : store :=
  set_arrays [[VStr "a"; VArr 1; VNull; VBool true]; [VNum 1; VBool false]] empty_store.

(** A mounted [div] (vnode 0, host node 7) with one child [span] (vnode 1,
    host node 8). *)
Definition ex_tree : store :=
  set_arrays [[VVNode 1]]
    (set_vnodes
       [VNode.mk (TyTag "div") VUndef KUndef VUndef (VArr 0) None 0 (DNode 7) DUndef None VUndef
          (VVNode 0);
        VNode.mk (TyTag "span") VUndef KUndef VUndef VNull (Some 0) 1 (DNode 8) DUndef None VUndef
          (VVNode 1)] empty_store).


(** * Facts about the store *)

Ltac msimpl :=
  cbv beta iota zeta delta
    [mbind mget mmodify mret mthrow mdiverge lift emit try_catch nest host
     ubind uget umodify uret uthrow ualloc].

Lemma get_upd_vnode_same v f s :
  v < length (vnodes s) -> get_vnode (upd_vnode v f s) v = f (get_vnode s v).
Proof.
  intros H. unfold get_vnode, upd_vnode. simpl.
  rewrite list_lookup_alter_eq.
  destruct (vnodes s !! v) eqn:E; [reflexivity|].
  apply lookup_ge_None in E. lia.
Qed.

Lemma get_upd_vnode_other v w f s :
  v <> w -> get_vnode (upd_vnode v f s) w = get_vnode s w.
Proof.
  intros H. unfold get_vnode, upd_vnode. simpl.
  rewrite list_lookup_alter_ne by done. reflexivity.
Qed.

Lemma length_upd_vnode v f s : length (vnodes (upd_vnode v f s)) = length (vnodes s).
Proof. unfold upd_vnode. simpl. apply length_alter. Qed.

Lemma get_upd_comp_same c f s :
  c < length (components s) -> get_comp (upd_comp c f s) c = f (get_comp s c).
Proof.
  intros H. unfold get_comp, upd_comp. simpl.
  rewrite list_lookup_alter_eq.
  destruct (components s !! c) eqn:E; [reflexivity|].
  apply lookup_ge_None in E. lia.
Qed.

Lemma get_upd_comp_other c d f s :
  c <> d -> get_comp (upd_comp c f s) d = get_comp s d.
Proof.
  intros H. unfold get_comp, upd_comp. simpl.
  rewrite list_lookup_alter_ne by done. reflexivity.
Qed.

Lemma length_upd_comp c f s : length (components (upd_comp c f s)) = length (components s).
Proof. unfold upd_comp. simpl. apply length_alter. Qed.

Lemma strict_neq_undef x : x <> VUndef -> strict_neq x VUndef = true.
Proof. intros H. destruct x; try reflexivity. congruence. Qed.

Lemma strict_eq_true x y : strict_eq x y = true -> x = y.
Proof.
  unfold strict_eq. intros H.
  destruct x; destruct y; try discriminate; try reflexivity;
    apply bool_decide_eq_true in H; exact H.
Qed.

(** * The scheduler *)

Lemma enqueueRender_queue (c : cid) (s : store) :
  fst (enqueueRender c s) = Ret tt
  /\ components (snd (enqueueRender c s))
     = (if Comp._dirty (get_comp s c) then components s
        else alter (CompSet._dirty true) c (components s))
  /\ rerenderQueue (snd (enqueueRender c s))
     = (if Comp._dirty (get_comp s c) then rerenderQueue s else rerenderQueue s ++ [c]).
Proof.
  unfold enqueueRender.
  destruct (Comp._dirty (get_comp s c)) eqn:Hd; simpl.
  - destruct (bool_decide (prevDebounce s = debounceRendering s)); simpl;
      repeat split; reflexivity.
  - destruct (rerenderCount s); simpl.
    + repeat split; reflexivity.
    + destruct (bool_decide (prevDebounce s = debounceRendering s)); simpl;
        repeat split; reflexivity.
Qed.

(** C7 (amended): [enqueueRender(c)] leaves [c] and the queue alone when
    [c] is already dirty, and otherwise marks it dirty, appends it to the
    queue and counts it; in both cases it hands a flush to the batching
    strategy exactly when [c] was clean and the pending counter
    [rerenderCount] was zero, or the strategy differs from the one used for
    the last scheduling.  So it is a no-op on a dirty instance only while
    the strategy is unchanged.  It never runs the flush itself, and touches
    nothing else. *)
Theorem enqueueRender_marks_and_schedules (c : cid) (s : store) :
  let s' := snd (enqueueRender c s) in
  let was_dirty := Comp._dirty (get_comp s c) in
  let flush := (negb was_dirty && Nat.eqb (rerenderCount s) 0)
               || negb (bool_decide (prevDebounce s = debounceRendering s)) in
  fst (enqueueRender c s) = Ret tt
  /\ components s' = (if was_dirty then components s
                      else alter (CompSet._dirty true) c (components s))
  /\ rerenderQueue s' = (if was_dirty then rerenderQueue s else rerenderQueue s ++ [c])
  /\ rerenderCount s' = (if was_dirty then rerenderCount s else S (rerenderCount s))
  /\ scheduled s' = (if flush then scheduled s ++ [debounceRendering s] else scheduled s)
  /\ prevDebounce s' = (if flush then debounceRendering s else prevDebounce s)
  /\ debounceRendering s' = debounceRendering s
  /\ vnodes s' = vnodes s /\ objects s' = objects s /\ arrays s' = arrays s
  /\ commitQueue s' = commitQueue s
  /\ (was_dirty = true -> prevDebounce s = debounceRendering s -> s' = s).
Proof.
  unfold enqueueRender.
  destruct (Comp._dirty (get_comp s c)) eqn:Hd; simpl.
  - destruct (bool_decide (prevDebounce s = debounceRendering s)) eqn:Hp; simpl.
    + repeat split; reflexivity.
    + repeat split; try reflexivity.
      intros _ He. apply bool_decide_eq_false in Hp. contradiction.
  - destruct (rerenderCount s) eqn:Hn; simpl.
    + repeat split; try reflexivity. discriminate.
    + destruct (bool_decide (prevDebounce s = debounceRendering s)) eqn:Hp; simpl;
        repeat split; try reflexivity; discriminate.
Qed.

Section Facts.
Variable classes : fid -> class_decl.
Variable call : fid -> jsval -> list jsval -> U jsval.
Variable diffChildren :
  did -> vid -> option vid -> jsval -> bool -> option aid -> olddom -> bool ->
  store -> res unit * store * list domop.
Variable diffElementNodes :
  domv -> vid -> option vid -> jsval -> bool -> option aid -> bool ->
  store -> res domv * store * list domop.
Variable ownerSVGElement_defined : did -> bool.

(** * [diff]: objects that are not vnodes, and unchanged host vnodes *)

(** C10: when [newVNode.constructor] is not [undefined], [diff] returns
    [null] at once: the store is unchanged and no event is issued (no
    lifecycle method, no render, no child diff, no host operation). *)
Theorem diff_rejects_foreign_constructor fuel parentDom newVNode oldVNode globalContext isSvg
    excessDomChildren oldDom isHydrating s :
  VNode.constructor (get_vnode s newVNode) <> VUndef ->
  diff classes call diffChildren diffElementNodes fuel parentDom newVNode oldVNode globalContext
    isSvg excessDomChildren oldDom isHydrating s = (Ret DNull, s, []).
Proof.
  intros H. unfold diff. msimpl.
  rewrite (strict_neq_undef _ H). reflexivity.
Qed.

Lemma old_dom_after_children newVNode oldVNode ch s :
  VNode._dom (old_vnode (upd_vnode newVNode (VNodeSet._children ch) s) oldVNode)
  = VNode._dom (old_vnode s oldVNode).
Proof.
  destruct oldVNode as [o|]; [|reflexivity]. cbn [old_vnode].
  destruct (decide (newVNode = o)) as [->|Hne].
  - unfold get_vnode, upd_vnode. simpl. rewrite list_lookup_alter_eq.
    destruct (vnodes s !! o); reflexivity.
  - rewrite get_upd_vnode_other by assumption. reflexivity.
Qed.

(** C5: for a host-tag or text vnode created by [createVNode], diffed with
    no excess host children against an old vnode with the same
    [_original], [diff] issues no event at all (neither [diffElementNodes]
    nor [diffChildren] runs, so no adapter call is made); it only copies
    [_children] and [_dom] from the old vnode and returns that [_dom]. *)
Theorem diff_same_original_skips fuel parentDom newVNode oldVNode globalContext isSvg oldDom
    isHydrating s :
  newVNode < length (vnodes s) ->
  VNode.constructor (get_vnode s newVNode) = VUndef ->
  (forall f, VNode.type (get_vnode s newVNode) <> TyFun f) ->
  VNode._component (get_vnode s newVNode) = None ->
  strict_eq (VNode._original (get_vnode s newVNode)) (VNode._original (old_vnode s oldVNode))
    = true ->
  diff classes call diffChildren diffElementNodes fuel parentDom newVNode oldVNode globalContext
    isSvg None oldDom isHydrating s
  = (Ret (VNode._dom (old_vnode s oldVNode)),
     upd_vnode newVNode (VNodeSet._dom (VNode._dom (old_vnode s oldVNode)))
       (upd_vnode newVNode (VNodeSet._children (VNode._children (old_vnode s oldVNode))) s),
     []).
Proof.
  intros Hlt Hc Hty Hcomp Hst.
  unfold diff. msimpl. rewrite Hc.
  change (strict_neq VUndef VUndef) with false. cbv iota beta.
  destruct (VNode.type (get_vnode s newVNode)) eqn:Et; [| |exfalso; eapply Hty; reflexivity].
  all: rewrite Hst; cbn [negb is_Some_b andb]; cbv iota beta.
  all: unfold options_diffed.
  all: rewrite old_dom_after_children.
  all: rewrite !get_upd_vnode_same by (rewrite ?length_upd_vnode; assumption).
  all: cbn [VNode._component VNodeSet._dom VNodeSet._children VNode._dom].
  all: rewrite Hcomp; cbv iota beta.
  all: rewrite !get_upd_vnode_same by (rewrite ?length_upd_vnode; assumption).
  all: reflexivity.
Qed.


(** * State cells *)

Lemma get_upd_comp_field {A} (proj : Comp.t -> A) (f : Comp.t -> Comp.t) c d s :
  (forall x, proj (f x) = proj x) ->
  proj (get_comp (upd_comp c f s) d) = proj (get_comp s d).
Proof.
  intros Hf. unfold get_comp, upd_comp. simpl.
  destruct (decide (c = d)) as [->|Hne].
  - rewrite list_lookup_alter_eq. destruct (components s !! d); simpl; [apply Hf|reflexivity].
  - rewrite list_lookup_alter_ne by assumption. reflexivity.
Qed.

Lemma get_object_alloc m s :
  get_object (snd (alloc_object m s)) (fst (alloc_object m s)) = m.
Proof.
  unfold get_object, alloc_object. simpl.
  rewrite lookup_app_r by lia. rewrite Nat.sub_diag. reflexivity.
Qed.

Lemma get_object_alloc_old m s o :
  o < length (objects s) -> get_object (snd (alloc_object m s)) o = get_object s o.
Proof.
  intros H. unfold get_object, alloc_object. simpl.
  rewrite lookup_app_l by assumption. reflexivity.
Qed.

Lemma map_to_list_empty_b : bool_decide (map_to_list (∅ : gmap string jsval) = []) = true.
Proof. apply bool_decide_eq_true. apply map_to_list_empty. Qed.

(** [assign(obj, props)] with no property to copy changes nothing. *)
Lemma assign_nothing obj props s :
  own_props s props = ∅ -> assign obj props s = (Ret obj, s).
Proof.
  intros H. unfold assign. rewrite H, map_to_list_empty_b. reflexivity.
Qed.

Lemma assign_fresh_ret props s :
  fst (assign (VObj (length (objects s))) props (snd (alloc_object ∅ s)))
  = Ret (VObj (length (objects s))).
Proof.
  unfold assign. destruct (bool_decide _); reflexivity.
Qed.

Lemma assign_objects_length obj props s :
  length (objects (snd (assign obj props s))) = length (objects s).
Proof.
  unfold assign. destruct (bool_decide _); [reflexivity|].
  destruct obj; try reflexivity. unfold upd_object. simpl. apply length_alter.
Qed.

Lemma assign_get_object_other obj props s o :
  obj <> VObj o -> get_object (snd (assign obj props s)) o = get_object s o.
Proof.
  intros H. unfold assign. destruct (bool_decide _); [reflexivity|].
  destruct obj; try reflexivity. unfold upd_object, get_object. simpl.
  rewrite list_lookup_alter_ne by congruence. reflexivity.
Qed.

Lemma assign_components obj props s : components (snd (assign obj props s)) = components s.
Proof.
  unfold assign. destruct (bool_decide _); [reflexivity|].
  destruct obj; reflexivity.
Qed.

Lemma assign_rerenderQueue obj props s :
  rerenderQueue (snd (assign obj props s)) = rerenderQueue s.
Proof.
  unfold assign. destruct (bool_decide _); [reflexivity|].
  destruct obj; reflexivity.
Qed.

Lemma get_comp_components s s' c : components s' = components s -> get_comp s' c = get_comp s c.
Proof. unfold get_comp. intros ->. reflexivity. Qed.

Lemma setState_empty_object c o s :
  o < length (objects s) -> get_object s o = ∅ ->
  setState call c (VObj o) None s
  = match Comp._vnode (get_comp s c) with
    | Some _ => enqueueRender c (stage c s)
    | None => (Ret tt, stage c s)
    end.
Proof.
  intros Ho He. unfold setState, stage. msimpl.
  destruct (strict_neq (Comp._nextState (get_comp s c)) (Comp.state (get_comp s c))) eqn:Hs.
  - cbn [truthy]. rewrite assign_nothing by exact He. cbn [is_nullish].
    unfold push_callback. msimpl. destruct (Comp._vnode (get_comp s c)); reflexivity.
  - cbn [alloc_object].
    pose proof (assign_fresh_ret (Comp.state (get_comp s c)) s) as Hf.
    cbn [alloc_object snd] in Hf.
    destruct (assign (VObj (length (objects s))) (Comp.state (get_comp s c))
                (set_objects (objects s ++ [∅]) s)) as [r sa] eqn:Ha.
    cbn [fst] in Hf. subst r. cbn [snd truthy].
    assert (Hsa : get_object sa o = ∅).
    { replace sa with (snd (assign (VObj (length (objects s))) (Comp.state (get_comp s c))
                (set_objects (objects s ++ [∅]) s))) by (rewrite Ha; reflexivity).
      rewrite assign_get_object_other by (intros [=]; lia).
      rewrite <- He. apply (get_object_alloc_old ∅ s o Ho). }
    rewrite assign_nothing by exact Hsa. cbn [is_nullish].
    assert (Hv : Comp._vnode (get_comp (upd_comp c (CompSet._nextState (VObj (length (objects s)))) sa) c)
                 = Comp._vnode (get_comp s c)).
    { rewrite get_upd_comp_field by reflexivity.
      f_equal. apply get_comp_components.
      replace sa with (snd (assign (VObj (length (objects s))) (Comp.state (get_comp s c))
                (set_objects (objects s ++ [∅]) s))) by (rewrite Ha; reflexivity).
      rewrite assign_components. reflexivity. }
    rewrite Hv. unfold push_callback. msimpl.
    destruct (Comp._vnode (get_comp s c)); reflexivity.
Qed.

Lemma stage_hooks c d s : Comp.__hooks (get_comp (stage c s) d) = Comp.__hooks (get_comp s d).
Proof.
  unfold stage. destruct (strict_neq _ _); [reflexivity|].
  cbn [alloc_object]. rewrite get_upd_comp_field by reflexivity.
  f_equal. apply get_comp_components. rewrite assign_components. reflexivity.
Qed.

Lemma stage_rerenderQueue c s : rerenderQueue (stage c s) = rerenderQueue s.
Proof.
  unfold stage. destruct (strict_neq _ _); [reflexivity|].
  cbn [alloc_object]. unfold upd_comp. simpl. rewrite assign_rerenderQueue. reflexivity.
Qed.

Lemma stage_dirty c d s : Comp._dirty (get_comp (stage c s) d) = Comp._dirty (get_comp s d).
Proof.
  unfold stage. destruct (strict_neq _ _); [reflexivity|].
  cbn [alloc_object]. rewrite get_upd_comp_field by reflexivity.
  f_equal. apply get_comp_components. rewrite assign_components. reflexivity.
Qed.

Lemma enqueueRender_hooks c d s :
  Comp.__hooks (get_comp (snd (enqueueRender c s)) d) = Comp.__hooks (get_comp s d).
Proof.
  destruct (enqueueRender_queue c s) as (_ & Hc & _).
  unfold get_comp at 1. rewrite Hc.
  destruct (Comp._dirty (get_comp s c)); [reflexivity|].
  change (Comp.__hooks (get_comp (upd_comp c (CompSet._dirty true) s) d)
          = Comp.__hooks (get_comp s d)).
  apply get_upd_comp_field. reflexivity.
Qed.

(** C9: for a state cell, once the reducer has returned [nextValue]: if it
    is identical ([!==] is false) to the value the cell holds, the setter
    changes nothing at all (the cell keeps its value and nothing is
    enqueued); otherwise the setter stores [nextValue] in the cell and calls
    [setState({})] on the owning instance, which appends the owner to the
    render queue when it is mounted and not yet dirty. *)
Theorem setter_rerenders_only_on_change c i action s value r nextValue s1 current r' owner :
  Hook._value (get_cell s c i) = Hook.State value r ->
  apply_reducer call r value action s = (Ret nextValue, s1) ->
  Hook._value (get_cell s1 c i) = Hook.State current r' ->
  Hook._component (get_cell s1 c i) = Some owner ->
  let result := dispatch call c i action s in
  (strict_neq current nextValue = false -> result = (Ret tt, s1))
  /\ (strict_neq current nextValue = true ->
      fst result = Ret tt
      /\ Hook._value (get_cell (snd result) c i) = Hook.State nextValue r'
      /\ rerenderQueue (snd result)
         = (if is_Some_b (Comp._vnode (get_comp s1 owner)) && negb (Comp._dirty (get_comp s1 owner))
            then rerenderQueue s1 ++ [owner] else rerenderQueue s1)).
Proof.
  intros Hcell Hred Hcell1 Howner result. subst result.
  unfold dispatch. msimpl. rewrite Hcell, Hred. cbv iota beta. rewrite Hcell1, Howner.
  split.
  - intros ->. reflexivity.
  - intros ->. cbn [alloc_object].
    set (s2 := upd_cell c i _ s1).
    assert (Hobj : objects s2 = objects s1) by reflexivity.
    rewrite setState_empty_object; cycle 1.
    { simpl. rewrite length_app. simpl. lia. }
    { unfold get_object. simpl. rewrite lookup_app_r by lia. rewrite Nat.sub_diag. reflexivity. }
    set (s3 := set_objects (objects s2 ++ [∅]) s2).
    assert (Hh : forall d, Comp.__hooks (get_comp s3 d) = Comp.__hooks (get_comp s2 d)) by reflexivity.
    assert (Hcellv : forall sx, (forall d, Comp.__hooks (get_comp sx d) = Comp.__hooks (get_comp s2 d)) ->
               Hook._value (get_cell sx c i) = Hook.State nextValue r').
    { intros sx Hsx. unfold get_cell. rewrite Hsx. subst s2.
      unfold get_cell in Hcell1. unfold upd_cell.
      destruct (decide (c < length (components s1))) as [Hlt|Hge].
      - rewrite get_upd_comp_same by assumption.
        destruct (Comp.__hooks (get_comp s1 c)) as [h|] eqn:Eh; [|discriminate Hcell1].
        cbn [Comp.__hooks CompSet.__hooks _list].
        rewrite list_lookup_alter_eq.
        destruct (_list h !! i) eqn:El; [reflexivity|discriminate Hcell1].
      - exfalso. unfold get_comp in Hcell1.
        rewrite (proj2 (lookup_ge_None _ _)) in Hcell1 by lia. discriminate Hcell1. }
    assert (Hv : Comp._vnode (get_comp s3 owner) = Comp._vnode (get_comp s1 owner)).
    { change (get_comp s3 owner) with (get_comp s2 owner). subst s2. unfold upd_cell.
      apply get_upd_comp_field. intros x. destruct (Comp.__hooks x); reflexivity. }
    assert (Hd : Comp._dirty (get_comp s3 owner) = Comp._dirty (get_comp s1 owner)).
    { change (get_comp s3 owner) with (get_comp s2 owner). subst s2. unfold upd_cell.
      apply get_upd_comp_field. intros x. destruct (Comp.__hooks x); reflexivity. }
    assert (Hq : rerenderQueue s3 = rerenderQueue s1) by reflexivity.
    rewrite Hv.
    destruct (Comp._vnode (get_comp s1 owner)) as [v|] eqn:Ev; cbn [is_Some_b andb].
    + destruct (enqueueRender_queue owner (stage owner s3)) as (Hr & _ & Hqq).
      cbv zeta in Hr, Hqq. rewrite stage_dirty, stage_rerenderQueue, Hd, Hq in Hqq.
      split; [exact Hr|]. split.
      * apply Hcellv. intros d. rewrite enqueueRender_hooks, stage_hooks. apply Hh.
      * rewrite Hqq. destruct (Comp._dirty (get_comp s1 owner)); reflexivity.
    + split; [reflexivity|]. split.
      * apply Hcellv. intros d. cbn [snd]. rewrite stage_hooks. apply Hh.
      * cbn [snd]. rewrite stage_rerenderQueue. exact Hq.
Qed.

(** * [setState] on a staged state *)

Lemma stage_staged c s n :
  c < length (components s) -> n < length (objects s) ->
  Comp._nextState (get_comp s c) = VObj n ->
  let staged := if strict_neq (VObj n) (Comp.state (get_comp s c)) then n
                else length (objects s) in
  Comp._nextState (get_comp (stage c s) c) = VObj staged
  /\ Comp.state (get_comp (stage c s) c) = Comp.state (get_comp s c)
  /\ get_object (stage c s) staged = get_object s n
  /\ (forall o, o < length (objects s) -> get_object (stage c s) o = get_object s o)
  /\ staged < length (objects (stage c s))
  /\ length (objects s) <= length (objects (stage c s)).
Proof.
  intros Hc Hn Hnext. cbv zeta. unfold stage. rewrite Hnext.
  destruct (strict_neq (VObj n) (Comp.state (get_comp s c))) eqn:Hs.
  - repeat split; auto.
  - assert (Hst : Comp.state (get_comp s c) = VObj n).
    { unfold strict_neq in Hs. apply negb_false_iff in Hs. symmetry. apply strict_eq_true. exact Hs. }
    cbn [alloc_object].
    set (s1 := set_objects (objects s ++ [∅]) s).
    set (L := length (objects s)).
    assert (Hlen : length (objects (snd (assign (VObj L) (Comp.state (get_comp s c)) s1))) = S L).
    { rewrite assign_objects_length. unfold s1. simpl. rewrite length_app. simpl. unfold L. lia. }
    split; [|split; [|split; [|split; [|split]]]].
    + rewrite get_upd_comp_same; [reflexivity|]. rewrite assign_components. exact Hc.
    + rewrite (get_upd_comp_field Comp.state) by reflexivity.
      f_equal. apply get_comp_components. rewrite assign_components. reflexivity.
    + unfold upd_comp, get_object. cbn [objects set_components].
      rewrite Hst. unfold assign. cbn [own_props].
      assert (Hg : get_object s1 n = get_object s n) by (apply (get_object_alloc_old ∅ s n Hn)).
      rewrite Hg.
      assert (Hl : objects s1 !! L = Some ∅).
      { unfold s1. simpl. rewrite lookup_app_r by (unfold L; lia).
        unfold L. rewrite Nat.sub_diag. reflexivity. }
      destruct (bool_decide (map_to_list (get_object s n) = [])) eqn:Hb.
      * apply bool_decide_eq_true in Hb. apply map_to_list_empty_iff in Hb.
        cbn [snd]. rewrite Hl. cbn [default from_option id]. fold (get_object s n). 
        rewrite Hb. reflexivity.
      * cbn [snd]. unfold upd_object.
        change (objects (set_objects ?l _)) with l.
        rewrite list_lookup_alter_eq, Hl. cbn [fmap option_fmap option_map default from_option id].
        fold (get_object s n). apply (right_id_L ∅ (∪)).
    + intros o Ho. unfold upd_comp, get_object. cbn [objects set_components].
      fold (get_object (snd (assign (VObj L) (Comp.state (get_comp s c)) s1)) o).
      rewrite assign_get_object_other by (intros [=]; unfold L in *; lia).
      apply (get_object_alloc_old ∅ s o Ho).
    + unfold upd_comp. cbn [objects set_components]. rewrite Hlen. unfold L. lia.
    + unfold upd_comp. cbn [objects set_components]. rewrite Hlen. unfold L. lia.
Qed.


Lemma setState_after_staging c update callback s n update' :
  c < length (components s) -> n < length (objects s) ->
  Comp._nextState (get_comp s c) = VObj n ->
  let staged := if strict_neq (VObj n) (Comp.state (get_comp s c)) then n
                else length (objects s) in
  match update with
  | VFun f => call f VUndef [VObj staged; Comp.props (get_comp (stage c s) c)] (stage c s)
              = (Ret update', stage c s)
  | _ => update' = update
  end ->
  setState call c update callback s
  = let s2 := if truthy update' then snd (assign (VObj staged) update' (stage c s))
              else stage c s in
    if is_nullish update' then (Ret tt, stage c s)
    else match Comp._vnode (get_comp s2 c) with
         | Some _ => enqueueRender c (snd (push_callback c callback s2))
         | None => (Ret tt, s2)
         end.
Proof.
  intros Hc Hn Hnext staged Hupd.
  destruct (stage_staged c s n Hc Hn Hnext) as (Hst & _ & _ & _ & Hlt & _).
  fold staged in Hst, Hlt.
  assert (Hpre :
    (if strict_neq (Comp._nextState (get_comp s c)) (Comp.state (get_comp s c))
     then uret (Comp._nextState (get_comp s c))
     else ubind (ualloc (alloc_object ∅)) (fun o =>
          ubind (assign (VObj o) (Comp.state (get_comp s c))) (fun _ =>
          ubind (umodify (upd_comp c (CompSet._nextState (VObj o)))) (fun _ =>
          uret (VObj o))))) s = (Ret (VObj staged), stage c s)).
  { unfold staged, stage. rewrite Hnext.
    destruct (strict_neq (VObj n) (Comp.state (get_comp s c))); [reflexivity|].
    msimpl. cbn [alloc_object].
    pose proof (assign_fresh_ret (Comp.state (get_comp s c)) s) as Hf.
    cbn [alloc_object snd] in Hf.
    destruct (assign _ _ _) as [r sa]. cbn [fst] in Hf. subst r. reflexivity. }
  unfold setState. unfold ubind at 1. unfold uget at 1. unfold ubind at 1.
  rewrite Hpre. cbv zeta.
  assert (Hassign : forall u, fst (assign (VObj staged) u (stage c s)) = Ret (VObj staged)).
  { intros u. unfold assign. destruct (bool_decide _); reflexivity. }
  assert (Htail : forall u,
    ubind (uret u)
      (fun update0 =>
       ubind (if truthy update0 then ubind (assign (VObj staged) update0) (fun _ => uret tt)
              else uret tt)
         (fun _ =>
          if is_nullish update0 then uret tt
          else ubind uget (fun s2 =>
               match Comp._vnode (get_comp s2 c) with
               | Some _ => ubind (push_callback c callback) (fun _ => enqueueRender c)
               | None => uret tt
               end))) (stage c s)
    = (let s2 := if truthy u then snd (assign (VObj staged) u (stage c s)) else stage c s in
       if is_nullish u then (Ret tt, stage c s)
       else match Comp._vnode (get_comp s2 c) with
            | Some _ => enqueueRender c (snd (push_callback c callback s2))
            | None => (Ret tt, s2)
            end)).
  { intros u. cbv zeta.
    assert (Hpush : forall s0, fst (push_callback c callback s0) = Ret tt).
    { intros s0. unfold push_callback. destruct callback; reflexivity. }
    destruct (truthy u) eqn:Ht.
    - assert (Hn0 : is_nullish u = false) by (destruct u; try discriminate; reflexivity).
      rewrite Hn0.
      transitivity (ubind (ubind (assign (VObj staged) u) (fun _ => uret tt))
         (fun _ => ubind uget (fun s2 =>
               match Comp._vnode (get_comp s2 c) with
               | Some _ => ubind (push_callback c callback) (fun _ => enqueueRender c)
               | None => uret tt
               end)) (stage c s)).
      { destruct u; msimpl; rewrite ?Ht, ?Hn0; reflexivity. }
      msimpl. specialize (Hassign u).
      destruct (assign (VObj staged) u (stage c s)) as [r sa]. cbn [fst] in Hassign. subst r.
      cbn [snd]. destruct (Comp._vnode (get_comp sa c)); [|reflexivity].
      specialize (Hpush sa). destruct (push_callback c callback sa) as [r sp].
      cbn [fst] in Hpush. subst r. reflexivity.
    - transitivity (ubind (uret tt)
         (fun _ => if is_nullish u then uret tt
          else ubind uget (fun s2 =>
               match Comp._vnode (get_comp s2 c) with
               | Some _ => ubind (push_callback c callback) (fun _ => enqueueRender c)
               | None => uret tt
               end)) (stage c s)).
      { destruct u; msimpl; rewrite ?Ht; reflexivity. }
      msimpl. destruct (is_nullish u); [reflexivity|].
      destruct (Comp._vnode (get_comp (stage c s) c)); [|reflexivity].
      specialize (Hpush (stage c s)). destruct (push_callback c callback (stage c s)) as [r sp].
      cbn [fst] in Hpush. subst r. reflexivity. }
  destruct update as [| |b|z| |str|o|f|v|c0|a|d|e].
  1-7, 9-13: subst update'; apply (Htail _).
  (* a function *)
  etransitivity; [|apply (Htail update')].
  unfold ubind at 1. unfold ubind at 1. unfold uget at 1. rewrite Hupd.
  reflexivity.
Qed.


Lemma stage_comp_field {A} (proj : Comp.t -> A) c d s :
  (forall v x, proj (CompSet._nextState v x) = proj x) ->
  proj (get_comp (stage c s) d) = proj (get_comp s d).
Proof.
  intros Hp. unfold stage. destruct (strict_neq _ _); [reflexivity|].
  cbn [alloc_object]. rewrite (get_upd_comp_field proj) by (intros x; apply Hp).
  f_equal. apply get_comp_components. rewrite assign_components. reflexivity.
Qed.

Lemma enqueueRender_comp_field {A} (proj : Comp.t -> A) c d s :
  (forall x, proj (CompSet._dirty true x) = proj x) ->
  proj (get_comp (snd (enqueueRender c s)) d) = proj (get_comp s d).
Proof.
  intros Hp. destruct (enqueueRender_queue c s) as (_ & Hc & _).
  unfold get_comp at 1. rewrite Hc.
  destruct (Comp._dirty (get_comp s c)); [reflexivity|].
  change (proj (get_comp (upd_comp c (CompSet._dirty true) s) d) = proj (get_comp s d)).
  apply get_upd_comp_field. exact Hp.
Qed.

Lemma enqueueRender_objects c s : objects (snd (enqueueRender c s)) = objects s.
Proof.
  unfold enqueueRender.
  destruct (Comp._dirty (get_comp s c)); simpl.
  - destruct (bool_decide _); reflexivity.
  - destruct (rerenderCount s); simpl; [reflexivity|]. destruct (bool_decide _); reflexivity.
Qed.

Lemma push_callback_effect c callback s :
  c < length (components s) ->
  let s' := snd (push_callback c callback s) in
  objects s' = objects s
  /\ rerenderQueue s' = rerenderQueue s
  /\ Comp._renderCallbacks (get_comp s' c)
     = Comp._renderCallbacks (get_comp s c) ++ callback_entry callback
  /\ Comp._dirty (get_comp s' c) = Comp._dirty (get_comp s c)
  /\ Comp._nextState (get_comp s' c) = Comp._nextState (get_comp s c)
  /\ Comp.state (get_comp s' c) = Comp.state (get_comp s c).
Proof.
  intros Hc. unfold push_callback. destruct callback as [cb|]; cbn [callback_entry].
  - unfold umodify. cbn [snd]. repeat split; try reflexivity.
    + rewrite get_upd_comp_same by exact Hc. reflexivity.
    + rewrite get_upd_comp_same by exact Hc. reflexivity.
    + rewrite get_upd_comp_same by exact Hc. reflexivity.
    + rewrite get_upd_comp_same by exact Hc. reflexivity.
  - cbn [uret snd]. rewrite app_nil_r. repeat split; reflexivity.
Qed.

(** X1: [setState] on an instance whose staged state is an object (as it
    is once [diff] has processed the instance).  [update'] is the partial
    state: the argument itself, or what the function argument returns when
    called with the staged state and the props.  The staged state is the
    old staged object if it already differs from [state], and a fresh clone
    of [state] otherwise; [update'] is merged into it, its properties
    winning; [state] and every other object are left alone.  A re-render is
    requested (the callback recorded, the instance enqueued unless it is
    dirty already) exactly when [update'] is not [null] or [undefined] and
    the instance is mounted. *)
Theorem setState_merges_into_staged_state c update callback s n update' :
  c < length (components s) -> n < length (objects s) ->
  Comp._nextState (get_comp s c) = VObj n ->
  match update with
  | VFun f =>
      call f VUndef
        [VObj (if strict_neq (VObj n) (Comp.state (get_comp s c)) then n
               else length (objects s));
         Comp.props (get_comp (stage c s) c)] (stage c s)
      = (Ret update', stage c s)
  | _ => update' = update
  end ->
  (update' = VUndef \/ update' = VNull
   \/ exists o, update' = VObj o /\ o < length (objects s)) ->
  let staged := if strict_neq (VObj n) (Comp.state (get_comp s c)) then n
                else length (objects s) in
  let requested := negb (is_nullish update') && is_Some_b (Comp._vnode (get_comp s c)) in
  let s' := snd (setState call c update callback s) in
  fst (setState call c update callback s) = Ret tt
  /\ Comp._nextState (get_comp s' c) = VObj staged
  /\ Comp.state (get_comp s' c) = Comp.state (get_comp s c)
  /\ get_object s' staged = own_props s update' ∪ get_object s n
  /\ (forall o, o < length (objects s) -> o <> staged -> get_object s' o = get_object s o)
  /\ rerenderQueue s'
     = (if requested && negb (Comp._dirty (get_comp s c)) then rerenderQueue s ++ [c]
        else rerenderQueue s)
  /\ Comp._renderCallbacks (get_comp s' c)
     = (if requested then Comp._renderCallbacks (get_comp s c) ++ callback_entry callback
        else Comp._renderCallbacks (get_comp s c)).
Proof.
  intros Hc Hn Hnext Hupd Hshape staged requested.
  rewrite (setState_after_staging c update callback s n update' Hc Hn Hnext Hupd).
  fold staged.
  destruct (stage_staged c s n Hc Hn Hnext) as (Hst & Hstate & Hobj & Hold & Hlt & Hle).
  fold staged in Hst, Hobj, Hlt.
  set (s1 := stage c s) in *.
  assert (Hc1 : c < length (components s1)).
  { unfold s1, stage.
    destruct (strict_neq (Comp._nextState (get_comp s c)) (Comp.state (get_comp s c)));
      [exact Hc|].
    cbn [alloc_object]. rewrite length_upd_comp, assign_components. exact Hc. }
  assert (Hv1 : Comp._vnode (get_comp s1 c) = Comp._vnode (get_comp s c))
    by (apply (stage_comp_field Comp._vnode); reflexivity).
  assert (Hd1 : Comp._dirty (get_comp s1 c) = Comp._dirty (get_comp s c))
    by (apply (stage_comp_field Comp._dirty); reflexivity).
  assert (Hcb1 : Comp._renderCallbacks (get_comp s1 c) = Comp._renderCallbacks (get_comp s c))
    by (apply (stage_comp_field Comp._renderCallbacks); reflexivity).
  assert (Hq1 : rerenderQueue s1 = rerenderQueue s) by apply stage_rerenderQueue.
  destruct Hshape as [->|[->|(o & -> & Ho)]].
  - (* undefined: dropped *)
    cbv zeta. cbn [is_nullish truthy fst snd own_props]. subst requested. cbn [negb andb].
    rewrite (left_id_L ∅ (∪)).
    repeat split; auto.
  - cbv zeta. cbn [is_nullish truthy fst snd own_props]. subst requested. cbn [negb andb].
    rewrite (left_id_L ∅ (∪)).
    repeat split; auto.
  - (* an object *)
    cbv zeta. cbn [is_nullish truthy own_props]. subst requested. cbn [negb andb].
    set (s2 := snd (assign (VObj staged) (VObj o) s1)).
    assert (Hcomp2 : components s2 = components s1) by apply assign_components.
    assert (Hg2 : forall d, get_comp s2 d = get_comp s1 d)
      by (intros d; apply get_comp_components; exact Hcomp2).
    assert (Hq2 : rerenderQueue s2 = rerenderQueue s1) by apply assign_rerenderQueue.
    assert (Hc2 : c < length (components s2)) by (rewrite Hcomp2; exact Hc1).
    assert (Hm2 : get_object s2 staged = get_object s o ∪ get_object s n).
    { unfold s2, assign. cbn [own_props]. rewrite (Hold o Ho).
      destruct (bool_decide (map_to_list (get_object s o) = [])) eqn:Hb.
      - apply bool_decide_eq_true in Hb. apply map_to_list_empty_iff in Hb.
        cbn [snd]. rewrite Hb, (left_id_L ∅ (∪)). exact Hobj.
      - cbn [snd]. unfold upd_object, get_object.
        change (objects (set_objects ?l _)) with l.
        rewrite list_lookup_alter_eq.
        destruct (objects s1 !! staged) as [m|] eqn:El.
        + assert (Hm : m = get_object s n).
          { rewrite <- Hobj. unfold get_object. rewrite El. reflexivity. }
          rewrite Hm. reflexivity.
        + apply lookup_ge_None in El. lia. }
    assert (Ho2 : forall o', o' < length (objects s) -> o' <> staged ->
                             get_object s2 o' = get_object s o').
    { intros o' Ho' Hne. unfold s2. rewrite assign_get_object_other by congruence.
      apply Hold. exact Ho'. }
    rewrite Hg2, Hv1.
    destruct (Comp._vnode (get_comp s c)) as [v|]; cbn [is_Some_b].
    + destruct (push_callback_effect c callback s2 Hc2) as (Hpo & Hpq & Hpc & Hpd & Hpn & Hps).
      set (s3 := snd (push_callback c callback s2)) in *.
      destruct (enqueueRender_queue c s3) as (Hr & _ & Hqq).
      split; [exact Hr|].
      split; [rewrite (enqueueRender_comp_field Comp._nextState) by reflexivity;
              rewrite Hpn, Hg2; exact Hst|].
      split; [rewrite (enqueueRender_comp_field Comp.state) by reflexivity;
              rewrite Hps, Hg2; exact Hstate|].
      split; [unfold get_object; rewrite enqueueRender_objects, Hpo; exact Hm2|].
      split; [intros o' Ho' Hne; unfold get_object; rewrite enqueueRender_objects, Hpo;
              apply Ho2; assumption|].
      split.
      * rewrite Hqq, Hpd, Hg2, Hd1, Hpq, Hq2, Hq1.
        destruct (Comp._dirty (get_comp s c)); reflexivity.
      * rewrite (enqueueRender_comp_field Comp._renderCallbacks) by reflexivity.
        rewrite Hpc, Hg2, Hcb1. reflexivity.
    + cbn [fst snd]. fold s2.
      split; [reflexivity|].
      split; [rewrite Hg2; exact Hst|].
      split; [rewrite Hg2; exact Hstate|].
      split; [exact Hm2|].
      split; [exact Ho2|].
      split; [rewrite Hq2; exact Hq1|].
      rewrite Hg2. exact Hcb1.
Qed.

(** * The recovery walk *)

Lemma try_boundary_undeclared c error s :
  declares_handler (class_of classes s c) = false ->
  try_boundary classes call c error false s = (Ret (Continue error false), s, []).
Proof.
  unfold declares_handler. intros H. apply orb_false_iff in H as [Hg Hd].
  unfold try_boundary. msimpl.
  destruct (getDerivedStateFromError (class_of classes s c)); [discriminate|].
  destruct (componentDidCatch (class_of classes s c)); [discriminate|].
  reflexivity.
Qed.

(** A boundary that declares [componentDidCatch] only, and whose handler
    returns. *)
Lemma try_boundary_componentDidCatch c error hasCaught s f v s1 :
  getDerivedStateFromError (class_of classes s c) = None ->
  componentDidCatch (class_of classes s c) = Some f ->
  call f (VComp c) [error] s = (Ret v, s1) ->
  try_boundary classes call c error hasCaught s
  = (Ret Handled, snd (enqueueRender c (upd_comp c (CompSet._pendingError (Some c)) s1)),
     [EvCall c McomponentDidCatch [error]]).
Proof.
  intros Hg Hd Hcall. unfold try_boundary, ecall. msimpl. rewrite Hg, Hd. msimpl.
  rewrite Hcall. cbv iota beta.
  destruct (enqueueRender_queue c (upd_comp c (CompSet._pendingError (Some c)) s1)) as (Hr & _).
  destruct (enqueueRender c _) as [r s2]. cbn [fst] in Hr. subst r. reflexivity.
Qed.

(** A boundary whose [componentDidCatch] throws: the walk goes on with the
    error it threw. *)
Lemma try_boundary_handler_throws c error hasCaught s f e s1 :
  getDerivedStateFromError (class_of classes s c) = None ->
  componentDidCatch (class_of classes s c) = Some f ->
  call f (VComp c) [error] s = (Throw e, s1) ->
  try_boundary classes call c error hasCaught s
  = (Ret (Continue e true), s1, [EvCall c McomponentDidCatch [error]]).
Proof.
  intros Hg Hd Hcall. unfold try_boundary, ecall. msimpl. rewrite Hg, Hd. msimpl.
  rewrite Hcall. reflexivity.
Qed.

(** Once a handler has thrown, [hasCaught] stays [true]: the next ancestor
    whose instance is not processing an exception ends the walk, whether or
    not its class declares a handler. *)
Lemma try_boundary_after_failed_handler c error s :
  declares_handler (class_of classes s c) = false ->
  try_boundary classes call c error true s
  = (Ret Handled, snd (enqueueRender c (upd_comp c (CompSet._pendingError (Some c)) s)), []).
Proof.
  unfold declares_handler. intros H. apply orb_false_iff in H as [Hg Hd].
  unfold try_boundary. msimpl.
  destruct (getDerivedStateFromError (class_of classes s c)); [discriminate|].
  destruct (componentDidCatch (class_of classes s c)); [discriminate|].
  cbv iota beta.
  destruct (enqueueRender_queue c (upd_comp c (CompSet._pendingError (Some c)) s)) as (Hr & _).
  destruct (enqueueRender c _) as [r s2]. cbn [fst] in Hr. subst r. reflexivity.
Qed.

Lemma mget_bind {E A} (k : store -> M E A) s : mbind mget k s = k s s.
Proof. unfold mbind, mget. destruct (k s s) as [[r s'] ev]. reflexivity. Qed.

Lemma catch_loop_S fuel error vnode hasCaught s :
  catch_loop classes call (S fuel) error vnode hasCaught s
  = match VNode._parent (get_vnode s vnode) with
    | None => (Throw error, s, [])
    | Some parent =>
        match VNode._component (get_vnode s parent) with
        | Some c =>
            if is_Some_b (Comp._processingException (get_comp s c))
            then catch_loop classes call fuel error parent hasCaught s
            else mbind (try_boundary classes call c error hasCaught)
                   (fun step => match step with
                                | Handled => mret tt
                                | Continue error' hasCaught' =>
                                    catch_loop classes call fuel error' parent hasCaught'
                                end) s
        | None => catch_loop classes call fuel error parent hasCaught s
        end
    end.
Proof.
  cbn [catch_loop]. rewrite mget_bind.
  destruct (VNode._parent (get_vnode s vnode)) as [parent|]; [|reflexivity].
  destruct (VNode._component (get_vnode s parent)) as [c|]; [|reflexivity].
  destruct (is_Some_b (Comp._processingException (get_comp s c))); reflexivity.
Qed.

Lemma catch_loop_to_first_boundary fuel : forall error vnode s,
  match first_boundary classes s fuel vnode with
  | None => catch_loop classes call fuel error vnode false s = (Diverge, s, [])
  | Some None => catch_loop classes call fuel error vnode false s = (Throw error, s, [])
  | Some (Some (parent, c, fuel')) =>
      catch_loop classes call fuel error vnode false s
      = mbind (try_boundary classes call c error false)
          (fun step => match step with
                       | Handled => mret tt
                       | Continue error' hasCaught' =>
                           catch_loop classes call fuel' error' parent hasCaught'
                       end) s
  end.
Proof.
  induction fuel as [|fuel IH]; intros error vnode s; [reflexivity|].
  rewrite catch_loop_S. cbn [first_boundary].
  destruct (VNode._parent (get_vnode s vnode)) as [parent|]; [|reflexivity].
  destruct (VNode._component (get_vnode s parent)) as [c|]; [|apply IH].
  destruct (is_Some_b (Comp._processingException (get_comp s c))); [apply IH|].
  destruct (declares_handler (class_of classes s c)) eqn:Hdecl; [reflexivity|].
  assert (Hstep :
    mbind (try_boundary classes call c error false)
      (fun step => match step with
                   | Handled => mret tt
                   | Continue error' hasCaught' =>
                       catch_loop classes call fuel error' parent hasCaught'
                   end) s
    = catch_loop classes call fuel error parent false s).
  { unfold mbind. rewrite (try_boundary_undeclared c error s Hdecl).
    destruct (catch_loop classes call fuel error parent false s) as [[r s'] ev].
    reflexivity. }
  rewrite Hstep. apply IH.
Qed.

(** A boundary that declares [getDerivedStateFromError] only: the state it
    returns is applied with [setState]. *)
Lemma try_boundary_getDerivedStateFromError c error hasCaught s g st s1 s2 :
  getDerivedStateFromError (class_of classes s c) = Some g ->
  call g (VFun (Comp.constructor (get_comp s c))) [error] s = (Ret st, s1) ->
  setState call c st None s1 = (Ret tt, s2) ->
  componentDidCatch (class_of classes s2 c) = None ->
  try_boundary classes call c error hasCaught s
  = (Ret Handled, snd (enqueueRender c (upd_comp c (CompSet._pendingError (Some c)) s2)),
     [EvCall c MgetDerivedStateFromError [error]]).
Proof.
  intros Hg Hcall Hset Hd. unfold try_boundary, ecall. msimpl. rewrite Hg. msimpl.
  rewrite Hcall. cbv iota beta. rewrite Hset. cbv iota beta. rewrite Hd. cbv iota beta.
  destruct (enqueueRender_queue c (upd_comp c (CompSet._pendingError (Some c)) s2)) as (Hr & _).
  destruct (enqueueRender c _) as [r s3]. cbn [fst] in Hr. subst r. reflexivity.
Qed.

(** X2: the recovery walk up to the first boundary.  [_catchError] goes up
    the parent chain, passing the ancestors that have no instance, whose
    instance is processing an exception, or whose class declares no
    handler, without touching the store.  When the chain ends without a
    boundary the error is thrown again.  At the first boundary:
    [getDerivedStateFromError] is applied with [setState], or
    [componentDidCatch] is called with the error; when the handler returns,
    the instance gets its [_pendingError], is enqueued, and the walk stops;
    when [componentDidCatch] throws, the walk goes on above the boundary
    with the error it threw. *)
Theorem catchError_stops_at_first_boundary fuel error vnode s :
  (first_boundary classes s fuel vnode = Some None ->
   _catchError classes call fuel error vnode s = (Throw error, s, []))
  /\ (forall parent c fuel' g st s1 s2,
        first_boundary classes s fuel vnode = Some (Some (parent, c, fuel')) ->
        getDerivedStateFromError (class_of classes s c) = Some g ->
        call g (VFun (Comp.constructor (get_comp s c))) [error] s = (Ret st, s1) ->
        setState call c st None s1 = (Ret tt, s2) ->
        componentDidCatch (class_of classes s2 c) = None ->
        _catchError classes call fuel error vnode s
        = (Ret tt, snd (enqueueRender c (upd_comp c (CompSet._pendingError (Some c)) s2)),
           [EvCall c MgetDerivedStateFromError [error]]))
  /\ (forall parent c fuel' f v s1,
        first_boundary classes s fuel vnode = Some (Some (parent, c, fuel')) ->
        getDerivedStateFromError (class_of classes s c) = None ->
        componentDidCatch (class_of classes s c) = Some f ->
        call f (VComp c) [error] s = (Ret v, s1) ->
        _catchError classes call fuel error vnode s
        = (Ret tt, snd (enqueueRender c (upd_comp c (CompSet._pendingError (Some c)) s1)),
           [EvCall c McomponentDidCatch [error]]))
  /\ (forall parent c fuel' f e s1,
        first_boundary classes s fuel vnode = Some (Some (parent, c, fuel')) ->
        getDerivedStateFromError (class_of classes s c) = None ->
        componentDidCatch (class_of classes s c) = Some f ->
        call f (VComp c) [error] s = (Throw e, s1) ->
        _catchError classes call fuel error vnode s
        = let '(r, s', ev) := catch_loop classes call fuel' e parent true s1 in
          (r, s', EvCall c McomponentDidCatch [error] :: ev)).
Proof.
  unfold _catchError.
  pose proof (catch_loop_to_first_boundary fuel error vnode s) as Hwalk.
  split; [|split; [|split]].
  - intros Hb. rewrite Hb in Hwalk. exact Hwalk.
  - intros parent c fuel' g st s1 s2 Hb Hg Hcall Hset Hd. rewrite Hb in Hwalk.
    rewrite Hwalk. unfold mbind.
    rewrite (try_boundary_getDerivedStateFromError c error false s g st s1 s2 Hg Hcall Hset Hd).
    reflexivity.
  - intros parent c fuel' f v s1 Hb Hg Hd Hcall. rewrite Hb in Hwalk.
    rewrite Hwalk. unfold mbind.
    rewrite (try_boundary_componentDidCatch c error false s f v s1 Hg Hd Hcall).
    reflexivity.
  - intros parent c fuel' f e s1 Hb Hg Hd Hcall. rewrite Hb in Hwalk.
    rewrite Hwalk. unfold mbind.
    rewrite (try_boundary_handler_throws c error false s f e s1 Hg Hd Hcall).
    destruct (catch_loop classes call fuel' e parent true s1) as [[r s'] ev]. reflexivity.
Qed.

(** * Hook cleanups on unmount *)

Lemma cleanup_cells_prefix c h :
  (forall f s0, Comp.__hooks (get_comp (snd (call f VUndef [] s0)) c)
                = Comp.__hooks (get_comp s0 c)) ->
  forall n i s,
    Comp.__hooks (get_comp s c) = Some h ->
    i + n = length (_list h) ->
    let ids := cells_with_cleanup (drop i (_list h)) i in
    let '(r, s', evs) := cleanup_cells call c i n s in
    exists k, k <= length ids /\ evs = map (EvCleanup c) (take k ids)
              /\ (r = Ret tt -> k = length ids) /\ (r <> Ret tt -> 0 < k).
Proof.
  intros Hframe n. induction n as [|n IH]; intros i s Hh Hlen; cbv zeta.
  - cbn [cleanup_cells]. msimpl.
    rewrite drop_ge by lia. exists 0. cbn. repeat split; try lia; congruence.
  - cbn [cleanup_cells]. unfold invokeCleanup. msimpl.
    assert (Hi : i < length (_list h)) by lia.
    destruct (lookup_lt_is_Some_2 _ _ Hi) as [cell Hcell].
    rewrite (drop_S _ _ _ Hcell). cbn [cells_with_cleanup].
    assert (Hget : get_cell s c i = cell).
    { unfold get_cell. rewrite Hh, Hcell. reflexivity. }
    rewrite Hget.
    destruct (Hook._cleanup cell) as [f|] eqn:Hcl; cbn [is_Some_b].
    + destruct (call f VUndef [] s) as [r1 s1] eqn:Hcall.
      assert (Hh1 : Comp.__hooks (get_comp s1 c) = Some h).
      { rewrite <- Hh. specialize (Hframe f s). rewrite Hcall in Hframe. exact Hframe. }
      destruct r1 as [a|e|].
      * specialize (IH (S i) s1 Hh1 ltac:(lia)). cbv zeta in IH.
        destruct (cleanup_cells call c (S i) n s1) as [[r s'] evs].
        destruct IH as (k & Hk & Hev & Hret & Hnret).
        exists (S k). cbn [length take map]. rewrite Hev.
        repeat split; try lia; try reflexivity.
        intros Hr. rewrite (Hret Hr). reflexivity.
      * exists 1. cbn [length take map]. rewrite take_0.
        repeat split; try lia; try reflexivity. intros [=].
      * exists 1. cbn [length take map]. rewrite take_0.
        repeat split; try lia; try reflexivity. intros [=].
    + specialize (IH (S i) s Hh ltac:(lia)). cbv zeta in IH.
      destruct (cleanup_cells call c (S i) n s) as [[r s'] evs].
      destruct IH as (k & Hk & Hev & Hret & Hnret).
      exists k. rewrite Hev. repeat split; try lia; try reflexivity; assumption.
Qed.



(** * The bail-out of [diff] for an instance that exists *)

Lemma get_upd_vnode_field {A} (proj : VNode.t -> A) (f : VNode.t -> VNode.t) v w s :
  (forall x, proj (f x) = proj x) ->
  proj (get_vnode (upd_vnode v f s) w) = proj (get_vnode s w).
Proof.
  intros Hf. unfold get_vnode, upd_vnode. simpl.
  destruct (decide (v = w)) as [->|Hne].
  - rewrite list_lookup_alter_eq. destruct (vnodes s !! w); simpl; [apply Hf|reflexivity].
  - rewrite list_lookup_alter_ne by assumption. reflexivity.
Qed.

Lemma reparent_frame newVNode children :
  forall s,
    components (snd (reparent newVNode children s)) = components s
    /\ forall v, VNode._dom (get_vnode (snd (reparent newVNode children s)) v)
                 = VNode._dom (get_vnode s v)
                 /\ VNode._children (get_vnode (snd (reparent newVNode children s)) v)
                    = VNode._children (get_vnode s v).
Proof.
  induction children as [|child rest IH]; intros s; [split; [reflexivity|split; reflexivity]|].
  cbn [reparent].
  assert (Hrest : forall s0, components (snd (reparent newVNode rest s0)) = components s0
            /\ forall v, VNode._dom (get_vnode (snd (reparent newVNode rest s0)) v)
                         = VNode._dom (get_vnode s0 v)
                         /\ VNode._children (get_vnode (snd (reparent newVNode rest s0)) v)
                            = VNode._children (get_vnode s0 v)) by exact IH.
  destruct child; cbn [truthy]; try apply Hrest;
    try (split; [reflexivity|split; reflexivity]).
  - destruct b; [split; [reflexivity|split; reflexivity]|apply Hrest].
  - destruct (negb (n =? 0)%Z); [split; [reflexivity|split; reflexivity]|apply Hrest].
  - destruct (negb (String.eqb s0 "")); [split; [reflexivity|split; reflexivity]|apply Hrest].
  - msimpl.
    destruct (Hrest (upd_vnode v (VNodeSet._parent (Some newVNode)) s)) as [Hc Hv].
    split; [rewrite Hc; reflexivity|].
    intros w. destruct (Hv w) as [Hd Hch]. rewrite Hd, Hch.
    split; apply get_upd_vnode_field; reflexivity.
Qed.

Lemma reparent_outcome newVNode children :
  forall s, fst (reparent newVNode children s) = Ret tt
            \/ fst (reparent newVNode children s) = Throw TypeError.
Proof.
  induction children as [|child rest IH]; intros s; [left; reflexivity|].
  cbn [reparent].
  destruct child; cbn [truthy]; try apply IH; try (right; reflexivity).
  - destruct b; [right; reflexivity|apply IH].
  - destruct (negb (n =? 0)%Z); [right; reflexivity|apply IH].
  - destruct (negb (String.eqb s0 "")); [right; reflexivity|apply IH].
Qed.

Lemma old_vnode_upd_comp c f s oldVNode : old_vnode (upd_comp c f s) oldVNode = old_vnode s oldVNode.
Proof. destruct oldVNode; reflexivity. Qed.

Lemma old_children_after_dom newVNode oldVNode d s :
  VNode._children (old_vnode (upd_vnode newVNode (VNodeSet._dom d) s) oldVNode)
  = VNode._children (old_vnode s oldVNode).
Proof.
  destruct oldVNode as [o|]; [|reflexivity]. cbn [old_vnode].
  apply get_upd_vnode_field. reflexivity.
Qed.

(** What the bail-out leaves behind, whether or not re-parenting the
    reused children succeeds: no event, the new props and the staged state
    on the instance, and the old vnode's [_dom] and [_children] on the new
    vnode. *)
Lemma bail_out_effect c newVNode oldVNode newProps s :
  c < length (components s) -> newVNode < length (vnodes s) ->
  let '(r, s', ev) := bail_out c newVNode oldVNode newProps s in
  ev = []
  /\ (r = Ret tt \/ r = Throw TypeError)
  /\ Comp.props (get_comp s' c) = newProps
  /\ Comp.state (get_comp s' c) = Comp._nextState (get_comp s c)
  /\ VNode._dom (get_vnode s' newVNode) = VNode._dom (old_vnode s oldVNode)
  /\ VNode._children (get_vnode s' newVNode) = VNode._children (old_vnode s oldVNode).
Proof.
  intros Hc Hv. unfold bail_out. msimpl.
  set (s1 := upd_comp c (CompSet.props newProps) s).
  set (s2 := upd_comp c (CompSet.state (Comp._nextState (get_comp s1 c))) s1).
  set (dirty := if strict_neq _ _ then _ else _).
  assert (Hdirty : exists s3, (dirty s2 = (Ret tt, s3, []))
            /\ vnodes s3 = vnodes s /\ length (components s3) = length (components s)
            /\ Comp.props (get_comp s3 c) = newProps
            /\ Comp.state (get_comp s3 c) = Comp._nextState (get_comp s c)).
  { assert (H2 : Comp.props (get_comp s2 c) = newProps
                 /\ Comp.state (get_comp s2 c) = Comp._nextState (get_comp s c)).
    { subst s2 s1. rewrite !get_upd_comp_same by (rewrite ?length_upd_comp; assumption).
      split; reflexivity. }
    subst dirty. destruct (strict_neq _ _).
    - eexists. split; [reflexivity|]. split; [reflexivity|].
      split; [subst s2 s1; rewrite !length_upd_comp; reflexivity|].
      rewrite !get_upd_comp_same by (subst s2 s1; rewrite ?length_upd_comp; assumption).
      exact H2.
    - eexists. split; [reflexivity|]. split; [reflexivity|].
      split; [subst s2 s1; rewrite !length_upd_comp; reflexivity|]. exact H2. }
  destruct Hdirty as (s3 & -> & Hvn & Hlen & Hp & Hst).
  cbv iota beta.
  set (s4 := upd_comp c (CompSet._vnode (Some newVNode)) s3).
  assert (Hold4 : old_vnode s4 oldVNode = old_vnode s oldVNode).
  { subst s4. rewrite old_vnode_upd_comp. destruct oldVNode; [|reflexivity].
    unfold old_vnode, get_vnode. rewrite Hvn. reflexivity. }
  rewrite Hold4.
  set (s5 := upd_vnode newVNode (VNodeSet._dom (VNode._dom (old_vnode s oldVNode))) s4).
  assert (Hold5 : VNode._children (old_vnode s5 oldVNode) = VNode._children (old_vnode s oldVNode)).
  { subst s5. rewrite old_children_after_dom, Hold4. reflexivity. }
  rewrite Hold5.
  set (s6 := upd_vnode newVNode (VNodeSet._children (VNode._children (old_vnode s oldVNode))) s5).
  set (s7 := push_commit c s6).
  assert (Hv4 : newVNode < length (vnodes s4)) by (subst s4; simpl; rewrite Hvn; exact Hv).
  assert (H7v : vnodes s7 = vnodes s6) by (subst s7; unfold push_commit; destruct (Comp._renderCallbacks _); reflexivity).
  assert (H7c : components s7 = components s4)
    by (subst s7; unfold push_commit; destruct (Comp._renderCallbacks _); reflexivity).
  assert (Hn7 : get_vnode s7 newVNode
                = VNodeSet._children (VNode._children (old_vnode s oldVNode))
                    (VNodeSet._dom (VNode._dom (old_vnode s oldVNode)) (get_vnode s4 newVNode))).
  { unfold get_vnode at 1. rewrite H7v. change (default blank_vnode (vnodes s6 !! newVNode))
      with (get_vnode s6 newVNode). subst s6 s5.
    rewrite !get_upd_vnode_same by (rewrite ?length_upd_vnode; assumption). reflexivity. }
  assert (Hc7 : get_comp s7 c = CompSet._vnode (Some newVNode) (get_comp s3 c)).
  { unfold get_comp at 1. rewrite H7c. change (default blank_comp (components s4 !! c))
      with (get_comp s4 c). subst s4. rewrite get_upd_comp_same by lia. reflexivity. }
  assert (Hfinal : forall s', components s' = components s7 ->
             (forall v, VNode._dom (get_vnode s' v) = VNode._dom (get_vnode s7 v)
                        /\ VNode._children (get_vnode s' v) = VNode._children (get_vnode s7 v)) ->
             Comp.props (get_comp s' c) = newProps
             /\ Comp.state (get_comp s' c) = Comp._nextState (get_comp s c)
             /\ VNode._dom (get_vnode s' newVNode) = VNode._dom (old_vnode s oldVNode)
             /\ VNode._children (get_vnode s' newVNode) = VNode._children (old_vnode s oldVNode)).
  { intros s' Hcs Hvs. rewrite (get_comp_components _ _ c Hcs), Hc7.
    destruct (Hvs newVNode) as [-> ->]. rewrite Hn7.
    cbn [Comp.props Comp.state CompSet._vnode VNode._dom VNode._children VNodeSet._children
           VNodeSet._dom].
    repeat split; assumption. }
  rewrite Hn7. cbn [VNode._children VNodeSet._children].
  destruct (VNode._children (old_vnode s oldVNode)) as [| |?|?| |?|?|?|?|?|arr|?|?] eqn:Ech;
    cbv iota beta;
    try (split; [reflexivity|]; split; [(left; reflexivity) || (right; reflexivity)|];
         apply Hfinal; [reflexivity|intros ?; split; reflexivity]).
  destruct (reparent newVNode (get_array s7 arr) s7) as [r s'] eqn:Hre.
  pose proof (reparent_frame newVNode (get_array s7 arr) s7) as [Hcs Hvs].
  pose proof (reparent_outcome newVNode (get_array s7 arr) s7) as Hout.
  rewrite Hre in Hcs, Hvs, Hout. cbn [snd] in Hcs, Hvs. cbn [fst] in Hout.
  destruct Hout as [-> | ->];
    (split; [reflexivity|]; split; [(left; reflexivity) || (right; reflexivity)|];
     apply Hfinal; assumption).
Qed.


(** * The flush loop *)

Lemma mbind_assoc {E A B C} (m : M E A) (k : A -> M E B) (h : B -> M E C) s :
  mbind (mbind m k) h s = mbind m (fun a => mbind (k a) h) s.
Proof.
  unfold mbind. destruct (m s) as [[[a|e|] s1] ev1]; try reflexivity.
  destruct (k a s1) as [[[b|e|] s2] ev2]; try reflexivity.
  destruct (h b s2) as [[r s3] ev3]. rewrite app_assoc. reflexivity.
Qed.

Lemma mbind_ret_l {E A B} (a : A) (k : A -> M E B) s : mbind (mret a) k s = k a s.
Proof. unfold mbind, mret. destruct (k a s) as [[r s'] ev]. reflexivity. Qed.

Section Sorting.
Variable s : store.

Lemma insert_by_depth_perm c l : insert_by_depth s c l ≡ₚ c :: l.
Proof.
  induction l as [|x l IH]; cbn [insert_by_depth]; [reflexivity|].
  destruct (Nat.leb _ _); [reflexivity|].
  rewrite IH. apply Permutation_swap.
Qed.

Lemma sort_by_depth_perm q : sort_by_depth s q ≡ₚ q.
Proof.
  induction q as [|c q IH]; [reflexivity|].
  unfold sort_by_depth in *. cbn [foldr]. rewrite insert_by_depth_perm, IH. reflexivity.
Qed.

Lemma insert_by_depth_sorted c l :
  StronglySorted (by_depth s) l -> StronglySorted (by_depth s) (insert_by_depth s c l).
Proof.
  induction l as [|x l IH]; intros Hs; cbn [insert_by_depth].
  - constructor; constructor.
  - destruct (Nat.leb (depth_of s c) (depth_of s x)) eqn:Hle.
    + apply Nat.leb_le in Hle. constructor; [exact Hs|].
      apply StronglySorted_inv in Hs as [_ Hall].
      constructor; [exact Hle|].
      eapply Forall_impl; [exact Hall|]. intros y Hy. unfold by_depth in *. lia.
    + apply Nat.leb_gt in Hle. apply StronglySorted_inv in Hs as [Hl Hall].
      constructor; [apply IH; exact Hl|].
      rewrite insert_by_depth_perm. constructor; [unfold by_depth; lia|exact Hall].
Qed.

Lemma sort_by_depth_sorted q : StronglySorted (by_depth s) (sort_by_depth s q).
Proof.
  induction q as [|c q IH]; [constructor|].
  unfold sort_by_depth in *. cbn [foldr]. apply insert_by_depth_sorted. exact IH.
Qed.

Lemma sublist_sorted (l k : list cid) :
  l `sublist_of` k -> StronglySorted (by_depth s) k -> StronglySorted (by_depth s) l.
Proof.
  induction 1 as [|x l k Hsub IH|x l k Hsub IH]; intros Hs.
  - constructor.
  - apply StronglySorted_inv in Hs as [Hk Hall]. constructor; [apply IH; exact Hk|].
    apply List.Forall_forall. intros y Hy.
    apply (proj1 (List.Forall_forall _ _) Hall).
    apply list_elem_of_In. apply list_elem_of_In in Hy.
    eapply sublist_subseteq; eassumption.
  - apply StronglySorted_inv in Hs as [Hk _]. apply IH. exact Hk.
Qed.
End Sorting.

Lemma sublist_count (l k : list cid) c :
  l `sublist_of` k -> count_occ Nat.eq_dec l c <= count_occ Nat.eq_dec k c.
Proof.
  induction 1 as [|x l k Hsub IH|x l k Hsub IH]; cbn [count_occ].
  - lia.
  - destruct (Nat.eq_dec x c); lia.
  - destruct (Nat.eq_dec x c); lia.
Qed.

Local Abbreviation renderComponent' := (renderComponent classes call diffChildren diffElementNodes
                                ownerSVGElement_defined).
Local Abbreviation render_queue' := (render_queue classes call diffChildren diffElementNodes
                             ownerSVGElement_defined).
Local Abbreviation process_pass' := (process_pass classes call diffChildren diffElementNodes
                             ownerSVGElement_defined).
Local Abbreviation process' := (process classes call diffChildren diffElementNodes
                        ownerSVGElement_defined).

Local Abbreviation render_entry' := (render_entry classes call diffChildren diffElementNodes
                             ownerSVGElement_defined).

Lemma render_queue_cons fuel c rest s :
  render_queue' fuel (c :: rest) s
  = mbind (render_entry' fuel c) (fun _ => render_queue' fuel rest) s.
Proof.
  cbn [render_queue]. unfold render_entry. msimpl.
  destruct (Comp._dirty (get_comp s c)).
  - destruct (renderComponent' fuel c s) as [[[[]|e|] s1] ev1]; cbv iota beta; try reflexivity.
    destruct (render_queue' fuel rest s1) as [[r s2] ev2]. reflexivity.
  - destruct (render_queue' fuel rest s) as [[r s2] ev2]. reflexivity.
Qed.

Lemma render_queue_app fuel l1 l2 s :
  render_queue' fuel (l1 ++ l2) s
  = mbind (render_queue' fuel l1) (fun _ => render_queue' fuel l2) s.
Proof.
  revert s. induction l1 as [|c l1 IH]; intros s.
  - cbn [app render_queue]. rewrite mbind_ret_l. reflexivity.
  - cbn [app]. rewrite render_queue_cons. unfold mbind at 2. rewrite render_queue_cons.
    unfold mbind. destruct (render_entry' fuel c s) as [[[[]|e|] s1] ev1]; try reflexivity.
    rewrite IH. unfold mbind.
    destruct (render_queue' fuel l1 s1) as [[[[]|e|] s2] ev2]; try reflexivity.
    destruct (render_queue' fuel l2 s2) as [[r s3] ev3]. rewrite app_assoc. reflexivity.
Qed.

Lemma render_entry_events fuel c s :
  map fst (snd (render_entry' fuel c s)) = [] \/ map fst (snd (render_entry' fuel c s)) = [c].
Proof.
  unfold render_entry, nest, mret. destruct (Comp._dirty (get_comp s c)); [|left; reflexivity].
  destruct (renderComponent' fuel c s) as [[r s1] ev1]. right. reflexivity.
Qed.

Lemma render_queue_sublist fuel l :
  forall s, map fst (snd (render_queue' fuel l s)) `sublist_of` l.
Proof.
  induction l as [|c l IH]; intros s; [constructor|].
  rewrite render_queue_cons. unfold mbind.
  pose proof (render_entry_events fuel c s) as He.
  destruct (render_entry' fuel c s) as [[[[]|e|] s1] ev1]; cbn [snd] in *.
  - specialize (IH s1). destruct (render_queue' fuel l s1) as [[r s2] ev2]. cbn [snd] in *.
    rewrite map_app. destruct He as [-> | ->]; cbn [app].
    + apply sublist_cons. exact IH.
    + apply sublist_skip. exact IH.
  - destruct He as [-> | ->]; [apply sublist_nil_l|].
    apply sublist_skip. apply sublist_nil_l.
  - destruct He as [-> | ->]; [apply sublist_nil_l|].
    apply sublist_skip. apply sublist_nil_l.
Qed.

Lemma count_occ_perm (l k : list cid) c :
  l ≡ₚ k -> count_occ Nat.eq_dec l c = count_occ Nat.eq_dec k c.
Proof.
  induction 1; cbn [count_occ]; repeat destruct (Nat.eq_dec _ _); lia.
Qed.



End Facts.


Section ChildrenFacts.
Variable string_to_number : string -> option Z.
Variable diff_rec :
  did -> vid -> option vid -> jsval -> bool -> option aid -> domv -> bool ->
  store -> res domv * store * list domop.
Variable place_child :
  did -> vid -> vid -> option vid -> domv -> option aid -> nat -> Locals.t ->
  store -> res Locals.t * store * list domop.
Variable finish :
  did -> vid -> option aid -> option aid -> nat -> Locals.t ->
  store -> res unit * store * list domop.

Local Abbreviation key_loose_eq' := (key_loose_eq string_to_number).
Local Abbreviation matches' := (matches string_to_number).
Local Abbreviation scan_old' := (scan_old string_to_number).
Local Abbreviation match_old' := (match_old string_to_number).

Local Abbreviation same_key_and_type' := (same_key_and_type string_to_number).
Local Abbreviation not_at_own_index' := (not_at_own_index string_to_number).
Local Abbreviation matched_as' := (matched_as string_to_number).

Lemma matches_true s childVNode x :
  matches' s childVNode x = true <-> exists o, x = VVNode o /\ same_key_and_type' s childVNode o.
Proof.
  unfold matches, same_key_and_type. split.
  - destruct x; try discriminate. intros H. apply andb_true_iff in H as [H1 H2].
    apply bool_decide_eq_true in H2. eauto.
  - intros (o & -> & H1 & H2). rewrite H1. cbn [andb]. apply bool_decide_eq_true. exact H2.
Qed.

Lemma matches_false s childVNode o :
  matches' s childVNode (VVNode o) = false -> ~ same_key_and_type' s childVNode o.
Proof.
  intros H Hs. assert (matches' s childVNode (VVNode o) = true) by (apply matches_true; eauto).
  congruence.
Qed.

Lemma scan_old_Some s childVNode olds :
  forall j0 j x,
    scan_old' s childVNode olds j0 = Some (j, x) ->
    exists k, j = j0 + k /\ olds !! k = Some x /\ matches' s childVNode x = true
              /\ forall k' y, k' < k -> olds !! k' = Some y -> matches' s childVNode y = false.
Proof.
  induction olds as [|y olds IH]; intros j0 j x; cbn [scan_old]; [discriminate|].
  destruct (matches' s childVNode y) eqn:Hm.
  - intros [= <- <-]. exists 0. repeat split; try assumption; [lia|]. intros; lia.
  - intros H. apply IH in H as (k & -> & Hk & Hmk & Hbefore).
    exists (S k). repeat split; try assumption; [lia|].
    intros [|k'] z Hlt Hz; cbn in Hz.
    + injection Hz as <-. exact Hm.
    + eapply Hbefore; [|exact Hz]. lia.
Qed.

Lemma scan_old_None s childVNode olds :
  forall j0, scan_old' s childVNode olds j0 = None ->
             forall k y, olds !! k = Some y -> matches' s childVNode y = false.
Proof.
  induction olds as [|y olds IH]; intros j0; cbn [scan_old]; [intros _ k z Hz; discriminate Hz|].
  destruct (matches' s childVNode y) eqn:Hm; [discriminate|].
  intros H [|k] z Hz; cbn in Hz.
  - injection Hz as <-. exact Hm.
  - eapply IH; eassumption.
Qed.

Lemma old_children_consume oldChildren j s :
  old_children (consume oldChildren j s) oldChildren
  = <[j := VUndef]> (old_children s oldChildren).
Proof.
  destruct oldChildren as [a|]; [|reflexivity].
  unfold old_children, consume, get_array, upd_array. simpl.
  rewrite list_lookup_alter_eq. destruct (arrays s !! a); reflexivity.
Qed.

Lemma key_loose_eq_unkeyed a b : key_loose_eq' a b = true -> unkeyed a = unkeyed b.
Proof.
  destruct a, b; cbn; try reflexivity; try discriminate.
Qed.


End ChildrenFacts.

(** * Hooks *)

Lemma set_components_id s : set_components (components s) s = s.
Proof. destruct s. reflexivity. Qed.

Lemma upd_comp_fix c f s :
  f (get_comp s c) = get_comp s c -> c < length (components s) -> upd_comp c f s = s.
Proof.
  intros Hf Hc. unfold upd_comp.
  replace (alter f c (components s)) with (components s); [apply set_components_id|].
  apply list_eq. intros j. destruct (decide (c = j)) as [<-|Hne].
  - rewrite list_lookup_alter_eq. unfold get_comp in Hf.
    destruct (components s !! c) as [x|] eqn:E; [|reflexivity].
    cbn [default from_option id] in Hf. simpl. rewrite Hf. reflexivity.
  - rewrite list_lookup_alter_ne by assumption. reflexivity.
Qed.

Lemma hooks_eta h (x : Comp.t) : Comp.__hooks x = Some h -> CompSet.__hooks (Some h) x = x.
Proof. destruct x. simpl. intros ->. reflexivity. Qed.

(** [getHookState] on a cell that exists returns it and changes nothing. *)
Lemma getHookState_existing c h i s :
  currentComponent s = Some c -> c < length (components s) ->
  Comp.__hooks (get_comp s c) = Some h -> i < length (_list h) ->
  getHookState i s = (Ret (c, i), s).
Proof.
  intros Hcur Hc Hh Hi. unfold getHookState. rewrite Hcur, Hh.
  cbn [default from_option id].
  destruct (Nat.leb (length (_list h)) i) eqn:Hle; [apply Nat.leb_le in Hle; lia|].
  rewrite upd_comp_fix; [reflexivity| |exact Hc].
  apply hooks_eta. exact Hh.
Qed.

(** [getHookState] at the end of the list appends one empty cell. *)
Lemma getHookState_fresh c s :
  currentComponent s = Some c ->
  let h := default (mk_hooks [] []) (Comp.__hooks (get_comp s c)) in
  getHookState (length (_list h)) s
  = (Ret (c, length (_list h)),
     upd_comp c (CompSet.__hooks (Some (mk_hooks (_list h ++ [blank_cell]) (_pendingEffects h)))) s).
Proof.
  intros Hcur h. unfold getHookState. rewrite Hcur. fold h.
  rewrite Nat.leb_refl. reflexivity.
Qed.

Lemma get_cell_upd_cell c i f s cell h :
  c < length (components s) ->
  Comp.__hooks (get_comp s c) = Some h -> _list h !! i = Some cell ->
  get_cell (upd_cell c i f s) c i = f cell
  /\ Comp.__hooks (get_comp (upd_cell c i f s) c)
     = Some (mk_hooks (alter f i (_list h)) (_pendingEffects h)).
Proof.
  intros Hc Hh Hi. unfold get_cell, upd_cell.
  rewrite get_upd_comp_same by exact Hc. rewrite Hh. cbn [CompSet.__hooks Comp.__hooks _list].
  split; [|reflexivity].
  rewrite list_lookup_alter_eq, Hi. reflexivity.
Qed.

Lemma get_cell_lookup s c i h cell :
  Comp.__hooks (get_comp s c) = Some h -> _list h !! i = Some cell -> get_cell s c i = cell.
Proof. intros Hh Hi. unfold get_cell. rewrite Hh, Hi. reflexivity. Qed.

Section HookFacts.
Variable call : fid -> jsval -> list jsval -> U jsval.

(** [useReducer] at a cell that is marked with a component. *)
Lemma useReducer_initialised r initialState init c h i cell owner s :
  currentComponent s = Some c -> c < length (components s) ->
  Comp.__hooks (get_comp s c) = Some h ->
  currentIndex s = i ->
  _list h !! i = Some cell ->
  Hook._component cell = Some owner ->
  useReducer call r initialState init s
  = (Ret (Hook._value cell, (c, i)), set_currentIndex (S i) s).
Proof.
  intros Hcur Hc Hh Hidx Hi Hown.
  assert (Hlt : i < length (_list h)) by (apply lookup_lt_is_Some; eauto).
  unfold useReducer. unfold ubind at 1, uget at 1. unfold ubind at 1, umodify at 1.
  rewrite Hidx. unfold ubind at 1.
  rewrite (getHookState_existing c h i (set_currentIndex (S i) s)); try assumption.
  cbn [fst snd]. unfold ubind at 1, uget at 1.
  change (get_comp (set_currentIndex (S i) s) c) with (get_comp s c).
  rewrite Hh. apply Nat.ltb_lt in Hlt. rewrite Hlt.
  change (get_cell (set_currentIndex (S i) s) c i) with (get_cell s c i).
  rewrite (get_cell_lookup s c i h cell Hh Hi), Hown.
  unfold ubind, uret, uget. 
  change (get_cell (set_currentIndex (S i) s) c i) with (get_cell s c i).
  rewrite (get_cell_lookup s c i h cell Hh Hi). reflexivity.
Qed.

(** X3: once a state cell is initialised, [useReducer] (and so [useState])
    returns what the cell holds: it ignores [initialState], [init] and the
    reducer it is given, calls none of them, and changes nothing but the
    hook index. *)
Theorem useReducer_keeps_state r initialState init c h i cell owner s :
  currentComponent s = Some c -> c < length (components s) ->
  Comp.__hooks (get_comp s c) = Some h ->
  currentIndex s = i ->
  _list h !! i = Some cell ->
  Hook._component cell = Some owner ->
  useReducer call r initialState init s
  = (Ret (Hook._value cell, (c, i)), set_currentIndex (S i) s).
Proof. apply useReducer_initialised. Qed.

Lemma upd_comp_twice c f g s : upd_comp c f (upd_comp c g s) = upd_comp c (fun x => f (g x)) s.
Proof.
  unfold upd_comp.
  change (components (set_components ?l _)) with l.
  replace (alter f c (alter g c (components s)))
    with (alter (fun x => f (g x)) c (components s)); [destruct s; reflexivity|].
  apply list_eq. intros j. destruct (decide (c = j)) as [<-|Hne].
  - rewrite !list_lookup_alter_eq. destruct (components s !! c); reflexivity.
  - rewrite !list_lookup_alter_ne by assumption. reflexivity.
Qed.

Lemma upd_comp_ext c f g s : (forall x, f x = g x) -> upd_comp c f s = upd_comp c g s.
Proof.
  intros H. unfold upd_comp. f_equal. apply list_eq. intros j.
  destruct (decide (c = j)) as [<-|Hne].
  - rewrite !list_lookup_alter_eq. destruct (components s !! c); simpl; [rewrite H|]; reflexivity.
  - rewrite !list_lookup_alter_ne by assumption. reflexivity.
Qed.

Lemma before_init_hooks c s :
  c < length (components s) ->
  let h := default (mk_hooks [] []) (Comp.__hooks (get_comp s c)) in
  Comp.__hooks (get_comp (before_init c s) c)
  = Some (mk_hooks (_list h ++ [marked_cell c]) (_pendingEffects h))
  /\ c < length (components (before_init c s)).
Proof.
  intros Hc h. unfold before_init. fold h. split.
  - rewrite get_upd_comp_same by exact Hc. reflexivity.
  - rewrite length_upd_comp. exact Hc.
Qed.

(** The first steps of [useReducer] at the end of the hook list: the index
    moves on, a cell is appended and marked. *)
Lemma useReducer_fresh r initialState init c s :
  currentComponent s = Some c -> c < length (components s) ->
  let h := default (mk_hooks [] []) (Comp.__hooks (get_comp s c)) in
  let i := length (_list h) in
  currentIndex s = i ->
  useReducer call r initialState init s
  = ubind (match init with
           | None => invokeOrReturn call VUndef initialState
           | Some f => call f VUndef [initialState]
           end)
      (fun v => ubind (umodify (upd_cell c i (fun cell =>
                         Hook.mk (Hook._component cell) (Hook.State v r) (Hook._args cell)
                           (Hook._factory cell) (Hook._cleanup cell))))
                  (fun _ => ubind uget (fun s2 => uret (Hook._value (get_cell s2 c i), (c, i)))))
      (before_init c s).
Proof.
  intros Hcur Hc h i Hidx.
  unfold useReducer. unfold ubind at 1, uget at 1. unfold ubind at 1, umodify at 1.
  rewrite Hidx. unfold ubind at 1.
  pose proof (getHookState_fresh c (set_currentIndex (S i) s) Hcur) as Hg.
  cbv zeta in Hg.
  change (get_comp (set_currentIndex (S i) s) c) with (get_comp s c) in Hg.
  fold h in Hg. fold i in Hg. rewrite Hg. cbn [fst snd].
  set (sA := upd_comp c _ (set_currentIndex (S i) s)).
  assert (HhA : Comp.__hooks (get_comp sA c)
                = Some (mk_hooks (_list h ++ [blank_cell]) (_pendingEffects h))).
  { unfold sA. rewrite get_upd_comp_same by exact Hc. reflexivity. }
  assert (HcA : c < length (components sA)) by (unfold sA; rewrite length_upd_comp; exact Hc).
  unfold ubind at 1, uget at 1. rewrite HhA. cbn [_list].
  assert (Hlt : Nat.ltb i (length (_list h ++ [blank_cell])) = true).
  { apply Nat.ltb_lt. rewrite length_app. simpl. unfold i. lia. }
  rewrite Hlt.
  assert (Hcell : get_cell sA c i = blank_cell).
  { apply (get_cell_lookup sA c i _ blank_cell HhA). cbn [_list].
    rewrite lookup_app_r by (unfold i; lia). unfold i. rewrite Nat.sub_diag. reflexivity. }
  rewrite Hcell. cbn [Hook._component blank_cell].
  assert (Hmark : upd_cell c i (fun cell =>
                    Hook.mk (currentComponent sA) (Hook._value cell) (Hook._args cell)
                      (Hook._factory cell) (Hook._cleanup cell)) sA = before_init c s).
  { unfold upd_cell, sA, before_init. fold h. rewrite Hidx. fold i.
    rewrite upd_comp_twice. apply upd_comp_ext. intros x. cbn [CompSet.__hooks Comp.__hooks _list _pendingEffects].
    change (currentComponent (upd_comp _ _ (set_currentIndex _ s))) with (currentComponent s).
    assert (Halt : alter (fun cell =>
                      Hook.mk (currentComponent s) (Hook._value cell)
                        (Hook._args cell) (Hook._factory cell) (Hook._cleanup cell)) i
                     (_list h ++ [blank_cell]) = _list h ++ [marked_cell c]).
    { unfold i. rewrite <- (Nat.add_0_r (length (_list h))) at 1.
      rewrite alter_app_r. simpl. unfold marked_cell. rewrite Hcur. reflexivity. }
    rewrite Halt. destruct x. reflexivity. }
  unfold ubind at 1. unfold ubind at 1. unfold umodify at 1. rewrite Hmark.
  unfold ubind.
  destruct ((match init with
             | Some f => call f VUndef [initialState]
             | None => invokeOrReturn call VUndef initialState
             end) (before_init c s)) as [[v|e|] s2]; reflexivity.
Qed.

(** X4: the first [useReducer] (or [useState]) at a new position.  The
    initial value is [init(initialState)], or [initialState] itself, called
    with [undefined] when it is a function.  When that returns, the cell
    holds the value with the reducer, for its component.  When it throws,
    the error leaves [useReducer] with the cell already marked as
    initialised: as long as the hook list is untouched, every later
    [useReducer] at this position returns [undefined] and never computes an
    initial value again. *)
Theorem useReducer_first_call r initialState init c s :
  currentComponent s = Some c -> c < length (components s) ->
  currentIndex s = length (_list (default (mk_hooks [] []) (Comp.__hooks (get_comp s c)))) ->
  let i := currentIndex s in
  let initialise := match init with
                    | None => invokeOrReturn call VUndef initialState
                    | Some f => call f VUndef [initialState]
                    end in
  (forall v s2,
     initialise (before_init c s) = (Ret v, s2) ->
     Comp.__hooks (get_comp s2 c) = Comp.__hooks (get_comp (before_init c s) c) ->
     c < length (components s2) ->
     fst (useReducer call r initialState init s) = Ret (Hook.State v r, (c, i))
     /\ Hook._component (get_cell (snd (useReducer call r initialState init s)) c i) = Some c
     /\ Hook._value (get_cell (snd (useReducer call r initialState init s)) c i)
        = Hook.State v r)
  /\ (forall e s2,
        initialise (before_init c s) = (Throw e, s2) ->
        useReducer call r initialState init s = (Throw e, s2)
        /\ forall s3 r' initial' init',
             currentComponent s3 = Some c -> c < length (components s3) ->
             currentIndex s3 = i ->
             Comp.__hooks (get_comp s3 c) = Comp.__hooks (get_comp (before_init c s) c) ->
             useReducer call r' initial' init' s3
             = (Ret (Hook.Unset, (c, i)), set_currentIndex (S i) s3)).
Proof.
  intros Hcur Hc Hidx i initialise.
  pose proof (useReducer_fresh r initialState init c s Hcur Hc Hidx) as Hfresh.
  cbv zeta in Hfresh. rewrite <- Hidx in Hfresh. fold i in Hfresh. fold initialise in Hfresh.
  destruct (before_init_hooks c s Hc) as [Hb Hcb]. cbv zeta in Hb.
  set (h := default (mk_hooks [] []) (Comp.__hooks (get_comp s c))) in *.
  assert (Hi : (_list h ++ [marked_cell c]) !! i = Some (marked_cell c)).
  { unfold i. rewrite Hidx. rewrite lookup_app_r by lia. rewrite Nat.sub_diag. reflexivity. }
  split.
  - intros v s2 Hinit Hframe Hc2. rewrite Hfresh. unfold ubind. rewrite Hinit.
    unfold umodify, uget, uret. cbn [fst snd].
    rewrite Hb in Hframe.
    destruct (get_cell_upd_cell c i (fun cell =>
                Hook.mk (Hook._component cell) (Hook.State v r) (Hook._args cell)
                  (Hook._factory cell) (Hook._cleanup cell)) s2 (marked_cell c) _ Hc2 Hframe Hi)
      as [Hcell _].
    rewrite Hcell. cbn [Hook._value Hook._component marked_cell]. auto.
  - intros e s2 Hinit. split.
    + rewrite Hfresh. unfold ubind. rewrite Hinit. reflexivity.
    + intros s3 r' initial' init' Hcur3 Hc3 Hidx3 Hframe. rewrite Hb in Hframe.
      apply (useReducer_initialised r' initial' init' c _ i (marked_cell c) c s3
               Hcur3 Hc3 Hframe Hidx3 Hi). reflexivity.
Qed.

End HookFacts.

(** X5: [argsChanged] answers [false] exactly when old arguments exist and
    every new argument is identical ([===]) to the old one at its position,
    an old argument that is missing reading [undefined]. *)
Lemma some_arg_differs_false old new : forall index,
  some_arg_differs old index new = false
  <-> forall j arg, new !! j = Some arg ->
                    strict_eq arg (default VUndef (old !! (index + j))) = true.
Proof.
  induction new as [|x new IH]; intros index; cbn [some_arg_differs].
  - split; [intros _ j arg H; rewrite lookup_nil in H; discriminate|reflexivity].
  - rewrite orb_false_iff, IH. unfold strict_neq. rewrite negb_false_iff. split.
    + intros [Hx Hrest] [|j] arg Hj; simpl in Hj.
      * injection Hj as <-. rewrite Nat.add_0_r. exact Hx.
      * replace (index + S j) with (S index + j) by lia. apply Hrest. exact Hj.
    + intros H. split.
      * specialize (H 0 x eq_refl). rewrite Nat.add_0_r in H. exact H.
      * intros j arg Hj. replace (S index + j) with (index + S j) by lia. apply H. exact Hj.
Qed.

Theorem argsChanged_spec (oldArgs newArgs : option (list jsval)) :
  (argsChanged oldArgs newArgs = Ret false
   <-> exists old new,
         oldArgs = Some old /\ newArgs = Some new
         /\ forall j arg, new !! j = Some arg ->
                          strict_eq arg (default VUndef (old !! j)) = true)
  /\ (oldArgs = None -> argsChanged oldArgs newArgs = Ret true)
  /\ (forall old, oldArgs = Some old -> newArgs = None ->
                  argsChanged oldArgs newArgs = Throw TypeError)
  /\ (forall old new, oldArgs = Some old -> newArgs = Some new -> In VNaN new ->
                      argsChanged oldArgs newArgs = Ret true)
  /\ (forall old new extra, oldArgs = Some (old ++ extra) -> newArgs = Some new ->
                            length new = length old ->
                            argsChanged oldArgs newArgs = argsChanged (Some old) newArgs).
Proof.
  split; [|split; [|split; [|split]]].
  - unfold argsChanged. split.
    + destruct oldArgs as [old|]; [|discriminate].
      destruct newArgs as [new|]; [|discriminate].
      intros [= H]. exists old, new. repeat split.
      apply (proj1 (some_arg_differs_false old new 0) H).
    + intros (old & new & -> & -> & H). f_equal.
      apply (proj2 (some_arg_differs_false old new 0)). exact H.
  - intros ->. reflexivity.
  - intros old -> ->. reflexivity.
  - intros old new -> -> Hin. unfold argsChanged. f_equal.
    destruct (some_arg_differs old 0 new) eqn:E; [reflexivity|].
    pose proof (proj1 (some_arg_differs_false old new 0) E) as E'.
    exfalso. apply list_elem_of_In in Hin. apply list_elem_of_lookup in Hin as [j Hj].
    specialize (E' j VNaN Hj). discriminate E'.
  - intros old new extra -> -> Hlen. unfold argsChanged. f_equal.
    destruct (some_arg_differs old 0 new) eqn:E.
    + destruct (some_arg_differs (old ++ extra) 0 new) eqn:E'; [reflexivity|].
      exfalso. pose proof (proj1 (some_arg_differs_false _ new 0) E') as E1.
      assert (E2 : some_arg_differs old 0 new = false).
      { apply (proj2 (some_arg_differs_false old new 0)). intros j arg Hj.
        specialize (E1 j arg Hj). cbn [Nat.add] in *.
        rewrite lookup_app_l in E1; [exact E1|].
        apply lookup_lt_Some in Hj. lia. }
      congruence.
    + pose proof (proj1 (some_arg_differs_false old new 0) E) as E1.
      apply (proj2 (some_arg_differs_false _ new 0)). intros j arg Hj.
      specialize (E1 j arg Hj). cbn [Nat.add] in *.
      rewrite lookup_app_l; [exact E1|]. apply lookup_lt_Some in Hj. lia.
Qed.

Section MemoFacts.
Variable call : fid -> jsval -> list jsval -> U jsval.

Lemma before_factory_cell c i factory args s h cell :
  c < length (components s) ->
  Comp.__hooks (get_comp s c) = Some h -> _list h !! i = Some cell ->
  exists h', Comp.__hooks (get_comp (before_factory c i factory args s) c) = Some h'
             /\ _list h' !! i
                = Some (Hook.mk (Hook._component cell) (Hook._value cell) args (Some factory)
                          (Hook._cleanup cell))
             /\ c < length (components (before_factory c i factory args s)).
Proof.
  intros Hc Hh Hi. unfold before_factory.
  set (s0 := set_currentIndex (S i) s).
  assert (Hc0 : c < length (components s0)) by exact Hc.
  assert (Hh0 : Comp.__hooks (get_comp s0 c) = Some h) by exact Hh.
  destruct (get_cell_upd_cell c i (fun cell0 =>
              Hook.mk (Hook._component cell0) (Hook._value cell0) args (Hook._factory cell0)
                (Hook._cleanup cell0)) s0 cell h Hc0 Hh0 Hi) as [_ Hh1].
  set (s1 := upd_cell c i _ s0) in *.
  assert (Hc1 : c < length (components s1)).
  { unfold s1, upd_cell. rewrite length_upd_comp. exact Hc0. }
  assert (Hi1 : _list (mk_hooks (alter (fun cell0 =>
              Hook.mk (Hook._component cell0) (Hook._value cell0) args (Hook._factory cell0)
                (Hook._cleanup cell0)) i (_list h)) (_pendingEffects h)) !! i
                = Some (Hook.mk (Hook._component cell) (Hook._value cell) args
                          (Hook._factory cell) (Hook._cleanup cell))).
  { cbn [_list]. rewrite list_lookup_alter_eq, Hi. reflexivity. }
  destruct (get_cell_upd_cell c i (fun cell0 =>
              Hook.mk (Hook._component cell0) (Hook._value cell0) (Hook._args cell0)
                (Some factory) (Hook._cleanup cell0)) s1 _ _ Hc1 Hh1 Hi1) as [_ Hh2].
  eexists. split; [exact Hh2|]. split.
  - cbn [_list] in Hi1 |- *. rewrite list_lookup_alter_eq, Hi1. reflexivity.
  - unfold upd_cell. rewrite length_upd_comp. exact Hc1.
Qed.

(** The steps of [useMemo] at an existing cell, up to the call of the
    factory. *)
Lemma useMemo_start c i :
  forall factory0 args0 s0 h0 cell0,
    currentComponent s0 = Some c -> c < length (components s0) ->
    Comp.__hooks (get_comp s0 c) = Some h0 -> currentIndex s0 = i ->
    _list h0 !! i = Some cell0 ->
    useMemo call factory0 args0 s0
    = match argsChanged (Hook._args cell0) args0 with
      | Ret true =>
          ubind (call factory0 VUndef [])
            (fun v => ubind (umodify (upd_cell c i (fun cell1 =>
                               Hook.mk (Hook._component cell1) (Hook.Memo v) (Hook._args cell1)
                                 (Hook._factory cell1) (Hook._cleanup cell1))))
                        (fun _ => uret (Hook.Memo v)))
            (before_factory c i factory0 args0 s0)
      | Ret false => (Ret (Hook._value cell0), set_currentIndex (S i) s0)
      | Throw e => (Throw e, set_currentIndex (S i) s0)
      | Diverge => (Diverge, set_currentIndex (S i) s0)
      end.
Proof.
  intros factory0 args0 s0 h0 cell0 Hcur0 Hc0 Hh0 Hidx0 Hi0.
  assert (Hlt0 : i < length (_list h0)) by (apply lookup_lt_is_Some; eauto).
  unfold useMemo. unfold ubind at 1, uget at 1. unfold ubind at 1, umodify at 1.
  rewrite Hidx0. unfold ubind at 1.
  rewrite (getHookState_existing c h0 i (set_currentIndex (S i) s0)); try assumption.
  cbn [fst snd]. unfold ubind at 1, uget at 1.
  change (get_comp (set_currentIndex (S i) s0) c) with (get_comp s0 c).
  rewrite Hh0. apply Nat.ltb_lt in Hlt0. rewrite Hlt0.
  change (get_cell (set_currentIndex (S i) s0) c i) with (get_cell s0 c i).
  rewrite (get_cell_lookup s0 c i h0 cell0 Hh0 Hi0).
  unfold ubind at 1.
  destruct (argsChanged (Hook._args cell0) args0) as [[|]|e|]; reflexivity.
Qed.

(** X6: [useMemo] at an existing cell.  When the arguments have not changed
    it returns what the cell holds, without calling the factory and
    changing nothing but the hook index.  When they have changed it stores
    the new arguments and the factory, then calls the factory once and
    stores what it returns.  The arguments are stored before the factory
    runs: when the factory throws, a later [useMemo] with the same
    arguments returns the cell's old value and does not call the factory
    again. *)
Theorem useMemo_recomputes_only_on_change factory args c h i cell s :
  currentComponent s = Some c -> c < length (components s) ->
  Comp.__hooks (get_comp s c) = Some h ->
  currentIndex s = i ->
  _list h !! i = Some cell ->
  (argsChanged (Hook._args cell) args = Ret false ->
   useMemo call factory args s = (Ret (Hook._value cell), set_currentIndex (S i) s))
  /\ (argsChanged (Hook._args cell) args = Throw TypeError ->
      useMemo call factory args s = (Throw TypeError, set_currentIndex (S i) s))
  /\ (argsChanged (Hook._args cell) args = Ret true ->
      (forall v s2,
         call factory VUndef [] (before_factory c i factory args s) = (Ret v, s2) ->
         useMemo call factory args s
         = (Ret (Hook.Memo v),
            upd_cell c i (fun cell0 =>
                Hook.mk (Hook._component cell0) (Hook.Memo v) (Hook._args cell0)
                  (Hook._factory cell0) (Hook._cleanup cell0)) s2))
      /\ (forall e s2,
            call factory VUndef [] (before_factory c i factory args s) = (Throw e, s2) ->
            useMemo call factory args s = (Throw e, s2)
            /\ forall s3 factory',
                 argsChanged args args = Ret false ->
                 currentComponent s3 = Some c -> c < length (components s3) ->
                 currentIndex s3 = i ->
                 Comp.__hooks (get_comp s3 c)
                 = Comp.__hooks (get_comp (before_factory c i factory args s) c) ->
                 useMemo call factory' args s3
                 = (Ret (Hook._value cell), set_currentIndex (S i) s3))).
Proof.
  intros Hcur Hc Hh Hidx Hi.
  assert (Hlt : i < length (_list h)) by (apply lookup_lt_is_Some; eauto).
  rewrite (useMemo_start c i factory args s h cell Hcur Hc Hh Hidx Hi).
  split; [|split].
  - intros ->. reflexivity.
  - intros ->. reflexivity.
  - intros ->. split.
    + intros v s2 Hcall. unfold ubind. rewrite Hcall. reflexivity.
    + intros e s2 Hcall. split; [unfold ubind; rewrite Hcall; reflexivity|].
      intros s3 factory' Hsame Hcur3 Hc3 Hidx3 Hframe.
      destruct (before_factory_cell c i factory args s h cell Hc Hh Hi) as (h' & Hh' & Hi' & _).
      rewrite Hh' in Hframe.
      rewrite (useMemo_start c i factory' args s3 h' _ Hcur3 Hc3 Hframe Hidx3 Hi').
      cbn [Hook._args Hook._value]. rewrite Hsame. reflexivity.
Qed.

Variable callback_factory : jsval -> fid.

(** X7: [useCallback] keeps the identity of the callback.  The first
    [useCallback(callback, args)] at a new position returns [callback];
    a later one at that position with arguments that are all identical to
    the stored ones returns that first callback, whatever callback it is
    given. *)
Theorem useCallback_keeps_identity callback args c s :
  currentComponent s = Some c -> c < length (components s) ->
  currentIndex s = length (_list (default (mk_hooks [] []) (Comp.__hooks (get_comp s c)))) ->
  (forall s0, call (callback_factory callback) VUndef [] s0 = (Ret callback, s0)) ->
  let i := currentIndex s in
  let s1 := snd (useCallback call callback_factory callback (Some args) s) in
  fst (useCallback call callback_factory callback (Some args) s) = Ret (Hook.Memo callback)
  /\ forall callback' args' s3,
       currentComponent s3 = Some c -> c < length (components s3) -> currentIndex s3 = i ->
       Comp.__hooks (get_comp s3 c) = Comp.__hooks (get_comp s1 c) ->
       (forall j arg, args' !! j = Some arg ->
                      strict_eq arg (default VUndef (args !! j)) = true) ->
       useCallback call callback_factory callback' (Some args') s3
       = (Ret (Hook.Memo callback), set_currentIndex (S i) s3).
Proof.
  intros Hcur Hc Hidx Hfactory i s1.
  set (h0 := default (mk_hooks [] []) (Comp.__hooks (get_comp s c))) in *.
  (* the first call appends a cell *)
  set (sA := upd_comp c (CompSet.__hooks
                (Some (mk_hooks (_list h0 ++ [blank_cell]) (_pendingEffects h0))))
               (set_currentIndex (S i) s)).
  assert (HhA : Comp.__hooks (get_comp sA c)
                = Some (mk_hooks (_list h0 ++ [blank_cell]) (_pendingEffects h0))).
  { unfold sA. rewrite get_upd_comp_same by exact Hc. reflexivity. }
  assert (HcA : c < length (components sA)) by (unfold sA; rewrite length_upd_comp; exact Hc).
  assert (HiA : (_list h0 ++ [blank_cell]) !! i = Some blank_cell).
  { unfold i. rewrite Hidx. rewrite lookup_app_r by lia. rewrite Nat.sub_diag. reflexivity. }
  assert (Hlt : Nat.ltb i (length (_list h0 ++ [blank_cell])) = true).
  { apply Nat.ltb_lt. apply lookup_lt_is_Some. eauto. }
  set (f := callback_factory callback).
  set (F1 := fun cell0 => Hook.mk (Hook._component cell0) (Hook._value cell0) (Some args)
                            (Hook._factory cell0) (Hook._cleanup cell0)).
  set (F2 := fun cell0 => Hook.mk (Hook._component cell0) (Hook._value cell0) (Hook._args cell0)
                            (Some f) (Hook._cleanup cell0)).
  set (F3 := fun cell0 => Hook.mk (Hook._component cell0) (Hook.Memo callback) (Hook._args cell0)
                            (Hook._factory cell0) (Hook._cleanup cell0)).
  assert (Hfirst : useCallback call callback_factory callback (Some args) s
                   = (Ret (Hook.Memo callback), upd_cell c i F3 (upd_cell c i F2 (upd_cell c i F1 sA)))).
  { unfold useCallback, useMemo. fold f.
    unfold ubind at 1, uget at 1. unfold ubind at 1, umodify at 1. fold i.
    unfold ubind at 1.
    pose proof (getHookState_fresh c (set_currentIndex (S i) s) Hcur) as Hg.
    cbv zeta in Hg.
    change (get_comp (set_currentIndex (S i) s) c) with (get_comp s c) in Hg.
    fold h0 in Hg. rewrite <- Hidx in Hg. fold i in Hg. fold sA in Hg. rewrite Hg.
    cbn [fst snd]. unfold ubind at 1, uget at 1. rewrite HhA. cbn [_list]. rewrite Hlt.
    rewrite (get_cell_lookup sA c i _ blank_cell HhA HiA). cbn [blank_cell Hook._args argsChanged].
    unfold ubind at 1. unfold ubind at 1, umodify at 1. unfold ubind at 1, umodify at 1.
    fold F1. fold F2. unfold ubind at 1. unfold f at 1. rewrite Hfactory.
    reflexivity. }
  split; [rewrite Hfirst; reflexivity|].
  intros callback' args' s3 Hcur3 Hc3 Hidx3 Hframe Hsame.
  (* the cell the first call leaves *)
  destruct (get_cell_upd_cell c i F1 sA blank_cell _ HcA HhA HiA) as [_ Hh1].
  assert (Hc1 : c < length (components (upd_cell c i F1 sA)))
    by (unfold upd_cell; rewrite length_upd_comp; exact HcA).
  assert (Hi1 : _list (mk_hooks (alter F1 i (_list h0 ++ [blank_cell])) (_pendingEffects h0)) !! i
                = Some (F1 blank_cell)).
  { cbn [_list]. rewrite list_lookup_alter_eq, HiA. reflexivity. }
  destruct (get_cell_upd_cell c i F2 _ _ _ Hc1 Hh1 Hi1) as [_ Hh2].
  assert (Hc2 : c < length (components (upd_cell c i F2 (upd_cell c i F1 sA))))
    by (unfold upd_cell at 1; rewrite length_upd_comp; exact Hc1).
  match type of Hh2 with _ = Some ?hh => set (h2 := hh) in * end.
  assert (Hi2 : _list h2 !! i = Some (F2 (F1 blank_cell))).
  { unfold h2. cbn [_list] in Hi1 |- *. rewrite list_lookup_alter_eq, Hi1. reflexivity. }
  destruct (get_cell_upd_cell c i F3 _ _ _ Hc2 Hh2 Hi2) as [_ Hh3].
  match type of Hh3 with _ = Some ?hh => set (h3 := hh) in * end.
  assert (Hi3 : _list h3 !! i = Some (F3 (F2 (F1 blank_cell)))).
  { unfold h3. cbn [_list]. rewrite list_lookup_alter_eq, Hi2. reflexivity. }
  unfold s1 in Hframe. rewrite Hfirst in Hframe. cbn [snd] in Hframe. rewrite Hh3 in Hframe.
  unfold useCallback.
  rewrite (useMemo_start c i (callback_factory callback') (Some args') s3 h3 _
             Hcur3 Hc3 Hframe Hidx3 Hi3).
  cbn [F3 F2 F1 Hook._args Hook._value blank_cell argsChanged].
  rewrite (proj2 (some_arg_differs_false args args' 0) Hsame). reflexivity.
Qed.

End MemoFacts.


(** * [createElement] *)

Section CreateElementFacts.
Variable defaultProps : fid -> jsval.


End CreateElementFacts.


(** * Rendering to a string *)

Lemma append_assoc (a b c : string) :
  String.append (String.append a b) c = String.append a (String.append b c).
Proof.
  induction a as [|x a IH]; [reflexivity|].
  change (String x (String.append (String.append a b) c)
          = String x (String.append a (String.append b c))).
  f_equal. exact IH.
Qed.

Lemma replace_all_append c by_ s t :
  replace_all c by_ (String.append s t)
  = String.append (replace_all c by_ s) (replace_all c by_ t).
Proof.
  induction s as [|x s IH]; [reflexivity|].
  change (String.append (String x s) t) with (String x (String.append s t)).
  cbn [replace_all]. destruct (Ascii.eqb x c).
  - rewrite IH. symmetry. apply append_assoc.
  - rewrite IH. reflexivity.
Qed.

Lemma encodeEntities_each s : encodeEntities s = encode_each s.
Proof.
  unfold encodeEntities. induction s as [|x s IH]; [reflexivity|].
  cbn [replace_all encode_each]. unfold entity.
  destruct (Ascii.eqb x "&") eqn:E1.
  - rewrite !replace_all_append, IH. reflexivity.
  - cbn [replace_all]. destruct (Ascii.eqb x "<") eqn:E2.
    + rewrite !replace_all_append, IH. reflexivity.
    + cbn [replace_all]. destruct (Ascii.eqb x ">") eqn:E3.
      * rewrite !replace_all_append, IH. reflexivity.
      * cbn [replace_all]. destruct (Ascii.eqb x quote) eqn:E4.
        -- rewrite IH. reflexivity.
        -- rewrite IH. reflexivity.
Qed.

Lemma chars_append s t : chars (String.append s t) = chars s ++ chars t.
Proof.
  induction s as [|x s IH]; [reflexivity|].
  change (x :: chars (String.append s t) = x :: (chars s ++ chars t)).
  f_equal. exact IH.
Qed.

Lemma entity_no_markup x : forallb (fun y => negb (markup y)) (chars (entity x)) = true.
Proof.
  unfold entity.
  destruct (Ascii.eqb x "&") eqn:E1; [reflexivity|].
  destruct (Ascii.eqb x "<") eqn:E2; [reflexivity|].
  destruct (Ascii.eqb x ">") eqn:E3; [reflexivity|].
  destruct (Ascii.eqb x quote) eqn:E4; [reflexivity|].
  cbn [chars forallb]. unfold markup. rewrite E2, E3, E4. reflexivity.
Qed.

Lemma entity_cases x :
  (x = "&"%char /\ entity x = "&amp;")
  \/ (x = "<"%char /\ entity x = "&lt;")
  \/ (x = ">"%char /\ entity x = "&gt;")
  \/ (x = quote /\ entity x = "&quot;")
  \/ (x <> "&"%char /\ entity x = String x EmptyString).
Proof.
  unfold entity.
  destruct (Ascii.eqb x "&") eqn:E1; [apply Ascii.eqb_eq in E1; auto|].
  destruct (Ascii.eqb x "<") eqn:E2; [apply Ascii.eqb_eq in E2; auto|].
  destruct (Ascii.eqb x ">") eqn:E3; [apply Ascii.eqb_eq in E3; auto|].
  destruct (Ascii.eqb x quote) eqn:E4; [apply Ascii.eqb_eq in E4; auto 6|].
  apply Ascii.eqb_neq in E1. auto 6.
Qed.

Lemma entity_inj x y rest rest' :
  String.append (entity x) rest = String.append (entity y) rest' -> x = y /\ rest = rest'.
Proof.
  destruct (entity_cases x) as [[Hx ->]|[[Hx ->]|[[Hx ->]|[[Hx ->]|[Hx ->]]]]];
  destruct (entity_cases y) as [[Hy ->]|[[Hy ->]|[[Hy ->]|[[Hy ->]|[Hy ->]]]]];
  cbv beta iota delta [String.append]; intros H;
  try discriminate H;
  try (injection H; intros; subst; split; congruence).
Qed.

(** X9: [encodeEntities] never lets a [<], a [>] or a double quote through,
    loses nothing (two different strings have different encodings), and
    returns a string without [&], [<], [>] and double quotes as it is. *)
Theorem encodeEntities_escapes_markup (s : string) :
  forallb (fun y => negb (markup y)) (chars (encodeEntities s)) = true
  /\ (forall t, encodeEntities s = encodeEntities t -> s = t)
  /\ (forallb (fun y => negb (markup y || Ascii.eqb y "&")) (chars s) = true ->
      encodeEntities s = s).
Proof.
  split; [|split].
  - rewrite encodeEntities_each. induction s as [|x s IH]; [reflexivity|].
    cbn [encode_each]. rewrite chars_append, forallb_app, entity_no_markup, IH. reflexivity.
  - intros t. rewrite !encodeEntities_each. revert t.
    induction s as [|x s IH]; intros [|y t]; cbn [encode_each]; intros H.
    + reflexivity.
    + exfalso. unfold entity in H.
      destruct (Ascii.eqb y "&"); [discriminate|].
      destruct (Ascii.eqb y "<"); [discriminate|].
      destruct (Ascii.eqb y ">"); [discriminate|].
      destruct (Ascii.eqb y quote); discriminate.
    + exfalso. unfold entity in H.
      destruct (Ascii.eqb x "&"); [discriminate|].
      destruct (Ascii.eqb x "<"); [discriminate|].
      destruct (Ascii.eqb x ">"); [discriminate|].
      destruct (Ascii.eqb x quote); discriminate.
    + apply entity_inj in H as [-> H]. f_equal. apply IH. exact H.
  - rewrite encodeEntities_each. induction s as [|x s IH]; [reflexivity|].
    cbn [chars forallb encode_each]. intros H. apply andb_prop in H as [Hx Hs].
    rewrite (IH Hs). unfold entity, markup in *.
    apply negb_true_iff in Hx. rewrite !orb_false_iff in Hx.
    destruct Hx as [[[H2 H3] H4] H1]. rewrite H1, H2, H3, H4. reflexivity.
Qed.

Lemma reduce_not_Ret fuel s items start :
  (forall l, start <> Ret l) -> reduce_getChildren fuel s items start = start.
Proof.
  revert start. induction items as [|x items IH]; intros start H; [reflexivity|].
  cbn [reduce_getChildren fold_left]. destruct start as [l|e|]; [congruence| |];
    apply (IH _ H).
Qed.

Lemma getChildren_accumulator fuel s : forall acc children,
  getChildren fuel s acc children = prepend acc (getChildren fuel s [] children).
Proof.
  induction fuel as [|fuel IH]; intros acc children; [reflexivity|].
  cbn [getChildren]. destruct children as [| |b|z| |str|o|f|v|c|a|d|e].
  1-10, 12-13:
    cbn [is_nullish negb andb]; try destruct (strict_neq _ _);
    cbn [prepend app]; rewrite ?app_nil_r; reflexivity.
  (* an array *)
  change (reduce_getChildren fuel s (get_array s a) (Ret acc)
          = prepend acc (reduce_getChildren fuel s (get_array s a) (Ret []))).
  generalize (get_array s a) as items.
  assert (Hgen : forall items acc0 l0,
            reduce_getChildren fuel s items (Ret (acc0 ++ l0))
            = prepend acc0 (reduce_getChildren fuel s items (Ret l0))).
  { induction items as [|x items IHi]; intros acc0 l0; [reflexivity|].
    change (reduce_getChildren fuel s (x :: items) (Ret (acc0 ++ l0)))
      with (reduce_getChildren fuel s items (getChildren fuel s (acc0 ++ l0) x)).
    change (reduce_getChildren fuel s (x :: items) (Ret l0))
      with (reduce_getChildren fuel s items (getChildren fuel s l0 x)).
    rewrite (IH (acc0 ++ l0) x), (IH l0 x).
    destruct (getChildren fuel s [] x) as [l|e|]; cbn [prepend].
    - rewrite <- app_assoc. apply IHi.
    - rewrite !reduce_not_Ret by discriminate. reflexivity.
    - rewrite !reduce_not_Ret by discriminate. reflexivity. }
  intros items. rewrite <- (app_nil_r acc) at 1. apply Hgen.
Qed.

Lemma reduce_prepend fuel s items : forall acc0 l0,
  reduce_getChildren fuel s items (Ret (acc0 ++ l0))
  = prepend acc0 (reduce_getChildren fuel s items (Ret l0)).
Proof.
  induction items as [|x items IHi]; intros acc0 l0; [reflexivity|].
  change (reduce_getChildren fuel s (x :: items) (Ret (acc0 ++ l0)))
    with (reduce_getChildren fuel s items (getChildren fuel s (acc0 ++ l0) x)).
  change (reduce_getChildren fuel s (x :: items) (Ret l0))
    with (reduce_getChildren fuel s items (getChildren fuel s l0 x)).
  rewrite (getChildren_accumulator fuel s (acc0 ++ l0) x),
          (getChildren_accumulator fuel s l0 x).
  destruct (getChildren fuel s [] x) as [l|e|]; cbn [prepend].
  - rewrite <- app_assoc. apply IHi.
  - rewrite !reduce_not_Ret by discriminate. reflexivity.
  - rewrite !reduce_not_Ret by discriminate. reflexivity.
Qed.

Lemma reduce_getChildren_cons fuel s x items l0 :
  reduce_getChildren fuel s (x :: items) (Ret l0)
  = match getChildren fuel s [] x with
    | Ret l => prepend (l0 ++ l) (reduce_getChildren fuel s items (Ret []))
    | other => other
    end.
Proof.
  change (reduce_getChildren fuel s (x :: items) (Ret l0))
    with (reduce_getChildren fuel s items (getChildren fuel s l0 x)).
  rewrite (getChildren_accumulator fuel s l0 x).
  destruct (getChildren fuel s [] x) as [l|e|]; cbn [prepend].
  - rewrite <- (app_nil_r (l0 ++ l)) at 1. apply reduce_prepend.
  - apply reduce_not_Ret. discriminate.
  - apply reduce_not_Ret. discriminate.
Qed.

(** X10: [getChildren] appends to the accumulator, in order, the leaves of
    the nested arrays of [children] that are not [null], [undefined] or
    [false] ([true] is kept); what it appends does not depend on the
    accumulator and never holds an array. *)
Theorem getChildren_flattens fuel s accumulator children result :
  getChildren fuel s accumulator children = Ret result ->
  exists leaves,
    result = accumulator ++ leaves
    /\ getChildren fuel s [] children = Ret leaves
    /\ Forall (fun x => kept x = true) leaves
    /\ match children with
       | VArr a =>
           exists parts,
             Forall2 (fun child part => getChildren (pred fuel) s [] child = Ret part)
               (get_array s a) parts
             /\ leaves = concat parts
       | _ => leaves = if kept children then [children] else []
       end.
Proof.
  rewrite getChildren_accumulator.
  destruct (getChildren fuel s [] children) as [leaves|e|] eqn:Hl; cbn [prepend];
    [|discriminate|discriminate].
  intros [= <-]. exists leaves. split; [reflexivity|]. split; [reflexivity|].
  clear accumulator. revert children leaves Hl.
  induction fuel as [|fuel IH]; intros children leaves Hl; [discriminate|].
  cbn [getChildren] in Hl. cbn [pred].
  assert (Harr : forall items l,
            reduce_getChildren fuel s items (Ret []) = Ret l ->
            Forall (fun x => kept x = true) l
            /\ exists parts,
                 Forall2 (fun child part => getChildren fuel s [] child = Ret part) items parts
                 /\ l = concat parts).
  { induction items as [|x items IHi]; intros l Hr.
    - injection Hr as <-. split; [constructor|]. exists []. split; [constructor|reflexivity].
    - rewrite reduce_getChildren_cons in Hr.
      destruct (getChildren fuel s [] x) as [lx|e|] eqn:Hx; [|discriminate|discriminate].
      destruct (reduce_getChildren fuel s items (Ret [])) as [lr|e|] eqn:Hrest;
        cbn [prepend app] in Hr; [|discriminate|discriminate].
      injection Hr as <-.
      destruct (IHi lr eq_refl) as [Hk (parts & Hparts & ->)].
      destruct (IH x lx Hx) as [Hkx _].
      split; [apply Forall_app; split; assumption|].
      exists (lx :: parts). split; [constructor; assumption|reflexivity]. }
  destruct children as [| |b|z| |str|o|f|v|c|a|d|e].
  11: apply (Harr (get_array s a) leaves Hl).
  3: destruct b.
  all: vm_compute in Hl; injection Hl as <-; split; [repeat constructor|reflexivity].
Qed.


(** * What a computation emits *)

Lemma emits_ret {E A} (P : E -> Prop) (a : A) : emits_only P (mret a).
Proof. intros s. constructor. Qed.

Lemma emits_throw {E A} (P : E -> Prop) e : emits_only P (@mthrow E A e).
Proof. intros s. constructor. Qed.

Lemma emits_diverge {E A} (P : E -> Prop) : emits_only P (@mdiverge E A).
Proof. intros s. constructor. Qed.

Lemma emits_get {E} (P : E -> Prop) : emits_only P mget.
Proof. intros s. constructor. Qed.

Lemma emits_modify {E} (P : E -> Prop) f : emits_only P (mmodify f).
Proof. intros s. constructor. Qed.

Lemma emits_lift {E A} (P : E -> Prop) (m : U A) : emits_only P (lift m).
Proof. intros s. unfold lift. destruct (m s). constructor. Qed.

Lemma emits_emit {E} (P : E -> Prop) e : P e -> emits_only P (emit e).
Proof. intros H s. repeat constructor. exact H. Qed.

Lemma emits_bind {E A B} (P : E -> Prop) (m : M E A) (k : A -> M E B) :
  emits_only P m -> (forall a, emits_only P (k a)) -> emits_only P (mbind m k).
Proof.
  intros Hm Hk s. unfold mbind. specialize (Hm s).
  destruct (m s) as [[[a|e|] s1] ev1]; cbn [snd] in *; try exact Hm.
  specialize (Hk a s1). destruct (k a s1) as [[r s2] ev2]. cbn [snd] in *.
  apply Forall_app. split; assumption.
Qed.

Lemma emits_try_catch {E A} (P : E -> Prop) (m : M E A) (h : jsval -> M E A) :
  emits_only P m -> (forall e, emits_only P (h e)) -> emits_only P (try_catch m h).
Proof.
  intros Hm Hh s. unfold try_catch. specialize (Hm s).
  destruct (m s) as [[[a|e|] s1] ev1]; cbn [snd] in *; try exact Hm.
  specialize (Hh e s1). destruct (h e s1) as [[r s2] ev2]. cbn [snd] in *.
  apply Forall_app. split; assumption.
Qed.

Lemma emits_relabel {E F A} (P : F -> Prop) (f : E -> F) (m : M E A) :
  (forall e, P (f e)) -> emits_only P (relabel f m).
Proof.
  intros H s. unfold relabel. destruct (m s) as [[r s1] ev]. cbn [snd].
  apply Forall_map. apply Forall_forall. intros e _. apply H.
Qed.

Lemma emits_nest {E F A} (P : F -> Prop) (wrap : list E -> F) (m : M E A) :
  (forall ev, P (wrap ev)) -> emits_only P (nest wrap m).
Proof.
  intros H s. unfold nest. destruct (m s) as [[r s1] ev]. cbn [snd].
  repeat constructor. apply H.
Qed.

Lemma emits_weaken {E A} (P Q : E -> Prop) (m : M E A) :
  (forall e, P e -> Q e) -> emits_only P m -> emits_only Q m.
Proof. intros H Hm s. eapply Forall_impl; [apply Hm|exact H]. Qed.

Ltac emits_step :=
  first
    [ apply emits_ret | apply emits_throw | apply emits_diverge | apply emits_get
    | apply emits_modify | apply emits_lift
    | apply emits_bind; [|intros ?]
    | apply emits_try_catch; [|intros ?]
    | match goal with
      | |- emits_only _ (if ?b then _ else _) => destruct b
      | |- emits_only _ (match ?x with _ => _ end) => destruct x
      end ].

Ltac emits := repeat (cbv zeta; emits_step).

(** * Unmounting *)

Section UnmountFacts.
Variable classes : fid -> class_decl.
Variable call : fid -> jsval -> list jsval -> U jsval.

Lemma applyRef_no_removal fuel ref value vnode :
  emits_only not_removal (applyRef classes call fuel ref value vnode).
Proof.
  unfold applyRef. emits; try (apply emits_emit; exact I).
  all: apply emits_relabel; intros; exact I.
Qed.

(** Below a host node that is removed, nothing is removed. *)
Lemma unmount_skipRemove fuel : forall vnode parentVNode,
  emits_only not_removal (unmount classes call fuel vnode parentVNode true).
Proof.
  induction fuel as [|fuel IH]; intros vnode parentVNode; [apply emits_diverge|].
  cbn [unmount negb andb].
  apply emits_bind; [apply emits_relabel; intros; exact I|intros _].
  apply emits_bind; [apply emits_get|intros s].
  apply emits_bind.
  { destruct (truthy _); [|apply emits_ret].
    apply emits_bind; [apply emits_lift|intros current].
    apply emits_bind; [apply emits_get|intros s0].
    destruct (_ || _); [apply applyRef_no_removal|apply emits_ret]. }
  intros _. apply emits_bind; [apply emits_get|intros s1]. cbv zeta.
  apply emits_bind; [apply emits_modify|intros _].
  apply emits_bind; [apply emits_modify|intros _].
  apply emits_bind; [apply emits_get|intros s2].
  apply emits_bind.
  { destruct (VNode._component _) as [c|]; [|apply emits_ret].
    apply emits_bind.
    - destruct (componentWillUnmount _) as [f|]; [|apply emits_ret].
      apply emits_try_catch.
      + apply emits_bind; [apply emits_relabel; intros; exact I|intros ?; apply emits_ret].
      + intros e. apply emits_relabel; intros; exact I.
    - intros _. apply emits_bind; [apply emits_modify|intros _; apply emits_modify]. }
  intros _. apply emits_bind; [apply emits_get|intros s3].
  apply emits_bind; [|intros _; apply emits_ret].
  destruct (VNode._children _) as [| | | | | | | | | |a| |]; try apply emits_ret.
  generalize (get_array s3 a) as children.
  induction children as [|child rest IHc]; [apply emits_ret|].
  apply emits_bind; [|intros _; exact IHc].
  destruct child; try apply IH; emits.
Qed.

Lemma bind_get {E A} (k : store -> M E A) s : mbind mget k s = k s s.
Proof. unfold mbind, mget. destruct (k s s) as [[r s'] ev]. reflexivity. Qed.

Lemma bind_ret {E A B} (a : A) (k : A -> M E B) s : mbind (mret a) k s = k a s.
Proof. unfold mbind, mret. destruct (k a s) as [[r s'] ev]. reflexivity. Qed.

Lemma bind_modify {E A} f (k : unit -> M E A) s : mbind (mmodify f) k s = k tt (f s).
Proof. unfold mbind, mmodify. destruct (k tt (f s)) as [[r s'] ev]. reflexivity. Qed.

Lemma options_unmount_no_component fuel vnode s :
  VNode._component (get_vnode s vnode) = None ->
  relabel UEngine (options_unmount classes call fuel vnode) s = (Ret tt, s, []).
Proof.
  intros H. unfold relabel, options_unmount. rewrite bind_get, H. reflexivity.
Qed.

(** X11: [unmount] hands to [removeNode] only the topmost host nodes of the
    tree it unmounts.  Called with [skipRemove], it removes nothing at all.
    Called without it on a host vnode that has a host node [d], no
    component and no ref, it unmounts the subtree without removing anything
    below, and removes [d] last, when the subtree was unmounted without an
    error coming out; when an error comes out, nothing is removed. *)
Theorem unmount_removes_topmost_host_node_only fuel vnode parentVNode s :
  Forall not_removal (snd (unmount classes call fuel vnode parentVNode true s))
  /\ forall d,
       (forall f, VNode.type (get_vnode s vnode) <> TyFun f) ->
       VNode._component (get_vnode s vnode) = None ->
       truthy (VNode.ref (get_vnode s vnode)) = false ->
       VNode._dom (get_vnode s vnode) = DNode d ->
       exists below,
         Forall not_removal below
         /\ snd (unmount classes call fuel vnode parentVNode false s)
            = match fst (fst (unmount classes call fuel vnode parentVNode false s)) with
              | Ret _ => below ++ [URemoveNode d]
              | _ => below
              end.
Proof.
  split; [apply unmount_skipRemove|].
  intros d Htype Hcomp Href Hdom.
  destruct fuel as [|fuel]; [exists []; split; [constructor|reflexivity]|].
  assert (Hrun : exists r s3 below,
            Forall not_removal below
            /\ unmount classes call (S fuel) vnode parentVNode false s
               = (r, s3, match r with
                         | Ret _ => below ++ [URemoveNode d]
                         | _ => below
                         end)).
  { cbn [unmount]. unfold mbind at 1.
    rewrite (options_unmount_no_component (S fuel) vnode s Hcomp). cbv iota beta.
    rewrite bind_get, Href, bind_ret, bind_get. cbv zeta.
    assert (Hdetach : match VNode.type (get_vnode s vnode) with
                      | TyFun _ => false
                      | _ => true
                      end = true).
    { destruct (VNode.type (get_vnode s vnode)) as [| |f] eqn:E; try reflexivity.
      exfalso. apply (Htype f). reflexivity. }
    rewrite Hdetach, Hdom. cbn [negb andb dom_is_null].
    rewrite !bind_modify, bind_get.
    set (s2 := upd_vnode vnode (VNodeSet._dom DUndef)
                 (upd_vnode vnode (VNodeSet._nextDom DUndef) s)).
    assert (Hcomp2 : VNode._component (get_vnode s2 vnode) = None).
    { unfold s2. rewrite !(get_upd_vnode_field VNode._component) by reflexivity. exact Hcomp. }
    rewrite Hcomp2, bind_ret, bind_get.
    match goal with
    | |- context [mbind ?loop (fun _ => emit (URemoveNode d)) s2] =>
        assert (Hloop : emits_only not_removal loop)
    end.
    { destruct (VNode._children _) as [| | | | | | | | | |a| |]; try apply emits_ret.
      generalize (get_array s2 a) as children.
      induction children as [|child rest IHc]; [apply emits_ret|].
      apply emits_bind; [|intros _; exact IHc].
      destruct child; try apply unmount_skipRemove; emits. }
    unfold mbind at 1. specialize (Hloop s2).
    match goal with
    | |- context [match ?loop s2 with _ => _ end] =>
        destruct (loop s2) as [[[[]|e|] s3] below]
    end; cbn [snd fst emit app] in *.
    - exists (Ret tt), s3, below. split; [exact Hloop|reflexivity].
    - exists (Throw e), s3, below. split; [exact Hloop|reflexivity].
    - exists Diverge, s3, below. split; [exact Hloop|reflexivity]. }
  destruct Hrun as (r & s3 & below & Hbelow & ->). cbn [fst snd].
  exists below. split; [exact Hbelow|reflexivity].
Qed.

End UnmountFacts.


Section Lifecycle.
Variable classes : fid -> class_decl.
Variable call : fid -> jsval -> list jsval -> U jsval.
Variable diffChildren :
  did -> vid -> option vid -> jsval -> bool -> option aid -> olddom -> bool ->
  store -> res unit * store * list domop.
Variable diffElementNodes :
  domv -> vid -> option vid -> jsval -> bool -> option aid -> bool ->
  store -> res domv * store * list domop.

Lemma emits_ecall (allowed : method -> bool) c m f this args :
  allowed m = true -> emits_only (calls_within allowed) (ecall call c m f this args).
Proof.
  intros H. unfold ecall. apply emits_bind; [apply emits_emit; exact H|intros _; apply emits_lift].
Qed.

Lemma emits_catch_loop (allowed : method -> bool) fuel :
  allowed MgetDerivedStateFromError = true -> allowed McomponentDidCatch = true ->
  forall error vnode hasCaught,
    emits_only (calls_within allowed) (catch_loop classes call fuel error vnode hasCaught).
Proof.
  intros H1 H2. induction fuel as [|fuel IH]; intros error vnode hasCaught;
    [apply emits_diverge|].
  cbn [catch_loop]. apply emits_bind; [apply emits_get|intros s].
  destruct (VNode._parent _) as [parent|]; [|apply emits_throw].
  destruct (VNode._component _) as [c|]; [|apply IH].
  destruct (is_Some_b _); [apply IH|].
  apply emits_bind; [|intros [|e h]; [apply emits_ret|apply IH]].
  unfold try_boundary. apply emits_try_catch; [|intros e; apply emits_ret].
  apply emits_bind; [apply emits_get|intros s0].
  apply emits_bind.
  { destruct (getDerivedStateFromError _); [|apply emits_ret].
    apply emits_bind; [apply emits_ecall; exact H1|intros st].
    apply emits_bind; [apply emits_lift|intros _; apply emits_ret]. }
  intros h1. apply emits_bind; [apply emits_get|intros s1].
  apply emits_bind.
  { destruct (componentDidCatch _); [|apply emits_ret].
    apply emits_bind; [apply emits_ecall; exact H2|intros _; apply emits_ret]. }
  intros h2. destruct h2; [|apply emits_ret].
  apply emits_bind; [apply emits_modify|intros _].
  apply emits_bind; [apply emits_lift|intros _; apply emits_ret].
Qed.

Lemma emits_for_each (P : event -> Prop) cells (f : nat -> M event unit) :
  (forall i, emits_only P (f i)) -> emits_only P (for_each cells f).
Proof.
  intros H. induction cells as [|i rest IH]; [apply emits_ret|].
  cbn [for_each]. apply emits_bind; [apply H|intros _; exact IH].
Qed.

Lemma emits_options__render (allowed : method -> bool) vnode :
  emits_only (calls_within allowed) (options__render call vnode).
Proof.
  unfold options__render.
  apply emits_bind; [apply emits_get|intros s].
  apply emits_bind; [apply emits_modify|intros _].
  apply emits_bind; [apply emits_modify|intros _].
  destruct (VNode._component _) as [c|]; [|apply emits_throw].
  unfold flush_pending. apply emits_bind; [apply emits_get|intros s1].
  destruct (Comp.__hooks _) as [h|]; [|apply emits_ret].
  apply emits_bind.
  { apply emits_for_each. intros i. unfold invokeCleanup.
    apply emits_bind; [apply emits_get|intros s2].
    destruct (Hook._cleanup _); [|apply emits_ret].
    apply emits_bind; [apply emits_emit; exact I|intros _].
    apply emits_bind; [apply emits_lift|intros _; apply emits_ret]. }
  intros _. apply emits_bind; [|intros _; apply emits_modify].
  apply emits_for_each. intros i. unfold invokeEffect.
  apply emits_bind; [apply emits_get|intros s2].
  destruct (Hook._value _); try apply emits_throw.
  apply emits_bind; [apply emits_emit; exact I|intros _].
  apply emits_bind; [apply emits_lift|intros result].
  destruct result; try apply emits_ret. apply emits_modify.
Qed.

Lemma Forall_bind_at {E A B} (P : E -> Prop) (m : M E A) (k : A -> M E B) s :
  Forall P (snd (m s)) ->
  (forall a s1 ev1, m s = (Ret a, s1, ev1) -> Forall P (snd (k a s1))) ->
  Forall P (snd (mbind m k s)).
Proof.
  intros Hm Hk. unfold mbind.
  destruct (m s) as [[[a|e|] s1] ev1] eqn:E0; cbn [snd] in *; try exact Hm.
  specialize (Hk a s1 ev1 eq_refl). destruct (k a s1) as [[r s2] ev2]. cbn [snd] in *.
  apply Forall_app. split; assumption.
Qed.

Lemma Forall_try_catch_at {E A} (P : E -> Prop) (m : M E A) (h : jsval -> M E A) s :
  Forall P (snd (m s)) -> (forall e, emits_only P (h e)) ->
  Forall P (snd (try_catch m h s)).
Proof.
  intros Hm Hh. unfold try_catch.
  destruct (m s) as [[[a|e|] s1] ev1]; cbn [snd] in *; try exact Hm.
  specialize (Hh e s1). destruct (h e s1) as [[r s2] ev2]. cbn [snd] in *.
  apply Forall_app. split; assumption.
Qed.

Ltac lifecycle :=
  repeat (cbv zeta; cbn [negb is_Some_b andb orb fst snd];
          first
            [ apply emits_ret | apply emits_throw | apply emits_diverge | apply emits_get
            | apply emits_modify | apply emits_lift
            | apply emits_ecall; reflexivity
            | apply emits_emit; first [reflexivity | exact I]
            | apply emits_options__render
            | apply emits_nest; intros; exact I
            | apply emits_bind; [|intros ?]
            | apply emits_try_catch; [|intros ?]
            | match goal with
              | |- emits_only _ (if ?b then _ else _) => destruct b
              | |- emits_only _ (match ?x with _ => _ end) => destruct x
              end ]).


End Lifecycle.


Section ForceUpdate.
Variable classes : fid -> class_decl.
Variable call : fid -> jsval -> list jsval -> U jsval.

(** X13: [forceUpdate] does nothing on an instance that is not mounted.  On
    a mounted one it sets [_force], records the callback and enqueues the
    instance; and as long as [_force] is set, the bail-out test of [diff]
    does not call [shouldComponentUpdate]: it only compares the vnodes'
    [_original]. *)
Theorem forceUpdate_bypasses_shouldComponentUpdate c callback s :
  c < length (components s) ->
  let s' := snd (forceUpdate c callback s) in
  fst (forceUpdate c callback s) = Ret tt
  /\ (Comp._vnode (get_comp s c) = None -> s' = s)
  /\ (Comp._vnode (get_comp s c) <> None ->
      Comp._force (get_comp s' c) = true
      /\ Comp._renderCallbacks (get_comp s' c)
         = Comp._renderCallbacks (get_comp s c) ++ callback_entry callback
      /\ rerenderQueue s'
         = (if Comp._dirty (get_comp s c) then rerenderQueue s else rerenderQueue s ++ [c]))
  /\ (forall s1 newVNode oldVNode newProps componentContext,
        Comp._force (get_comp s1 c) = true ->
        should_bail classes call c newVNode oldVNode newProps componentContext s1
        = (Ret (strict_eq (VNode._original (get_vnode s1 newVNode))
                          (VNode._original (old_vnode s1 oldVNode))
                && negb (is_Some_b (Comp._processingException (get_comp s1 c)))),
           s1, [])).
Proof.
  intros Hc s'.
  assert (Hbail : forall s1 newVNode oldVNode newProps componentContext,
            Comp._force (get_comp s1 c) = true ->
            should_bail classes call c newVNode oldVNode newProps componentContext s1
            = (Ret (strict_eq (VNode._original (get_vnode s1 newVNode))
                              (VNode._original (old_vnode s1 oldVNode))
                    && negb (is_Some_b (Comp._processingException (get_comp s1 c)))),
               s1, [])).
  { intros s3 newVNode oldVNode newProps componentContext Hforce.
    unfold should_bail. rewrite bind_get, Hforce, bind_ret, bind_get. reflexivity. }
  assert (Hrun : forceUpdate c callback s
                 = match Comp._vnode (get_comp s c) with
                   | Some _ => enqueueRender c
                                 (snd (push_callback c callback
                                         (upd_comp c (CompSet._force true) s)))
                   | None => (Ret tt, s)
                   end).
  { unfold forceUpdate, ubind, uget, umodify.
    destruct (Comp._vnode (get_comp s c)); [|reflexivity].
    assert (Hpush : fst (push_callback c callback (upd_comp c (CompSet._force true) s)) = Ret tt)
      by (unfold push_callback; destruct callback; reflexivity).
    destruct (push_callback c callback _) as [r s2]. cbn [fst snd] in *. subst r. reflexivity. }
  unfold s'. rewrite Hrun. clear Hrun s'.
  destruct (Comp._vnode (get_comp s c)) as [v|] eqn:Ev.
  - set (s1 := upd_comp c (CompSet._force true) s).
    assert (Hc1 : c < length (components s1)) by (unfold s1; rewrite length_upd_comp; exact Hc).
    destruct (push_callback_effect c callback s1 Hc1) as (_ & Hpq & Hpc & Hpd & _ & _).
    assert (Hpf : Comp._force (get_comp (snd (push_callback c callback s1)) c) = true).
    { unfold push_callback. destruct callback as [cb|]; unfold umodify, uret; cbn [snd].
      - rewrite (get_upd_comp_field Comp._force) by reflexivity.
        unfold s1. rewrite get_upd_comp_same by exact Hc. reflexivity.
      - unfold s1. rewrite get_upd_comp_same by exact Hc. reflexivity. }
    set (s2 := snd (push_callback c callback s1)) in *.
    destruct (enqueueRender_queue c s2) as (Hr & _ & Hq).
    split; [exact Hr|]. split; [discriminate|]. split; [|exact Hbail].
    intros _. split; [|split].
    + rewrite (enqueueRender_comp_field Comp._force) by reflexivity. exact Hpf.
    + rewrite (enqueueRender_comp_field Comp._renderCallbacks) by reflexivity.
      rewrite Hpc. unfold s1. rewrite (get_upd_comp_field Comp._renderCallbacks) by reflexivity.
      reflexivity.
    + rewrite Hq, Hpd, Hpq. unfold s1.
      rewrite (get_upd_comp_field Comp._dirty) by reflexivity. reflexivity.
  - cbn [fst snd]. split; [reflexivity|]. split; [reflexivity|]. split; [congruence|exact Hbail].
Qed.

End ForceUpdate.


(** * The commit and unmount phases *)

Lemma emits_relabel_of {E F A} (P : F -> Prop) (f : E -> F) (m : M E A) :
  emits_only (fun e => P (f e)) m -> emits_only P (relabel f m).
Proof.
  intros H s. unfold relabel. specialize (H s). destruct (m s) as [[r s1] ev]. cbn [snd] in *.
  apply Forall_map. exact H.
Qed.

Section Phases.
Variable classes : fid -> class_decl.
Variable call : fid -> jsval -> list jsval -> U jsval.

Lemma emits_boundaries (P : event -> Prop) fuel :
  (forall c args, P (EvCall c MgetDerivedStateFromError args)) ->
  (forall c args, P (EvCall c McomponentDidCatch args)) ->
  forall error vnode hasCaught,
    emits_only P (catch_loop classes call fuel error vnode hasCaught).
Proof.
  intros H1 H2. induction fuel as [|fuel IH]; intros error vnode hasCaught;
    [apply emits_diverge|].
  cbn [catch_loop]. apply emits_bind; [apply emits_get|intros s].
  destruct (VNode._parent _) as [parent|]; [|apply emits_throw].
  destruct (VNode._component _) as [c|]; [|apply IH].
  destruct (is_Some_b _); [apply IH|].
  apply emits_bind; [|intros [|e h]; [apply emits_ret|apply IH]].
  unfold try_boundary, ecall. emits; apply emits_emit; auto.
Qed.

Lemma emits_catchError_at (P : event -> Prop) fuel e c :
  (forall c args, P (EvCall c MgetDerivedStateFromError args)) ->
  (forall c args, P (EvCall c McomponentDidCatch args)) ->
  emits_only P (catchError_at classes call fuel e c).
Proof.
  intros H1 H2. unfold catchError_at. apply emits_bind; [apply emits_get|intros s].
  destruct (Comp._vnode _); [|apply emits_throw].
  unfold _catchError. apply emits_boundaries; assumption.
Qed.

Lemma emits_run_callbacks queue c cbs :
  In c queue -> emits_only (commit_may_call queue) (run_callbacks classes call c cbs).
Proof.
  intros Hin. induction cbs as [|cb rest IH]; [apply emits_ret|].
  cbn [run_callbacks]. apply emits_bind; [|intros _; exact IH].
  unfold run_callback, ecall. emits; apply emits_emit; exact Hin.
Qed.

Lemma emits_commit_each fuel queue : forall q,
  incl q queue -> emits_only (commit_may_call queue) (commit_each classes call fuel q).
Proof.
  induction q as [|c rest IH]; intros Hq; [apply emits_ret|].
  cbn [commit_each]. apply emits_bind.
  - unfold commit_component. apply emits_try_catch.
    + apply emits_bind; [apply emits_get|intros s].
      apply emits_bind; [apply emits_modify|intros _].
      apply emits_run_callbacks. apply Hq. left. reflexivity.
    + intros e. apply emits_catchError_at; intros; exact I.
  - intros _. apply IH. intros x Hx. apply Hq. right. exact Hx.
Qed.

(** X14: the only component methods and callbacks [commitRoot] calls are
    the [componentDidMount], [componentDidUpdate] and [setState] callbacks
    of the instances in the commit queue and, when one of them throws, the
    handlers of error boundaries: no [render], no constructor and none of
    the methods [diff] calls before rendering. *)
Theorem commitRoot_calls_only_queued_callbacks fuel root s :
  Forall (commit_may_call (commitQueue s)) (snd (commitRoot classes call fuel root s)).
Proof.
  unfold commitRoot. rewrite bind_get.
  apply emits_commit_each. intros x Hx. exact Hx.
Qed.

Lemma emits_cleanup_cells (P : event -> Prop) c :
  (forall i, P (EvCleanup c i)) ->
  forall n i, emits_only P (cleanup_cells call c i n).
Proof.
  intros H. induction n as [|n IH]; intros i; [apply emits_ret|].
  cbn [cleanup_cells]. apply emits_bind; [|intros _; apply IH].
  unfold invokeCleanup. emits. apply emits_emit. apply H.
Qed.

Lemma emits_options_unmount fuel vnode :
  emits_only unmount_may_do (relabel UEngine (options_unmount classes call fuel vnode)).
Proof.
  apply emits_relabel_of. unfold options_unmount.
  apply emits_bind; [apply emits_get|intros s].
  destruct (VNode._component _) as [c|]; [|apply emits_ret].
  destruct (Comp.__hooks _) as [h|]; [|apply emits_ret].
  apply emits_try_catch.
  - apply emits_cleanup_cells. intros i. exact I.
  - intros e. apply emits_catchError_at; intros; exact I.
Qed.

Lemma emits_unmount_catchError fuel e vnode :
  emits_only unmount_may_do (relabel UEngine (_catchError classes call fuel e vnode)).
Proof.
  apply emits_relabel_of. unfold _catchError. apply emits_boundaries; intros; exact I.
Qed.

Lemma emits_applyRef_null fuel ref vnode :
  emits_only unmount_may_do (applyRef classes call fuel ref VNull vnode).
Proof.
  unfold applyRef. apply emits_try_catch; [|intros e; apply emits_unmount_catchError].
  apply emits_bind; [apply emits_emit; reflexivity|intros _]. emits.
Qed.

(** X15: whatever the tree, the only component methods [unmount] calls are
    [componentWillUnmount] and, when something throws, the handlers of
    error boundaries; of the hooks it runs cleanups, never an effect; and
    every ref it applies receives [null]. *)
Theorem unmount_only_tears_down fuel : forall vnode parentVNode skipRemove s,
  Forall unmount_may_do (snd (unmount classes call fuel vnode parentVNode skipRemove s)).
Proof.
  induction fuel as [|fuel IH]; intros vnode parentVNode skipRemove;
    [apply emits_diverge|].
  change (emits_only unmount_may_do (unmount classes call (S fuel) vnode parentVNode skipRemove)).
  cbn [unmount].
  apply emits_bind; [apply emits_options_unmount|intros _].
  apply emits_bind; [apply emits_get|intros s].
  apply emits_bind.
  { destruct (truthy _); [|apply emits_ret].
    apply emits_bind; [apply emits_lift|intros current].
    apply emits_bind; [apply emits_get|intros s0].
    destruct (_ || _); [apply emits_applyRef_null|apply emits_ret]. }
  intros _. apply emits_bind; [apply emits_get|intros s1]. cbv zeta.
  apply emits_bind; [apply emits_modify|intros _].
  apply emits_bind; [apply emits_modify|intros _].
  apply emits_bind; [apply emits_get|intros s2].
  apply emits_bind.
  { destruct (VNode._component _) as [c|]; [|apply emits_ret].
    apply emits_bind.
    - destruct (componentWillUnmount _) as [f|]; [|apply emits_ret].
      apply emits_try_catch.
      + apply emits_bind; [|intros ?; apply emits_ret].
        apply emits_relabel_of. unfold ecall.
        apply emits_bind; [apply emits_emit; exact I|intros _; apply emits_lift].
      + intros e. apply emits_unmount_catchError.
    - intros _. apply emits_bind; [apply emits_modify|intros _; apply emits_modify]. }
  intros _. apply emits_bind; [apply emits_get|intros s3].
  apply emits_bind.
  - destruct (VNode._children _) as [| | | | | | | | | |a| |]; try apply emits_ret.
    generalize (get_array s3 a) as children.
    induction children as [|child rest IHc]; [apply emits_ret|].
    apply emits_bind; [|intros _; exact IHc].
    destruct child; try (intros s4; apply IH); emits.
  - intros _.
    match goal with |- emits_only _ (match ?d with _ => _ end) => destruct d end;
      try apply emits_ret.
    apply emits_emit. exact I.
Qed.

End Phases.

(** * Hooks and the component being rendered *)

Section HooksOutsideRender.
Variable call : fid -> jsval -> list jsval -> U jsval.
Variable callback_factory : jsval -> fid.

Lemma getHookState_no_component index s :
  currentComponent s = None -> getHookState index s = (Throw TypeError, s).
Proof. intros H. unfold getHookState. rewrite H. reflexivity. Qed.

(** X16: a hook needs a component that is being rendered.  While no
    component is current (no [diff] has called [options._render] yet),
    [useReducer], [useState], [useMemo] and [useCallback] throw a
    [TypeError]; they call neither [init] nor the factory, and change
    nothing but the hook index. *)
Theorem hooks_outside_render_throw (s : store) :
  currentComponent s = None ->
  exists s',
    (exists index, s' = set_currentIndex index s)
    /\ (forall r initialState init,
          useReducer call r initialState init s = (Throw TypeError, s'))
    /\ (forall initialState, useState call initialState s = (Throw TypeError, s'))
    /\ (forall factory args, useMemo call factory args s = (Throw TypeError, s'))
    /\ (forall callback args,
          useCallback call callback_factory callback args s = (Throw TypeError, s')).
Proof.
  intros H. exists (set_currentIndex (S (currentIndex s)) s).
  assert (Hs : currentComponent (set_currentIndex (S (currentIndex s)) s) = None) by exact H.
  assert (Hred : forall r initialState init,
            useReducer call r initialState init s
            = (Throw TypeError, set_currentIndex (S (currentIndex s)) s)).
  { intros r initialState init. unfold useReducer, ubind, uget, umodify.
    rewrite (getHookState_no_component _ _ Hs). reflexivity. }
  assert (Hmemo : forall factory args,
            useMemo call factory args s
            = (Throw TypeError, set_currentIndex (S (currentIndex s)) s)).
  { intros factory args. unfold useMemo, ubind, uget, umodify.
    rewrite (getHookState_no_component _ _ Hs). reflexivity. }
  split; [eexists; reflexivity|].
  split; [exact Hred|]. split; [intros i; apply Hred|].
  split; [exact Hmemo|]. intros callback args. apply Hmemo.
Qed.

End HooksOutsideRender.

(** A cell that is marked with a component exists in the hook list of a
    component of the store. *)
Lemma get_cell_owned s c i owner :
  Hook._component (get_cell s c i) = Some owner ->
  c < length (components s)
  /\ exists h, Comp.__hooks (get_comp s c) = Some h /\ _list h !! i = Some (get_cell s c i).
Proof.
  intros H. split.
  - destruct (decide (c < length (components s))) as [Hlt|Hge]; [exact Hlt|].
    exfalso. unfold get_cell, get_comp in H.
    rewrite (proj2 (lookup_ge_None _ _)) in H by lia. discriminate H.
  - unfold get_cell in *. destruct (Comp.__hooks (get_comp s c)) as [h|]; [|discriminate H].
    exists h. split; [reflexivity|].
    destruct (_list h !! i); [reflexivity|discriminate H].
Qed.

Section RoundTrip.
Variable call : fid -> jsval -> list jsval -> U jsval.

(** The setter leaves every hook list as it is, but for the value it stores
    in its cell. *)
Lemma dispatch_hooks c i action s value r nextValue s1 current r' owner :
  Hook._value (get_cell s c i) = Hook.State value r ->
  apply_reducer call r value action s = (Ret nextValue, s1) ->
  Hook._value (get_cell s1 c i) = Hook.State current r' ->
  Hook._component (get_cell s1 c i) = Some owner ->
  fst (dispatch call c i action s) = Ret tt
  /\ forall d,
       Comp.__hooks (get_comp (snd (dispatch call c i action s)) d)
       = Comp.__hooks
           (get_comp (if strict_neq current nextValue
                      then upd_cell c i (fun cell =>
                             Hook.mk (Hook._component cell) (Hook.State nextValue r')
                               (Hook._args cell) (Hook._factory cell) (Hook._cleanup cell)) s1
                      else s1) d).
Proof.
  intros Hcell Hred Hcell1 Howner.
  unfold dispatch. msimpl. rewrite Hcell, Hred. cbv iota beta. rewrite Hcell1, Howner.
  destruct (strict_neq current nextValue); [|split; reflexivity].
  cbn [alloc_object].
  set (s2 := upd_cell c i _ s1).
  rewrite setState_empty_object; cycle 1.
  { simpl. rewrite length_app. simpl. lia. }
  { unfold get_object. simpl. rewrite lookup_app_r by lia. rewrite Nat.sub_diag. reflexivity. }
  set (s3 := set_objects (objects s2 ++ [∅]) s2).
  destruct (Comp._vnode (get_comp s3 owner)).
  - destruct (enqueueRender_queue owner (stage owner s3)) as (Hr & _).
    split; [exact Hr|]. intros d. rewrite enqueueRender_hooks, stage_hooks. reflexivity.
  - split; [reflexivity|]. intros d. cbn [snd]. rewrite stage_hooks. reflexivity.
Qed.

(** X17: what the setter of a state cell stores is what the next render
    gets.  Once the reducer has returned [nextValue] for the action, the
    setter returns normally, and the next [useReducer] (or [useState]) of
    that component at that position returns [nextValue], whether or not
    the setter found the value changed. *)
Theorem setter_then_useReducer c i action s value r nextValue s1 current r' owner :
  Hook._value (get_cell s c i) = Hook.State value r ->
  apply_reducer call r value action s = (Ret nextValue, s1) ->
  Hook._value (get_cell s1 c i) = Hook.State current r' ->
  Hook._component (get_cell s1 c i) = Some owner ->
  let rendering :=
    set_currentIndex i (set_currentComponent (Some c) (snd (dispatch call c i action s))) in
  fst (dispatch call c i action s) = Ret tt
  /\ forall reducer' initialState init,
       useReducer call reducer' initialState init rendering
       = (Ret (Hook.State nextValue r', (c, i)), set_currentIndex (S i) rendering).
Proof.
  intros Hcell Hred Hcell1 Howner rendering.
  destruct (dispatch_hooks c i action s value r nextValue s1 current r' owner
              Hcell Hred Hcell1 Howner) as [Hret Hhooks].
  split; [exact Hret|]. intros reducer' initialState init.
  destruct (get_cell_owned s1 c i owner Howner) as (Hc1 & h1 & Hh1 & Hi1).
  (* the cell after the setter *)
  assert (Hafter : Hook._value (get_cell rendering c i) = Hook.State nextValue r'
                   /\ Hook._component (get_cell rendering c i) = Some owner).
  { unfold get_cell.
    change (get_comp rendering c) with (get_comp (snd (dispatch call c i action s)) c).
    rewrite Hhooks.
    destruct (strict_neq current nextValue) eqn:Hneq.
    - destruct (get_cell_upd_cell c i (fun cell =>
                  Hook.mk (Hook._component cell) (Hook.State nextValue r')
                    (Hook._args cell) (Hook._factory cell) (Hook._cleanup cell))
                  s1 _ h1 Hc1 Hh1 Hi1) as [Hg _].
      unfold get_cell in Hg at 1. rewrite Hg. cbn [Hook._value Hook._component].
      split; [reflexivity|exact Howner].
    - fold (get_cell s1 c i). split; [|exact Howner].
      rewrite Hcell1. f_equal.
      apply strict_eq_true. unfold strict_neq in Hneq. apply negb_false_iff. exact Hneq. }
  destruct Hafter as [Hval Hown].
  destruct (get_cell_owned rendering c i owner Hown) as (Hc & h & Hh & Hi).
  rewrite (useReducer_initialised call reducer' initialState init c h i _ owner rendering
             eq_refl Hc Hh eq_refl Hi Hown).
  rewrite Hval. reflexivity.
Qed.

End RoundTrip.


(** * The properties at the concrete application *)


(** C3, the failing input: an error is caught at vnode 3.  The handler of
    instance 1 throws ["E2"]; instance 0, which declares no handler, is then
    marked with a pending error and enqueued, and [_catchError] returns
    normally, although no ancestor handled ["E2"]. *)
Lemma catchError_after_failing_handler :
  getDerivedStateFromError (ex_classes 2) = None
  /\ componentDidCatch (ex_classes 2) = None
  /\ let '(r, s', evs) := _catchError ex_classes ex_call 10 (VError "E1") 3 ex_chain in
     r = Ret tt
     /\ evs = [EvCall 1 McomponentDidCatch [VError "E1"]]
     /\ Comp._pendingError (get_comp s' 0) = Some 0
     /\ Comp._pendingError (get_comp s' 1) = None
     /\ rerenderQueue s' = [0].
Proof.
  do 2 (apply conj; [vm_compute; reflexivity|]).
  vm_compute. repeat apply conj; reflexivity.
Qed.


(** C5 at a mounted [div] that is rendered again with the same
    [_original]: [diff] issues no event and returns the old host node. *)
Lemma diff_reused_div_skips :
  strict_eq (VNode._original (get_vnode ex_reused 1))
    (VNode._original (old_vnode ex_reused (Some 0))) = true
  /\ diff ex_classes ex_call ex_diffChildren ex_diffElementNodes 5 0 1 (Some 0) VUndef false None
       (OldDom (DNode 7)) false ex_reused
     = (Ret (DNode 7),
        upd_vnode 1 (VNodeSet._dom (DNode 7)) (upd_vnode 1 (VNodeSet._children (VArr 0)) ex_reused),
        []).
Proof.
  split; [reflexivity|].
  refine (diff_same_original_skips ex_classes ex_call ex_diffChildren ex_diffElementNodes 5 0 1
            (Some 0) VUndef false (OldDom (DNode 7)) false ex_reused _ _ _ _ _).
  - simpl. lia.
  - reflexivity.
  - intros f. discriminate.
  - reflexivity.
  - reflexivity.
Defined.

(** C6, the failing input: the constructor has assigned [this.state] and
    calls [this.setState({count: 1})]; [_nextState] is still [undefined], so
    [s] is [undefined] and [assign(s, update)] throws a [TypeError] instead
    of merging into a clone of the state. *)
Lemma setState_before_first_diff_throws :
  Comp._nextState (get_comp ex_constructed 0) = VUndef
  /\ Comp.state (get_comp ex_constructed 0) = VObj 0
  /\ setState ex_call 0 (VObj 1) None ex_constructed = (Throw TypeError, ex_constructed).
Proof.
  do 2 (apply conj; [vm_compute; reflexivity|]).
  vm_compute. repeat apply conj; reflexivity.
Qed.

(** X1 at a mounted instance: [setState({count: 1})] stages a clone of the
    state with [count] replaced, leaves the state alone and enqueues the
    instance. *)
Lemma setState_on_mounted_instance :
  fst (setState ex_call 0 (VObj 1) None ex_staged) = Ret tt
  /\ Comp._nextState (get_comp (snd (setState ex_call 0 (VObj 1) None ex_staged)) 0) = VObj 2
  /\ get_object (snd (setState ex_call 0 (VObj 1) None ex_staged)) 2
     = get_object ex_staged 1 ∪ get_object ex_staged 0
  /\ rerenderQueue (snd (setState ex_call 0 (VObj 1) None ex_staged)) = [0].
Proof.
  assert (H := setState_merges_into_staged_state ex_call 0 (VObj 1) None ex_staged 0 (VObj 1)).
  destruct H as (H1 & H2 & _ & H4 & _ & H6 & _).
  - simpl. lia.
  - simpl. lia.
  - reflexivity.
  - reflexivity.
  - right. right. exists 1. split; [reflexivity|simpl; lia].
  - exact (conj H1 (conj H2 (conj H4 H6))).
Defined.

(** C7, the claim as stated fails: the instance is already dirty, yet
    [enqueueRender] is not a no-op: the batching strategy has changed, so
    it records the new strategy and hands it a flush. *)
Lemma enqueueRender_dirty_still_schedules :
  Comp._dirty (get_comp ex_rescheduled 0) = true
  /\ scheduled ex_rescheduled = []
  /\ scheduled (snd (enqueueRender 0 ex_rescheduled)) = [Some 12]
  /\ snd (enqueueRender 0 ex_rescheduled) <> ex_rescheduled.
Proof.
  repeat split; try reflexivity.
  intros H. apply (f_equal scheduled) in H. discriminate H.
Qed.

(** No function of the application, called as a cleanup, touches a hook
    list. *)
Lemma ex_call_keeps_hooks f s0 c :
  Comp.__hooks (get_comp (snd (ex_call f VUndef [] s0)) c) = Comp.__hooks (get_comp s0 c).
Proof.
  do 12 (destruct f as [|f]; [reflexivity|]). reflexivity.
Qed.



(** C9 at a cell that holds 5: the setter called with 5 changes nothing; the
    setter called with 6 stores 6 and enqueues the owner. *)
Lemma setter_on_counter :
  dispatch ex_call 0 0 (VNum 5) ex_counter = (Ret tt, ex_counter)
  /\ fst (dispatch ex_call 0 0 (VNum 6) ex_counter) = Ret tt
  /\ Hook._value (get_cell (snd (dispatch ex_call 0 0 (VNum 6) ex_counter)) 0 0)
     = Hook.State (VNum 6) RInvokeOrReturn
  /\ rerenderQueue (snd (dispatch ex_call 0 0 (VNum 6) ex_counter)) = [0].
Proof.
  split.
  - refine (proj1 (setter_rerenders_only_on_change ex_call 0 0 (VNum 5) ex_counter (VNum 5)
                     RInvokeOrReturn (VNum 5) ex_counter (VNum 5) RInvokeOrReturn 0 _ _ _ _) _);
      reflexivity.
  - refine (proj2 (setter_rerenders_only_on_change ex_call 0 0 (VNum 6) ex_counter (VNum 5)
                     RInvokeOrReturn (VNum 6) ex_counter (VNum 5) RInvokeOrReturn 0 _ _ _ _) _);
      reflexivity.
Defined.

(** C10 at an object whose [constructor] is [Object]. *)
Lemma diff_ignores_plain_object :
  VNode.constructor (get_vnode ex_foreign 0) = VFun 0
  /\ diff ex_classes ex_call ex_diffChildren ex_diffElementNodes 5 0 0 None VUndef false None
       (OldDom DNull) false ex_foreign
     = (Ret DNull, ex_foreign, []).
Proof.
  split; [reflexivity|].
  apply diff_rejects_foreign_constructor. discriminate.
Defined.

(** X3 at a cell that holds 5: a later [useReducer] with another reducer,
    another initial state and an [init] that would throw returns the cell's
    value. *)
Lemma useReducer_on_counter :
  useReducer ex_call (RUser 9) (VNum 99) (Some 5) ex_rendering
  = (Ret (Hook.State (VNum 5) RInvokeOrReturn, (0, 0)), set_currentIndex 1 ex_rendering).
Proof.
  refine (useReducer_keeps_state ex_call (RUser 9) (VNum 99) (Some 5) 0
            (mk_hooks [Hook.mk (Some 0) (Hook.State (VNum 5) RInvokeOrReturn) None None None] [])
            0 (Hook.mk (Some 0) (Hook.State (VNum 5) RInvokeOrReturn) None None None) 0
            ex_rendering _ _ _ _ _ _); try reflexivity.
  simpl. lia.
Defined.

(** X4 at a first render whose [init] throws: the error comes out, and the
    next [useReducer] at that position returns [undefined]. *)
Lemma useReducer_after_failed_init :
  useReducer ex_call RInvokeOrReturn (VNum 1) (Some 5) ex_first_render
  = (Throw (VError "E2"), before_init 0 ex_first_render)
  /\ useReducer ex_call RInvokeOrReturn (VNum 1) None
       (set_currentIndex 0 (before_init 0 ex_first_render))
     = (Ret (Hook.Unset, (0, 0)),
        set_currentIndex 1 (set_currentIndex 0 (before_init 0 ex_first_render))).
Proof.
  assert (H := useReducer_first_call ex_call RInvokeOrReturn (VNum 1) (Some 5) 0 ex_first_render).
  destruct H as [_ H]; [reflexivity|simpl; lia|reflexivity|].
  destruct (H (VError "E2") (before_init 0 ex_first_render) eq_refl) as [H1 H2].
  split; [exact H1|].
  apply H2; try reflexivity. simpl. lia.
Defined.

(** X6 at a cell that memoises 7 for [[1]]: with the argument list [[1]]
    the factory is not called. *)
Lemma useMemo_cache_hit :
  useMemo ex_call 5 (Some [VNum 1]) ex_memo
  = (Ret (Hook.Memo (VNum 7)), set_currentIndex 1 ex_memo).
Proof.
  refine (proj1 (useMemo_recomputes_only_on_change ex_call 5 (Some [VNum 1]) 0
                   (mk_hooks [Hook.mk None (Hook.Memo (VNum 7)) (Some [VNum 1]) (Some 12) None] [])
                   0 (Hook.mk None (Hook.Memo (VNum 7)) (Some [VNum 1]) (Some 12) None)
                   ex_memo _ _ _ _ _) _); try reflexivity.
  simpl. lia.
Defined.

(** X7 at a first render. *)
Lemma useCallback_first_render :
  fst (useCallback hook_call ex_factory (VFun 7) (Some [VNum 1]) ex_first_render)
  = Ret (Hook.Memo (VFun 7)).
Proof.
  refine (proj1 (useCallback_keeps_identity hook_call ex_factory (VFun 7) [VNum 1] 0
                   ex_first_render _ _ _ _)); try reflexivity.
  simpl. lia.
Defined.


(** X10 at the nested array [["a", [1, false], null, true]]. *)
Lemma getChildren_of_nested_array :
  exists leaves,
    [VStr "a"; VNum 1; VBool true] = [] ++ leaves
    /\ getChildren 5 ex_nested [] (VArr 0) = Ret leaves
    /\ Forall (fun x => kept x = true) leaves
    /\ exists parts,
         Forall2 (fun child part => getChildren 4 ex_nested [] child = Ret part)
           (get_array ex_nested 0) parts
         /\ leaves = concat parts.
Proof.
  apply (getChildren_flattens 5 ex_nested [] (VArr 0) [VStr "a"; VNum 1; VBool true]).
  vm_compute. reflexivity.
Defined.

(** X11 at a [div] with a [span] below: only the host node of the [div] is
    removed. *)
Lemma unmount_div_removes_one_node :
  snd (unmount ex_classes ex_call 5 0 0 false ex_tree) = [URemoveNode 7]
  /\ exists below,
       Forall not_removal below
       /\ snd (unmount ex_classes ex_call 5 0 0 false ex_tree)
          = match fst (fst (unmount ex_classes ex_call 5 0 0 false ex_tree)) with
            | Ret _ => below ++ [URemoveNode 7]
            | _ => below
            end.
Proof.
  split; [vm_compute; reflexivity|].
  apply (proj2 (unmount_removes_topmost_host_node_only ex_classes ex_call 5 0 0 ex_tree) 7).
  - intros f. discriminate.
  - reflexivity.
  - reflexivity.
  - reflexivity.
Defined.


(** X13 at a mounted instance. *)
Lemma forceUpdate_on_counter :
  fst (forceUpdate 0 None ex_counter) = Ret tt
  /\ Comp._force (get_comp (snd (forceUpdate 0 None ex_counter)) 0) = true
  /\ rerenderQueue (snd (forceUpdate 0 None ex_counter)) = [0].
Proof.
  assert (H := forceUpdate_bypasses_shouldComponentUpdate ex_classes ex_call 0 None ex_counter).
  cbv zeta in H. destruct H as (H1 & _ & H3 & _); [simpl; lia|].
  destruct H3 as (H3 & _ & H5); [discriminate|].
  split; [exact H1|]. split; [exact H3|exact H5].
Defined.

(** X16 before any render: no component is current in the empty store. *)
Lemma useState_before_any_render :
  exists s',
    (exists index, s' = set_currentIndex index empty_store)
    /\ (forall r initialState init,
          useReducer ex_call r initialState init empty_store = (Throw TypeError, s'))
    /\ (forall initialState, useState ex_call initialState empty_store = (Throw TypeError, s'))
    /\ (forall factory args, useMemo ex_call factory args empty_store = (Throw TypeError, s'))
    /\ (forall callback args,
          useCallback ex_call ex_factory callback args empty_store = (Throw TypeError, s')).
Proof. apply (hooks_outside_render_throw ex_call ex_factory empty_store). reflexivity. Defined.

(** X17 at a cell that holds 5: after the setter is called with 6, the
    next [useState] returns 6. *)
Lemma setter_then_next_render :
  fst (dispatch ex_call 0 0 (VNum 6) ex_counter) = Ret tt
  /\ forall reducer' initialState init,
       useReducer ex_call reducer' initialState init
         (set_currentIndex 0
            (set_currentComponent (Some 0) (snd (dispatch ex_call 0 0 (VNum 6) ex_counter))))
       = (Ret (Hook.State (VNum 6) RInvokeOrReturn, (0, 0)),
          set_currentIndex 1
            (set_currentIndex 0
               (set_currentComponent (Some 0)
                  (snd (dispatch ex_call 0 0 (VNum 6) ex_counter))))).
Proof.
  apply (setter_then_useReducer ex_call 0 0 (VNum 6) ex_counter (VNum 5) RInvokeOrReturn
           (VNum 6) ex_counter (VNum 5) RInvokeOrReturn 0); reflexivity.
Defined.
